(** * Trend-adjusted Bayesian risk scoring: probabilityCalculator.js and
      trendAnalyzer.js

    A shallow embedding of the scoring engine of the dashboard
    ([ProbabilityCalculator], [TrendAnalyzer], the constants of config.js and
    [validateNumber] / [clamp] of utils.js), and the properties of the
    specification stated over it.

    Numbers.  A JavaScript number is modelled by [num]: NaN, the two
    infinities, or a finite value carried as an exact rational.  The special
    values follow IEEE 754 (NaN is absorbing and fails every comparison, a
    non-zero finite value divided by zero is an infinity, 0/0 is NaN); finite
    arithmetic is exact, so binary rounding, overflow and the sign of zero are
    not modelled.  Logger calls have no influence on any returned value and
    are left out. *)

From Stdlib Require Import QArith Qabs Lqa ZArith Lia.
From stdpp Require Import gmap strings list fin_maps.

(* ===================================================================== *)
(** ** JavaScript numbers *)
(* ===================================================================== *)

Inductive num : Type :=
  | NaN
  | PInf
  | NInf
  | Fin (q : Q).

Declare Scope num_scope.
Delimit Scope num_scope with num.
Bind Scope num_scope with num.

(** The infinity whose sign is given by a comparison with zero; [Eq] is the
    indeterminate case. *)
Definition inf_of_sign (c : comparison) : num :=
  match c with
  | Gt => PInf
  | Lt => NInf
  | Eq => NaN
  end.

Definition js_neg (x : num) : num :=
  match x with
  | NaN => NaN
  | PInf => NInf
  | NInf => PInf
  | Fin a => Fin (- a)%Q
  end.

Definition js_add (x y : num) : num :=
  match x, y with
  | NaN, _ | _, NaN => NaN
  | PInf, NInf | NInf, PInf => NaN
  | PInf, _ | _, PInf => PInf
  | NInf, _ | _, NInf => NInf
  | Fin a, Fin b => Fin (a + b)%Q
  end.

Definition js_sub (x y : num) : num := js_add x (js_neg y).

Definition js_mul (x y : num) : num :=
  match x, y with
  | NaN, _ | _, NaN => NaN
  | Fin a, Fin b => Fin (a * b)%Q
  | PInf, PInf | NInf, NInf => PInf
  | PInf, NInf | NInf, PInf => NInf
  | PInf, Fin b | Fin b, PInf => inf_of_sign (b ?= 0)%Q
  | NInf, Fin b | Fin b, NInf => inf_of_sign (0 ?= b)%Q
  end.

Definition js_div (x y : num) : num :=
  match x, y with
  | NaN, _ | _, NaN => NaN
  | Fin a, Fin b => if Qeq_bool b 0 then inf_of_sign (a ?= 0)%Q else Fin (a / b)%Q
  | Fin _, (PInf | NInf) => Fin 0
  | (PInf | NInf), (PInf | NInf) => NaN
  | PInf, Fin b => if Qle_bool 0 b then PInf else NInf
  | NInf, Fin b => if Qle_bool 0 b then NInf else PInf
  end.

(** [x < y]; false as soon as one side is NaN. *)
Definition js_lt (x y : num) : bool :=
  match x, y with
  | NaN, _ | _, NaN => false
  | _, NInf => false
  | NInf, _ => true
  | PInf, _ => false
  | Fin _, PInf => true
  | Fin a, Fin b => match (a ?= b)%Q with Lt => true | _ => false end
  end.

(** [x === y] on numbers. *)
Definition js_eq (x y : num) : bool :=
  match x, y with
  | PInf, PInf | NInf, NInf => true
  | Fin a, Fin b => Qeq_bool a b
  | _, _ => false
  end.

Definition js_gt (x y : num) : bool := js_lt y x.
Definition js_le (x y : num) : bool := js_lt x y || js_eq x y.
Definition js_ge (x y : num) : bool := js_lt y x || js_eq x y.

Definition isNaN (x : num) : bool :=
  match x with NaN => true | _ => false end.

Definition isFinite (x : num) : bool :=
  match x with Fin _ => true | _ => false end.

(** ToBoolean on a number: 0 and NaN are falsy. *)
Definition truthy (x : num) : bool :=
  match x with
  | NaN => false
  | Fin a => negb (Qeq_bool a 0)
  | _ => true
  end.

Definition Math_abs (x : num) : num :=
  match x with
  | NaN => NaN
  | PInf | NInf => PInf
  | Fin a => Fin (Qabs a)
  end.

Definition Math_max (x y : num) : num :=
  match x, y with
  | NaN, _ | _, NaN => NaN
  | _, _ => if js_lt x y then y else x
  end.

Definition Math_min (x y : num) : num :=
  match x, y with
  | NaN, _ | _, NaN => NaN
  | _, _ => if js_lt y x then y else x
  end.

Infix "+" := js_add : num_scope.
Infix "-" := js_sub : num_scope.
Infix "*" := js_mul : num_scope.
Infix "/" := js_div : num_scope.

(** A JavaScript integer-valued number, as array lengths and loop counters
    are. *)
Definition of_nat (n : nat) : num := Fin (inject_Z (Z.of_nat n)).

(** Numeric equality of two numbers (the rational carried by a finite number
    has several representations). *)
Definition num_eq (x y : num) : Prop :=
  match x, y with
  | NaN, NaN | PInf, PInf | NInf, NInf => True
  | Fin a, Fin b => (a == b)%Q
  | _, _ => False
  end.

Infix "=n=" := num_eq (at level 70, no associativity).

(** utils.js *)

Inductive error : Type :=
  | ValidationError
  | TypeError.

(** The outcome of a computation that may throw. *)
Inductive outcome (A : Type) : Type :=
  | Returned (a : A)
  | Thrown (e : error).
Arguments Returned {A} a.
Arguments Thrown {A} e.

#[global] Instance outcome_ret : MRet outcome := fun A a => Returned a.

#[global] Instance outcome_bind : MBind outcome := fun A B k m =>
  match m with
  | Returned a => k a
  | Thrown e => Thrown e
  end.

(** try { m } catch { h } *)
Definition try_catch {A} (m : outcome A) (h : A) : A :=
  match m with
  | Returned a => a
  | Thrown _ => h
  end.

(** [validateNumber]: parseFloat of a number is that number. *)
Definition validateNumber (value : num) : outcome num :=
  let n := value in
  if isNaN n || negb (isFinite n) then Thrown ValidationError else Returned n.

Definition clamp (value min max : num) : num :=
  Math_min (Math_max value min) max.

(** A method body over an object of type [S]: it may mutate the object and
    may throw; mutations made before a throw stay. *)
Definition M (S A : Type) : Type := S -> outcome A * S.

#[global] Instance M_ret {S} : MRet (M S) := fun A a s => (Returned a, s).

#[global] Instance M_bind {S} : MBind (M S) := fun A B k m s =>
  match m s with
  | (Returned a, s') => k a s'
  | (Thrown e, s') => (Thrown e, s')
  end.

Definition throw {S A} (e : error) : M S A := fun s => (Thrown e, s).

Definition get {S} : M S S := fun s => (Returned s, s).

Definition modify {S} (f : S -> S) : M S unit := fun s => (Returned tt, f s).

(** try { m } catch (error) { h } *)
Definition try_ {S A} (m : M S A) (h : M S A) : M S A := fun s =>
  match m s with
  | (Returned a, s') => (Returned a, s')
  | (Thrown _, s') => h s'
  end.

(** Lift the outcome of an expression into a method body. *)
Definition lift {S A} (o : outcome A) : M S A := fun s => (o, s).

(** for (let i = start; i < start + count; i++) body *)
Fixpoint for_loop {A} (body : A -> nat -> outcome A) (start count : nat) (a : A)
  : outcome A :=
  match count with
  | O => Returned a
  | S count' => a' ← body a start; for_loop body (S start) count' a'
  end.

(** for (const x of xs) body *)
Fixpoint for_of {S X} (body : X -> M S unit) (xs : list X) : M S unit :=
  match xs with
  | [] => mret tt
  | x :: xs' => _ ← body x; for_of body xs'
  end.

(* ===================================================================== *)
(** ** config.js *)
(* ===================================================================== *)

Definition BASE_PROBABILITIES : gmap string num :=
  <["recession" := Fin 0.15]> (
  <["depression" := Fin 0.03]> (
  <["reserve" := Fin 0.05]> (
  <["default" := Fin 0.01]> (
  <["devaluation" := Fin 0.20]> ∅)))).

Module Threshold.
Record t : Type := { value : num; factor : num; reason : string }.
End Threshold.

Module ECONOMIC_THRESHOLDS.
Module recession.
Definition deficitGDP : Threshold.t :=
  {| Threshold.value := Fin 5; Threshold.factor := Fin 1.8;
     Threshold.reason := "Deficit > 5% GDP" |}.
Definition creditSpreads : Threshold.t :=
  {| Threshold.value := Fin 4; Threshold.factor := Fin 2.0;
     Threshold.reason := "Credit spreads > 400bps" |}.
Definition yieldCurve : Threshold.t :=
  {| Threshold.value := Fin 0; Threshold.factor := Fin 1.7;
     Threshold.reason := "Yield curve inverted" |}.
End recession.
Module depression.
Definition fedFunds : Threshold.t :=
  {| Threshold.value := Fin 0.5; Threshold.factor := Fin 3.0;
     Threshold.reason := "Fed Funds < 0.5%" |}.
Definition debtGDP : Threshold.t :=
  {| Threshold.value := Fin 150; Threshold.factor := Fin 2.0;
     Threshold.reason := "Debt/GDP > 150%" |}.
Definition mbToM2 : Threshold.t :=
  {| Threshold.value := Fin 0.3; Threshold.factor := Fin 1.5;
     Threshold.reason := "Extreme QE conditions" |}.
End depression.
Module reserve.
Definition dxy : Threshold.t :=
  {| Threshold.value := Fin 90; Threshold.factor := Fin 1.5;
     Threshold.reason := "Dollar weakness" |}.
End reserve.
Module default.
Definition deficitGDP : Threshold.t :=
  {| Threshold.value := Fin 7; Threshold.factor := Fin 3.0;
     Threshold.reason := "Deficit > 7% GDP" |}.
Definition interestPayments : Threshold.t :=
  {| Threshold.value := Fin 4; Threshold.factor := Fin 2.5;
     Threshold.reason := "Interest payments > 4% GDP" |}.
Definition rateSpread : Threshold.t :=
  {| Threshold.value := Fin 2; Threshold.factor := Fin 1.5;
     Threshold.reason := "Rising long-term rates" |}.
End default.
Module devaluation.
Definition dxy : Threshold.t :=
  {| Threshold.value := Fin 100; Threshold.factor := Fin 1.5;
     Threshold.reason := "DXY < 100" |}.
Definition deficitGDP : Threshold.t :=
  {| Threshold.value := Fin 7; Threshold.factor := Fin 1.8;
     Threshold.reason := "High deficit monetization risk" |}.
End devaluation.
End ECONOMIC_THRESHOLDS.

(** [CORRELATION_DISCOUNT[k]]; [None] is a missing key. *)
Definition CORRELATION_DISCOUNT (k : nat) : option num :=
  match k with
  | 2%nat => Some (Fin 0.7)
  | 3%nat => Some (Fin 0.5)
  | _ => None
  end.

(** The entry of one indicator in a snapshot; only [raw] is read by the
    scoring engine. *)
Record indicator : Type := { raw : num }.

(** The argument of a refresh cycle: [None] is a caller passing undefined or
    null in place of the snapshot object. *)
Definition snapshot : Type := option (gmap string indicator).

(** Property access on the snapshot object. *)
Definition deref {S} (indicators : snapshot) : M S (gmap string indicator) :=
  match indicators with
  | Some o => mret o
  | None => throw TypeError
  end.

(* ===================================================================== *)
(** ** trendAnalyzer.js *)
(* ===================================================================== *)

Module Obs.
Record t : Type := { date : string; value : num }.
End Obs.

(** The answer of the backend to one history request: the observations, each
    value already through parseFloat, or [None] for anything
    [fetchHistoricalData] catches (no backend, HTTP error, malformed body). *)
Definition backend : Type := string -> option (list Obs.t).

Record TrendAnalyzer : Type := { historicalData : gmap string (list Obs.t) }.

Definition TrendAnalyzer_new : TrendAnalyzer := {| historicalData := ∅ |}.

Definition fetchHistoricalData (b : backend) (seriesId : string)
  : M TrendAnalyzer unit :=
  match b seriesId with
  | None => mret tt
  | Some observations =>
      modify (fun t =>
        {| historicalData :=
             <[seriesId := List.filter (fun obs => negb (isNaN (Obs.value obs)))
                             observations]> (historicalData t) |})
  end.

(** -1: worsening, 0: stable, 1: improving *)
Inductive direction : Type :=
  | Worsening
  | Stable
  | Improving.

Definition direction_number (d : direction) : Z :=
  match d with
  | Worsening => -1
  | Stable => 0
  | Improving => 1
  end.

Record sums : Type := { sumX : num; sumY : num; sumXY : num; sumX2 : num }.

(** One iteration of the regression loop of [calculateTrendDirection]. *)
Definition regression_body (data : list Obs.t) (n : nat) (s : sums) (i : nat)
  : outcome sums :=
  let x := of_nat i in
  match data !! (n - 1 - i)%nat with
  | None => Thrown TypeError
  | Some o =>
      let y := Obs.value o in
      Returned {| sumX := sumX s + x;
                  sumY := sumY s + y;
                  sumXY := sumXY s + x * y;
                  sumX2 := sumX2 s + x * x |}
  end.

Definition slope_of (n : num) (s : sums) : num :=
  (n * sumXY s - sumX s * sumY s) / (n * sumX2 s - sumX s * sumX s).

Definition normalizedSlope_of (n : num) (s : sums) : num :=
  let slope := slope_of n s in
  let avgValue := (sumY s / n)%num in
  ((slope / avgValue) * Fin 100)%num.

Definition classify (normalizedSlope : num) (isInverted : bool) : direction :=
  if js_lt (Math_abs normalizedSlope) (Fin 0.5) then Stable
  else if js_gt normalizedSlope (Fin 0) then
    (if isInverted then Worsening else Improving)
  else
    (if isInverted then Improving else Worsening).

Definition calculateTrendDirection (t : TrendAnalyzer) (seriesId : string)
  (isInverted : bool) : direction :=
  match historicalData t !! seriesId with
  | None => Stable
  | Some data =>
      if (length data <? 3)%nat then Stable
      else
        try_catch
          (let n := length data in
           s ← for_loop (regression_body data n) 0 n
                 {| sumX := Fin 0; sumY := Fin 0; sumXY := Fin 0; sumX2 := Fin 0 |};
           mret (classify (normalizedSlope_of (of_nat n) s) isInverted))
          Stable
  end.

(** [data[i].value] *)
Definition value_at (data : list Obs.t) (i : nat) : outcome num :=
  match data !! i with
  | Some o => Returned (Obs.value o)
  | None => Thrown TypeError
  end.

Definition calculateVelocity (t : TrendAnalyzer) (seriesId : string) : num :=
  match historicalData t !! seriesId with
  | None => Fin 0
  | Some data =>
      if (length data <? 2)%nat then Fin 0
      else
        try_catch
          (latest ← value_at data 0;
           oldest ← value_at data (length data - 1);
           let months := of_nat (length data - 1) in
           let totalChange := (((latest - oldest) / oldest) * Fin 100)%num in
           let velocity := (totalChange / months)%num in
           mret velocity)
          (Fin 0)
  end.

Definition directionMultipliers (d : direction) : num :=
  match d with
  | Worsening => Fin 1.3
  | Stable => Fin 1.0
  | Improving => Fin 0.7
  end.

Definition getTrendMultiplier (t : TrendAnalyzer) (seriesId : string)
  (isInverted : bool) : num :=
  let direction := calculateTrendDirection t seriesId isInverted in
  let velocity := Math_abs (calculateVelocity t seriesId) in
  let multiplier := directionMultipliers direction in
  if js_gt velocity (Fin 2.0) then
    match direction with
    | Worsening => Math_min (multiplier * Fin 1.2) (Fin 1.5)
    | Improving => Math_max (multiplier * Fin 0.8) (Fin 0.5)
    | Stable => multiplier
    end
  else multiplier.

Definition invertedIndicators : gset string :=
  {[ "UNRATE"; "BAA10Y"; "VIXCLS"; "GFDGDPA188S"; "DeficitGDP";
     "A091RC1Q027SBEA" ]}.

(** [Object.keys] of an object, also the keys a for-in loop visits. *)
Definition keys {V} (o : gmap string V) : list string :=
  (map_to_list o).*1.

Definition analyzeAllTrends (b : backend) (indicators : snapshot)
  : M TrendAnalyzer (gmap string num) :=
  o ← deref indicators;
  let seriesIds :=
    List.filter (fun id => negb (bool_decide (id = "DXY"))) (keys o) in
  _ ← for_of (fetchHistoricalData b) seriesIds;
  t ← get;
  mret (foldl (fun trendMultipliers seriesId =>
                 match historicalData t !! seriesId with
                 | Some _ =>
                     let isInverted :=
                       bool_decide (seriesId ∈ invertedIndicators) in
                     <[seriesId := getTrendMultiplier t seriesId isInverted]>
                       trendMultipliers
                 | None => trendMultipliers
                 end)
          ∅ seriesIds).

(* ===================================================================== *)
(** ** probabilityCalculator.js *)
(* ===================================================================== *)

Module Factor.
(** An entry of [updateFactors]; [baseFactor] and [trendAdjusted] are only
    set by the recession rules. *)
Record t : Type := {
  factor : num;
  baseFactor : option num;
  reason : string;
  trendAdjusted : option bool
}.
End Factor.

Record ProbabilityCalculator : Type := {
  currentProbabilities : gmap string num;
  updateFactors : gmap string (list Factor.t);
  trendAnalyzer : TrendAnalyzer;
  trendMultipliers : gmap string num;
  useTrendAnalysis : bool
}.

Definition set_currentProbabilities (v : gmap string num)
  (c : ProbabilityCalculator) : ProbabilityCalculator :=
  {| currentProbabilities := v;
     updateFactors := updateFactors c;
     trendAnalyzer := trendAnalyzer c;
     trendMultipliers := trendMultipliers c;
     useTrendAnalysis := useTrendAnalysis c |}.

Definition set_updateFactors (v : gmap string (list Factor.t))
  (c : ProbabilityCalculator) : ProbabilityCalculator :=
  {| currentProbabilities := currentProbabilities c;
     updateFactors := v;
     trendAnalyzer := trendAnalyzer c;
     trendMultipliers := trendMultipliers c;
     useTrendAnalysis := useTrendAnalysis c |}.

Definition set_trendAnalyzer (v : TrendAnalyzer)
  (c : ProbabilityCalculator) : ProbabilityCalculator :=
  {| currentProbabilities := currentProbabilities c;
     updateFactors := updateFactors c;
     trendAnalyzer := v;
     trendMultipliers := trendMultipliers c;
     useTrendAnalysis := useTrendAnalysis c |}.

Definition set_trendMultipliers (v : gmap string num)
  (c : ProbabilityCalculator) : ProbabilityCalculator :=
  {| currentProbabilities := currentProbabilities c;
     updateFactors := updateFactors c;
     trendAnalyzer := trendAnalyzer c;
     trendMultipliers := v;
     useTrendAnalysis := useTrendAnalysis c |}.

Definition setTrendAnalysis (enabled : bool)
  (c : ProbabilityCalculator) : ProbabilityCalculator :=
  {| currentProbabilities := currentProbabilities c;
     updateFactors := updateFactors c;
     trendAnalyzer := trendAnalyzer c;
     trendMultipliers := trendMultipliers c;
     useTrendAnalysis := enabled |}.

Definition no_factors : gmap string (list Factor.t) :=
  <["recession" := []]> (
  <["depression" := []]> (
  <["reserve" := []]> (
  <["default" := []]> (
  <["devaluation" := []]> ∅)))).

(** The constructor. *)
Definition ProbabilityCalculator_new : ProbabilityCalculator :=
  {| currentProbabilities := BASE_PROBABILITIES;
     updateFactors := no_factors;
     trendAnalyzer := TrendAnalyzer_new;
     trendMultipliers := ∅;
     useTrendAnalysis := true |}.

Definition resetFactors : M ProbabilityCalculator unit :=
  modify (set_updateFactors no_factors).

(** A method of the trend analyzer run on [this.trendAnalyzer]. *)
Definition on_trendAnalyzer {A} (m : M TrendAnalyzer A)
  : M ProbabilityCalculator A := fun c =>
  let (r, t') := m (trendAnalyzer c) in (r, set_trendAnalyzer t' c).

(** [this.updateFactors[event].push(f)] *)
Definition push (event : string) (f : Factor.t) : M ProbabilityCalculator unit :=
  c ← get;
  match updateFactors c !! event with
  | Some l => modify (set_updateFactors (<[event := l ++ [f]]> (updateFactors c)))
  | None => throw TypeError
  end.

Definition checkThreshold (value threshold : num) (operator : string) : bool :=
  try_catch
    (numValue ← validateNumber value;
     numThreshold ← validateNumber threshold;
     mret (if String.eqb operator ">" then js_gt numValue numThreshold
           else if String.eqb operator "<" then js_lt numValue numThreshold
           else if String.eqb operator ">=" then js_ge numValue numThreshold
           else if String.eqb operator "<=" then js_le numValue numThreshold
           else if String.eqb operator "==" then js_eq numValue numThreshold
           else false))
    false.

Definition applyTrendAdjustment (baseFactor : num) (seriesId : string)
  (c : ProbabilityCalculator) : num :=
  match trendMultipliers c !! seriesId with
  | None => baseFactor
  | Some trendMultiplier =>
      if negb (useTrendAnalysis c) || negb (truthy trendMultiplier)
      then baseFactor
      else (baseFactor * trendMultiplier)%num
  end.

(** if (cond) { body } *)
Definition when {S} (cond : bool) (body : M S unit) : M S unit :=
  if cond then body else mret tt.

(** A rule whose factor goes through [applyTrendAdjustment]. *)
Definition push_trend_adjusted (event : string) (th : Threshold.t)
  (seriesId : string) : M ProbabilityCalculator unit :=
  c ← get;
  let baseFactor := Threshold.factor th in
  let trendFactor := applyTrendAdjustment baseFactor seriesId c in
  push event
    {| Factor.factor := trendFactor;
       Factor.baseFactor := Some baseFactor;
       Factor.reason := Threshold.reason th;
       Factor.trendAdjusted := Some (negb (js_eq trendFactor baseFactor)) |}.

(** A rule that pushes its configured factor as it is. *)
Definition push_plain (event : string) (th : Threshold.t)
  : M ProbabilityCalculator unit :=
  push event
    {| Factor.factor := Threshold.factor th;
       Factor.baseFactor := None;
       Factor.reason := Threshold.reason th;
       Factor.trendAdjusted := None |}.

(** [indicators.id && checkThreshold(indicators.id.raw, th.value, op)] *)
Definition crosses (o : gmap string indicator) (id : string) (th : Threshold.t)
  (operator : string) : bool :=
  match o !! id with
  | Some i => checkThreshold (raw i) (Threshold.value th) operator
  | None => false
  end.

Definition calculateRecessionFactors (indicators : snapshot)
  : M ProbabilityCalculator unit :=
  let thresholds_deficitGDP := ECONOMIC_THRESHOLDS.recession.deficitGDP in
  let thresholds_creditSpreads := ECONOMIC_THRESHOLDS.recession.creditSpreads in
  let thresholds_yieldCurve := ECONOMIC_THRESHOLDS.recession.yieldCurve in
  o ← deref indicators;
  _ ← when (crosses o "DeficitGDP" thresholds_deficitGDP ">")
        (push_trend_adjusted "recession" thresholds_deficitGDP "DeficitGDP");
  _ ← when (crosses o "BAA10Y" thresholds_creditSpreads ">")
        (push_trend_adjusted "recession" thresholds_creditSpreads "BAA10Y");
  when (crosses o "T10Y2Y" thresholds_yieldCurve "<")
    (push_trend_adjusted "recession" thresholds_yieldCurve "T10Y2Y").

(** The two composite rules: a scalar derived from two indicators, computed
    and compared inside one try block. *)
Definition composite_rule (o : gmap string indicator) (id1 id2 : string)
  (op : num -> num -> num) (event : string) (th : Threshold.t)
  : M ProbabilityCalculator unit :=
  match o !! id1, o !! id2 with
  | Some i1, Some i2 =>
      try_
        (v1 ← lift (validateNumber (raw i1));
         v2 ← lift (validateNumber (raw i2));
         let derived := op v1 v2 in
         when (checkThreshold derived (Threshold.value th) ">")
           (push_plain event th))
        (mret tt)
  | _, _ => mret tt
  end.

Definition calculateDepressionFactors (indicators : snapshot)
  : M ProbabilityCalculator unit :=
  let thresholds_fedFunds := ECONOMIC_THRESHOLDS.depression.fedFunds in
  let thresholds_debtGDP := ECONOMIC_THRESHOLDS.depression.debtGDP in
  let thresholds_mbToM2 := ECONOMIC_THRESHOLDS.depression.mbToM2 in
  o ← deref indicators;
  _ ← when (crosses o "DFF" thresholds_fedFunds "<")
        (push_plain "depression" thresholds_fedFunds);
  _ ← when (crosses o "GFDGDPA188S" thresholds_debtGDP ">")
        (push_plain "depression" thresholds_debtGDP);
  composite_rule o "BOGMBASE" "M2SL" js_div "depression" thresholds_mbToM2.

Definition calculateReserveFactors (indicators : snapshot)
  : M ProbabilityCalculator unit :=
  let thresholds_dxy := ECONOMIC_THRESHOLDS.reserve.dxy in
  o ← deref indicators;
  when (crosses o "DXY" thresholds_dxy "<")
    (push_plain "reserve" thresholds_dxy).

Definition calculateDefaultFactors (indicators : snapshot)
  : M ProbabilityCalculator unit :=
  let thresholds_deficitGDP := ECONOMIC_THRESHOLDS.default.deficitGDP in
  let thresholds_interestPayments :=
    ECONOMIC_THRESHOLDS.default.interestPayments in
  let thresholds_rateSpread := ECONOMIC_THRESHOLDS.default.rateSpread in
  o ← deref indicators;
  _ ← when (crosses o "DeficitGDP" thresholds_deficitGDP ">")
        (push_plain "default" thresholds_deficitGDP);
  _ ← when (crosses o "A091RC1Q027SBEA" thresholds_interestPayments ">")
        (push_plain "default" thresholds_interestPayments);
  composite_rule o "DGS10" "DFF" js_sub "default" thresholds_rateSpread.

Definition calculateDevaluationFactors (indicators : snapshot)
  : M ProbabilityCalculator unit :=
  let thresholds_dxy := ECONOMIC_THRESHOLDS.devaluation.dxy in
  let thresholds_deficitGDP := ECONOMIC_THRESHOLDS.devaluation.deficitGDP in
  o ← deref indicators;
  _ ← when (crosses o "DXY" thresholds_dxy "<")
        (push_plain "devaluation" thresholds_dxy);
  when (crosses o "DeficitGDP" thresholds_deficitGDP ">")
    (push_plain "devaluation" thresholds_deficitGDP).

(** [factors.reduce((acc, f) => acc * f.factor, 1)] *)
Definition product_of_factors (factors : list Factor.t) : num :=
  foldl (fun acc f => (acc * Factor.factor f)%num) (Fin 1) factors.

(** [CORRELATION_DISCOUNT[k]] used as a condition. *)
Definition discount_set (k : nat) : bool :=
  match CORRELATION_DISCOUNT k with
  | Some d => truthy d
  | None => false
  end.

(** [combinedFactor *= CORRELATION_DISCOUNT[k]] *)
Definition times_discount (combinedFactor : num) (k : nat) : num :=
  match CORRELATION_DISCOUNT k with
  | Some d => (combinedFactor * d)%num
  | None => NaN
  end.

(** The combined factor of a non-empty list, correlation discount applied. *)
Definition combinedFactor_of (factors : list Factor.t) : num :=
  let combinedFactor := product_of_factors factors in
  if (length factors =? 2)%nat && discount_set 2 then
    times_discount combinedFactor 2
  else if (3 <=? length factors)%nat && discount_set 3 then
    times_discount combinedFactor 3
  else combinedFactor.

(** [BASE_PROBABILITIES[event]]; a key outside the table reads undefined,
    which arithmetic turns into NaN. *)
Definition baseProbability_of (event : string) : num :=
  default NaN (BASE_PROBABILITIES !! event).

(** The value one iteration of [calculateAllProbabilities] stores for
    [event]. *)
Definition probability_of (event : string) (factors : list Factor.t) : num :=
  let baseProbability := baseProbability_of event in
  if (0 <? length factors)%nat then
    clamp (baseProbability * combinedFactor_of factors) (Fin 0) (Fin 1.0)
  else baseProbability.

Definition calculateAllProbabilities : M ProbabilityCalculator unit :=
  c0 ← get;
  for_of
    (fun event =>
       c ← get;
       match updateFactors c !! event with
       | None => throw TypeError
       | Some factors =>
           modify (set_currentProbabilities
                     (<[event := probability_of event factors]>
                        (currentProbabilities c)))
       end)
    (keys (currentProbabilities c0)).

(** [updateProbabilities], the awaited call
    [this.trendAnalyzer.analyzeAllTrends(indicators)] being [analyze]. *)
Definition updateProbabilities_via
  (analyze : snapshot -> M TrendAnalyzer (gmap string num))
  (indicators : snapshot) : M ProbabilityCalculator (gmap string num) :=
  try_
    (_ ← resetFactors;
     c ← get;
     _ ← when (useTrendAnalysis c)
           (try_
              (multipliers ← on_trendAnalyzer (analyze indicators);
               modify (set_trendMultipliers multipliers))
              (modify (set_trendMultipliers ∅)));
     _ ← calculateRecessionFactors indicators;
     _ ← calculateDepressionFactors indicators;
     _ ← calculateReserveFactors indicators;
     _ ← calculateDefaultFactors indicators;
     _ ← calculateDevaluationFactors indicators;
     _ ← calculateAllProbabilities;
     c' ← get;
     mret (currentProbabilities c'))
    (_ ← modify (set_currentProbabilities BASE_PROBABILITIES);
     c' ← get;
     mret (currentProbabilities c')).

Definition updateProbabilities (b : backend) (indicators : snapshot)
  : M ProbabilityCalculator (gmap string num) :=
  updateProbabilities_via (analyzeAllTrends b) indicators.

Definition getFactors (c : ProbabilityCalculator) (event : string)
  : list Factor.t :=
  default [] (updateFactors c !! event).

(* ===================================================================== *)
(** ** The pure content of one threshold evaluation *)
(* ===================================================================== *)

(** The entry a trend-adjusted rule pushes. *)
Definition adjusted_entry (th : Threshold.t) (seriesId : string)
  (c : ProbabilityCalculator) : Factor.t :=
  let baseFactor := Threshold.factor th in
  let trendFactor := applyTrendAdjustment baseFactor seriesId c in
  {| Factor.factor := trendFactor;
     Factor.baseFactor := Some baseFactor;
     Factor.reason := Threshold.reason th;
     Factor.trendAdjusted := Some (negb (js_eq trendFactor baseFactor)) |}.

(** The entry a plain rule pushes. *)
Definition plain_entry (th : Threshold.t) : Factor.t :=
  {| Factor.factor := Threshold.factor th;
     Factor.baseFactor := None;
     Factor.reason := Threshold.reason th;
     Factor.trendAdjusted := None |}.

(** Whether a composite rule fires: both indicators present, both raw values
    valid, and the derived scalar above the threshold. *)
Definition composite_crosses (o : gmap string indicator) (id1 id2 : string)
  (op : num -> num -> num) (th : Threshold.t) : bool :=
  match o !! id1, o !! id2 with
  | Some i1, Some i2 =>
      match validateNumber (raw i1), validateNumber (raw i2) with
      | Returned v1, Returned v2 =>
          checkThreshold (op v1 v2) (Threshold.value th) ">"
      | _, _ => false
      end
  | _, _ => false
  end.

(** [if b then [f] else []] *)
Definition emit (b : bool) (f : Factor.t) : list Factor.t :=
  if b then [f] else [].

(** The factors one cycle pushes for [event], in rule declaration order, for
    the snapshot object [o] and the trend state of [c]. *)
Definition factors_for (event : string) (o : gmap string indicator)
  (c : ProbabilityCalculator) : list Factor.t :=
  if String.eqb event "recession" then
    emit (crosses o "DeficitGDP" ECONOMIC_THRESHOLDS.recession.deficitGDP ">")
      (adjusted_entry ECONOMIC_THRESHOLDS.recession.deficitGDP "DeficitGDP" c)
    ++ emit (crosses o "BAA10Y" ECONOMIC_THRESHOLDS.recession.creditSpreads ">")
      (adjusted_entry ECONOMIC_THRESHOLDS.recession.creditSpreads "BAA10Y" c)
    ++ emit (crosses o "T10Y2Y" ECONOMIC_THRESHOLDS.recession.yieldCurve "<")
      (adjusted_entry ECONOMIC_THRESHOLDS.recession.yieldCurve "T10Y2Y" c)
  else if String.eqb event "depression" then
    emit (crosses o "DFF" ECONOMIC_THRESHOLDS.depression.fedFunds "<")
      (plain_entry ECONOMIC_THRESHOLDS.depression.fedFunds)
    ++ emit (crosses o "GFDGDPA188S" ECONOMIC_THRESHOLDS.depression.debtGDP ">")
      (plain_entry ECONOMIC_THRESHOLDS.depression.debtGDP)
    ++ emit (composite_crosses o "BOGMBASE" "M2SL" js_div
               ECONOMIC_THRESHOLDS.depression.mbToM2)
      (plain_entry ECONOMIC_THRESHOLDS.depression.mbToM2)
  else if String.eqb event "reserve" then
    emit (crosses o "DXY" ECONOMIC_THRESHOLDS.reserve.dxy "<")
      (plain_entry ECONOMIC_THRESHOLDS.reserve.dxy)
  else if String.eqb event "default" then
    emit (crosses o "DeficitGDP" ECONOMIC_THRESHOLDS.default.deficitGDP ">")
      (plain_entry ECONOMIC_THRESHOLDS.default.deficitGDP)
    ++ emit (crosses o "A091RC1Q027SBEA"
               ECONOMIC_THRESHOLDS.default.interestPayments ">")
      (plain_entry ECONOMIC_THRESHOLDS.default.interestPayments)
    ++ emit (composite_crosses o "DGS10" "DFF" js_sub
               ECONOMIC_THRESHOLDS.default.rateSpread)
      (plain_entry ECONOMIC_THRESHOLDS.default.rateSpread)
  else if String.eqb event "devaluation" then
    emit (crosses o "DXY" ECONOMIC_THRESHOLDS.devaluation.dxy "<")
      (plain_entry ECONOMIC_THRESHOLDS.devaluation.dxy)
    ++ emit (crosses o "DeficitGDP" ECONOMIC_THRESHOLDS.devaluation.deficitGDP ">")
      (plain_entry ECONOMIC_THRESHOLDS.devaluation.deficitGDP)
  else [].

(** [updateFactors] at the end of the threshold evaluation of a cycle. *)
Definition factors_map (o : gmap string indicator) (c : ProbabilityCalculator)
  : gmap string (list Factor.t) :=
  <["devaluation" := factors_for "devaluation" o c]> (
  <["default" := factors_for "default" o c]> (
  <["reserve" := factors_for "reserve" o c]> (
  <["depression" := factors_for "depression" o c]> (
  <["recession" := factors_for "recession" o c]> no_factors)))).

(** The state invariant of a calculator: [currentProbabilities] has exactly
    the five events as keys. *)
Definition wf (c : ProbabilityCalculator) : Prop :=
  dom (currentProbabilities c) = dom BASE_PROBABILITIES.

(** The calculator after the reset and the trend step of a cycle. *)
Definition after_trends
  (analyze : snapshot -> M TrendAnalyzer (gmap string num))
  (indicators : snapshot) (c : ProbabilityCalculator) : ProbabilityCalculator :=
  let c0 := set_updateFactors no_factors c in
  if useTrendAnalysis c then
    match analyze indicators (trendAnalyzer c) with
    | (Returned multipliers, t') =>
        set_trendMultipliers multipliers (set_trendAnalyzer t' c0)
    | (Thrown _, t') =>
        set_trendMultipliers ∅ (set_trendAnalyzer t' c0)
    end
  else c0.

(* ===================================================================== *)
(** ** The specification's formulas *)
(* ===================================================================== *)

Module Spec.

(** Sum and product of a list of numbers; the empty product is 1. *)
Definition sum (l : list num) : num := foldr js_add (Fin 0) l.
Definition product (l : list num) : num := foldr js_mul (Fin 1) l.

(** The series reindexed oldest to newest. *)
Definition oldest_to_newest (series : list Obs.t) : list num :=
  reverse (Obs.value <$> series).

(** The abscissas x = 0 .. n-1. *)
Definition xs (n : nat) : list num := of_nat <$> seq 0 n.

(** Slope of the ordinary least-squares line through (i, y_i). *)
Definition ols_slope (ys : list num) : num :=
  let n := of_nat (length ys) in
  let x := xs (length ys) in
  ((n * sum (zip_with js_mul x ys) - sum x * sum ys)
   / (n * sum (zip_with js_mul x x) - sum x * sum x))%num.

Definition mean (ys : list num) : num :=
  (sum ys / of_nat (length ys))%num.

(** normalizedSlope = (slope / meanValue) * 100 *)
Definition normalized_slope (ys : list num) : num :=
  ((ols_slope ys / mean ys) * Fin 100)%num.

(** Velocity from the two endpoints of a window of n points. *)
Definition velocity (newest oldest : num) (n : nat) : num :=
  ((((newest - oldest) / oldest) * Fin 100) / of_nat (n - 1))%num.

(** Multiplier: the base mapping of the direction, amplified under high
    velocity. *)
Definition trend_multiplier (direction : Z) (velocity : num) : num :=
  let base :=
    if (direction =? -1)%Z then Fin 1.3
    else if (direction =? 0)%Z then Fin 1.0
    else Fin 0.7 in
  if js_gt (Math_abs velocity) (Fin 2.0) then
    if (direction =? -1)%Z then Math_min (base * Fin 1.2) (Fin 1.5)
    else if (direction =? 1)%Z then Math_max (base * Fin 0.8) (Fin 0.5)
    else base
  else base.

(** combined = product of the effective factors, times the correlation
    discount. *)
Definition combined (effectiveFactors : list num) : num :=
  let n := length effectiveFactors in
  let c := product effectiveFactors in
  if (n =? 2)%nat then (c * Fin 0.7)%num
  else if (3 <=? n)%nat then (c * Fin 0.5)%num
  else c.

(** probability = clamp(basePrior * combined, 0, 1) *)
Definition probability (basePrior : num) (effectiveFactors : list num) : num :=
  clamp (basePrior * combined effectiveFactors) (Fin 0) (Fin 1).

(** trendMultiplier = trendMultipliers[indicatorId] ?? 1.0 *)
Definition trendMultiplier (trendMultipliers : gmap string num)
  (indicatorId : string) : num :=
  default (Fin 1.0) (trendMultipliers !! indicatorId).

End Spec.

(** A number in the closed interval [lo, hi]. *)
Definition within (lo hi : Q) (x : num) : Prop :=
  exists q : Q, x = Fin q /\ (lo <= q <= hi)%Q.

(** A finite number above zero. *)
Definition positive (x : num) : Prop :=
  exists q : Q, x = Fin q /\ (0 < q)%Q.

(** A value [validateNumber] rejects. *)
Definition invalid (x : num) : Prop := isFinite x = false.

(** The rule table, read off the five calculate*Factors methods: the event a
    rule belongs to, its threshold entry, and the indicators it reads. *)
Record rule : Type := {
  rule_event : string;
  rule_threshold : Threshold.t;
  rule_inputs : list string
}.

Definition rules : list rule :=
  [ {| rule_event := "recession";
       rule_threshold := ECONOMIC_THRESHOLDS.recession.deficitGDP;
       rule_inputs := ["DeficitGDP"] |};
    {| rule_event := "recession";
       rule_threshold := ECONOMIC_THRESHOLDS.recession.creditSpreads;
       rule_inputs := ["BAA10Y"] |};
    {| rule_event := "recession";
       rule_threshold := ECONOMIC_THRESHOLDS.recession.yieldCurve;
       rule_inputs := ["T10Y2Y"] |};
    {| rule_event := "depression";
       rule_threshold := ECONOMIC_THRESHOLDS.depression.fedFunds;
       rule_inputs := ["DFF"] |};
    {| rule_event := "depression";
       rule_threshold := ECONOMIC_THRESHOLDS.depression.debtGDP;
       rule_inputs := ["GFDGDPA188S"] |};
    {| rule_event := "depression";
       rule_threshold := ECONOMIC_THRESHOLDS.depression.mbToM2;
       rule_inputs := ["BOGMBASE"; "M2SL"] |};
    {| rule_event := "reserve";
       rule_threshold := ECONOMIC_THRESHOLDS.reserve.dxy;
       rule_inputs := ["DXY"] |};
    {| rule_event := "default";
       rule_threshold := ECONOMIC_THRESHOLDS.default.deficitGDP;
       rule_inputs := ["DeficitGDP"] |};
    {| rule_event := "default";
       rule_threshold := ECONOMIC_THRESHOLDS.default.interestPayments;
       rule_inputs := ["A091RC1Q027SBEA"] |};
    {| rule_event := "default";
       rule_threshold := ECONOMIC_THRESHOLDS.default.rateSpread;
       rule_inputs := ["DGS10"; "DFF"] |};
    {| rule_event := "devaluation";
       rule_threshold := ECONOMIC_THRESHOLDS.devaluation.dxy;
       rule_inputs := ["DXY"] |};
    {| rule_event := "devaluation";
       rule_threshold := ECONOMIC_THRESHOLDS.devaluation.deficitGDP;
       rule_inputs := ["DeficitGDP"] |} ].

(** The indicator is absent from the snapshot object, or its raw value is
    one [validateNumber] rejects. *)
Definition unusable (o : gmap string indicator) (id : string) : Prop :=
  match o !! id with
  | None => True
  | Some i => invalid (raw i)
  end.

(* ===================================================================== *)
(** ** probabilityCalculator.js: classification *)
(* ===================================================================== *)

Module RiskThresholds.
Record t : Type := { critical : num; high : num; moderate : num }.
End RiskThresholds.

(** config.js *)
Definition RISK_THRESHOLDS : gmap string RiskThresholds.t :=
  <["recession" := {| RiskThresholds.critical := Fin 0.60;
                      RiskThresholds.high := Fin 0.42;
                      RiskThresholds.moderate := Fin 0.24 |}]> (
  <["depression" := {| RiskThresholds.critical := Fin 0.20;
                       RiskThresholds.high := Fin 0.14;
                       RiskThresholds.moderate := Fin 0.08 |}]> (
  <["reserve" := {| RiskThresholds.critical := Fin 0.30;
                    RiskThresholds.high := Fin 0.21;
                    RiskThresholds.moderate := Fin 0.12 |}]> (
  <["default" := {| RiskThresholds.critical := Fin 0.10;
                    RiskThresholds.high := Fin 0.07;
                    RiskThresholds.moderate := Fin 0.04 |}]> (
  <["devaluation" := {| RiskThresholds.critical := Fin 0.50;
                        RiskThresholds.high := Fin 0.35;
                        RiskThresholds.moderate := Fin 0.20 |}]> ∅)))).

(** [probabilities[event]] read for a comparison: a missing key reads
    undefined, which compares like NaN. *)
Definition probability_at (probabilities : gmap string num) (event : string)
  : num :=
  default NaN (probabilities !! event).

Definition getRiskLevel (c : ProbabilityCalculator) (event : string) : string :=
  let probability := probability_at (currentProbabilities c) event in
  match RISK_THRESHOLDS !! event with
  | None => "unknown"
  | Some thresholds =>
      if js_ge probability (RiskThresholds.critical thresholds) then "critical"
      else if js_ge probability (RiskThresholds.high thresholds) then "high"
      else if js_ge probability (RiskThresholds.moderate thresholds) then "moderate"
      else "low"
  end.

Definition getAllRiskLevels (c : ProbabilityCalculator) : gmap string string :=
  foldl (fun levels event => <[event := getRiskLevel c event]> levels)
    ∅ (keys (currentProbabilities c)).

(** [Object.entries(...).filter(...).map(([event]) => event)]; the order of
    the entries is that of the map's enumeration. *)
Definition getCriticalEvents (c : ProbabilityCalculator) : list string :=
  (List.filter
     (fun entry : string * num =>
        match RISK_THRESHOLDS !! entry.1 with
        | Some thresholds =>
            js_ge entry.2 (RiskThresholds.critical thresholds)
        | None => false
        end)
     (map_to_list (currentProbabilities c))).*1.

Definition getProbabilities (c : ProbabilityCalculator) : gmap string num :=
  currentProbabilities c.

Definition getTrendMultipliers (c : ProbabilityCalculator) : gmap string num :=
  trendMultipliers c.

(* ===================================================================== *)
(** ** uiManager.js: the alert decision *)
(* ===================================================================== *)

Module UIManager.

(** The thresholds table of [getRiskLevel] and [getCriticalEvents]. *)
Definition thresholds : gmap string num :=
  <["recession" := Fin 0.60]> (
  <["depression" := Fin 0.20]> (
  <["reserve" := Fin 0.30]> (
  <["default" := Fin 0.10]> (
  <["devaluation" := Fin 0.50]> ∅)))).

(** [thresholds[event] || 0.5] *)
Definition threshold_or_default (event : string) : num :=
  match thresholds !! event with
  | Some t => if truthy t then t else Fin 0.5
  | None => Fin 0.5
  end.

Definition getCriticalEvents (probabilities : gmap string num) : list string :=
  (List.filter
     (fun entry : string * num => js_ge entry.2 (threshold_or_default entry.1))
     (map_to_list probabilities)).*1.

(** [Math.max(...values)] *)
Definition Math_max_of (values : list num) : num :=
  foldl Math_max NInf values.

Definition hasMultipleElevatedRisks (probabilities : gmap string num)
  (multiplier : num) : bool :=
  let maxCurrent := Math_max_of (map_to_list probabilities).*2 in
  let maxBase := Math_max_of (map_to_list BASE_PROBABILITIES).*2 in
  js_gt maxCurrent (maxBase * multiplier).

(** The class [updateAlertBanner] gives the banner, [None] when it hides
    it. *)
Definition alert_class (probabilities : gmap string num) : option string :=
  let criticalEvents := getCriticalEvents probabilities in
  if (0 <? length criticalEvents)%nat then Some "alert-banner alert-red"
  else if hasMultipleElevatedRisks probabilities (Fin 3) then
    Some "alert-banner alert-orange"
  else if hasMultipleElevatedRisks probabilities (Fin 2) then
    Some "alert-banner alert-yellow"
  else None.

End UIManager.

(* ===================================================================== *)
(** ** trendAnalyzer.js: acceleration *)
(* ===================================================================== *)

Definition _calculateSubsetVelocity (data : list Obs.t) : outcome num :=
  if (length data <? 2)%nat then Returned (Fin 0)
  else
    latest ← value_at data 0;
    oldest ← value_at data (length data - 1);
    let months := of_nat (length data - 1) in
    mret (((latest - oldest) / oldest * Fin 100) / months)%num.

Definition calculateAcceleration (t : TrendAnalyzer) (seriesId : string) : num :=
  match historicalData t !! seriesId with
  | None => Fin 0
  | Some data =>
      if (length data <? 6)%nat then Fin 0
      else
        try_catch
          (let midpoint := (length data / 2)%nat in
           let recentData := take midpoint data in
           let olderData := drop midpoint data in
           recentVelocity ← _calculateSubsetVelocity recentData;
           olderVelocity ← _calculateSubsetVelocity olderData;
           let acceleration := (recentVelocity - olderVelocity)%num in
           mret acceleration)
          (Fin 0)
  end.

Definition clearCache (t : TrendAnalyzer) : TrendAnalyzer :=
  {| historicalData := ∅ |}.

(* ===================================================================== *)
(** ** utils.js: percentage change *)
(* ===================================================================== *)

Definition calculatePercentageChange (current previous : num) : num :=
  if negb (truthy previous) || js_eq previous (Fin 0) then Fin 0
  else (((current - previous) / previous) * Fin 100)%num.

(* ===================================================================== *)
(** ** dataService.js: the derived dollar index *)
(* ===================================================================== *)

(** [calculateDXY] on the raw values of [this.indicators]. *)
Definition calculateDXY (indicators : gmap string indicator)
  : gmap string indicator :=
  match indicators !! "DEXUSEU" with
  | None => indicators
  | Some i =>
      match validateNumber (raw i) with
      | Returned eurUsd =>
          let dxyApprox := (Fin 120 - (eurUsd * Fin 20))%num in
          <["DXY" := {| raw := dxyApprox |}]> indicators
      | Thrown _ => indicators
      end
  end.

(* ===================================================================== *)
(** ** fred-proxy-server.js: cache and retry *)
(* ===================================================================== *)

Module Proxy.

Definition CACHE_DURATION_MS : Z := 30 * 60 * 1000.

Section Cache.
Context {V : Type}.

(** An entry of [cache.data]; [timestamp] is the [Date.now()] of its
    [set]. *)
Record entry : Type := { value : V; timestamp : Z }.

(** [cache.set(key, value)] at time [now]. *)
Definition set (now : Z) (key : string) (v : V) (data : gmap string entry)
  : gmap string entry :=
  <[key := {| value := v; timestamp := now |}]> data.

(** [cache.get(key)] at time [now]: what it returns ([None] is null) and
    the data it leaves. *)
Definition get (now : Z) (key : string) (data : gmap string entry)
  : option V * gmap string entry :=
  match data !! key with
  | None => (None, data)
  | Some cached =>
      let age := (now - timestamp cached)%Z in
      if (CACHE_DURATION_MS <? age)%Z then (None, delete key data)
      else (Some (value cached), data)
  end.

Definition clear (data : gmap string entry) : gmap string entry := ∅.

Record stats : Type := { total : nat; fresh : nat; stale : nat }.

Definition getStats (now : Z) (data : gmap string entry) : stats :=
  let keys := (map_to_list data).*1 in
  let fresh :=
    List.filter
      (fun k =>
         match data !! k with
         | Some c => (now - timestamp c <? CACHE_DURATION_MS)%Z
         | None => false
         end) keys in
  {| total := length keys;
     fresh := length fresh;
     stale := length keys - length fresh |}.

End Cache.

Arguments entry V : clear implicits.

Section Retry.
Context {R E : Type}.

(** The loop of [fetchWithRetry] from [attempt] on, [fuel] iterations being
    left; [axios k] is what the k-th request does.  It yields what the call
    returns or throws ([None]: the loop ended and the function returned
    undefined) and the delays slept, in order. *)
Fixpoint retry_loop (axios : nat -> R + E) (retries attempt fuel : nat)
  : option (R + E) * list Z :=
  match fuel with
  | O => (None, [])
  | S fuel' =>
      match axios attempt with
      | inl response => (Some (inl response), [])
      | inr error =>
          let isLastAttempt := (attempt =? retries)%nat in
          if isLastAttempt then (Some (inr error), [])
          else
            let delay := (2 ^ Z.of_nat (attempt - 1) * 1000)%Z in
            let (r, delays) := retry_loop axios retries (S attempt) fuel' in
            (r, delay :: delays)
      end
  end.

Definition fetchWithRetry (axios : nat -> R + E) (retries : nat)
  : option (R + E) * list Z :=
  retry_loop axios retries 1 retries.

End Retry.

End Proxy.

(** The observations [fetchHistoricalData] keeps from an answer. *)
Definition kept (observations : list Obs.t) : list Obs.t :=
  List.filter (fun obs => negb (isNaN (Obs.value obs))) observations.

(** No history held by the analyzer contains a NaN value. *)
Definition histories_numeric (t : TrendAnalyzer) : Prop :=
  forall (seriesId : string) (data : list Obs.t),
    historicalData t !! seriesId = Some data ->
    Forall (fun obs => isNaN (Obs.value obs) = false) data.

(* ===================================================================== *)
(** ** The calculator without trend analysis *)
(* ===================================================================== *)

(** The earlier [ProbabilityCalculator], kept beside dataService.js: the
    same rules and aggregation, no analyzer, and recession factors pushed
    as configured.  It shares config.js, [checkThreshold] and the
    arithmetic of the aggregation with the current class. *)
Module Legacy.

Record ProbabilityCalculator : Type := {
  currentProbabilities : gmap string num;
  updateFactors : gmap string (list Factor.t)
}.

Definition set_currentProbabilities (v : gmap string num)
  (c : ProbabilityCalculator) : ProbabilityCalculator :=
  {| currentProbabilities := v; updateFactors := updateFactors c |}.

Definition set_updateFactors (v : gmap string (list Factor.t))
  (c : ProbabilityCalculator) : ProbabilityCalculator :=
  {| currentProbabilities := currentProbabilities c; updateFactors := v |}.

(** The constructor. *)
Definition ProbabilityCalculator_new : ProbabilityCalculator :=
  {| currentProbabilities := BASE_PROBABILITIES; updateFactors := no_factors |}.

Definition resetFactors : M ProbabilityCalculator unit :=
  modify (set_updateFactors no_factors).

(** [this.updateFactors[event].push({factor, reason})] *)
Definition push (event : string) (th : Threshold.t)
  : M ProbabilityCalculator unit :=
  c ← get;
  match updateFactors c !! event with
  | Some l =>
      modify (set_updateFactors
                (<[event := l ++ [{| Factor.factor := Threshold.factor th;
                                     Factor.baseFactor := None;
                                     Factor.reason := Threshold.reason th;
                                     Factor.trendAdjusted := None |}]]>
                   (updateFactors c)))
  | None => throw TypeError
  end.

Definition composite_rule (o : gmap string indicator) (id1 id2 : string)
  (op : num -> num -> num) (event : string) (th : Threshold.t)
  : M ProbabilityCalculator unit :=
  match o !! id1, o !! id2 with
  | Some i1, Some i2 =>
      try_
        (v1 ← lift (validateNumber (raw i1));
         v2 ← lift (validateNumber (raw i2));
         let derived := op v1 v2 in
         when (checkThreshold derived (Threshold.value th) ">")
           (push event th))
        (mret tt)
  | _, _ => mret tt
  end.

Definition calculateRecessionFactors (indicators : snapshot)
  : M ProbabilityCalculator unit :=
  let thresholds_deficitGDP := ECONOMIC_THRESHOLDS.recession.deficitGDP in
  let thresholds_creditSpreads := ECONOMIC_THRESHOLDS.recession.creditSpreads in
  let thresholds_yieldCurve := ECONOMIC_THRESHOLDS.recession.yieldCurve in
  o ← deref indicators;
  _ ← when (crosses o "DeficitGDP" thresholds_deficitGDP ">")
        (push "recession" thresholds_deficitGDP);
  _ ← when (crosses o "BAA10Y" thresholds_creditSpreads ">")
        (push "recession" thresholds_creditSpreads);
  when (crosses o "T10Y2Y" thresholds_yieldCurve "<")
    (push "recession" thresholds_yieldCurve).

Definition calculateDepressionFactors (indicators : snapshot)
  : M ProbabilityCalculator unit :=
  let thresholds_fedFunds := ECONOMIC_THRESHOLDS.depression.fedFunds in
  let thresholds_debtGDP := ECONOMIC_THRESHOLDS.depression.debtGDP in
  let thresholds_mbToM2 := ECONOMIC_THRESHOLDS.depression.mbToM2 in
  o ← deref indicators;
  _ ← when (crosses o "DFF" thresholds_fedFunds "<")
        (push "depression" thresholds_fedFunds);
  _ ← when (crosses o "GFDGDPA188S" thresholds_debtGDP ">")
        (push "depression" thresholds_debtGDP);
  composite_rule o "BOGMBASE" "M2SL" js_div "depression" thresholds_mbToM2.

Definition calculateReserveFactors (indicators : snapshot)
  : M ProbabilityCalculator unit :=
  let thresholds_dxy := ECONOMIC_THRESHOLDS.reserve.dxy in
  o ← deref indicators;
  when (crosses o "DXY" thresholds_dxy "<")
    (push "reserve" thresholds_dxy).

Definition calculateDefaultFactors (indicators : snapshot)
  : M ProbabilityCalculator unit :=
  let thresholds_deficitGDP := ECONOMIC_THRESHOLDS.default.deficitGDP in
  let thresholds_interestPayments :=
    ECONOMIC_THRESHOLDS.default.interestPayments in
  let thresholds_rateSpread := ECONOMIC_THRESHOLDS.default.rateSpread in
  o ← deref indicators;
  _ ← when (crosses o "DeficitGDP" thresholds_deficitGDP ">")
        (push "default" thresholds_deficitGDP);
  _ ← when (crosses o "A091RC1Q027SBEA" thresholds_interestPayments ">")
        (push "default" thresholds_interestPayments);
  composite_rule o "DGS10" "DFF" js_sub "default" thresholds_rateSpread.

Definition calculateDevaluationFactors (indicators : snapshot)
  : M ProbabilityCalculator unit :=
  let thresholds_dxy := ECONOMIC_THRESHOLDS.devaluation.dxy in
  let thresholds_deficitGDP := ECONOMIC_THRESHOLDS.devaluation.deficitGDP in
  o ← deref indicators;
  _ ← when (crosses o "DXY" thresholds_dxy "<")
        (push "devaluation" thresholds_dxy);
  when (crosses o "DeficitGDP" thresholds_deficitGDP ">")
    (push "devaluation" thresholds_deficitGDP).

Definition calculateAllProbabilities : M ProbabilityCalculator unit :=
  c0 ← get;
  for_of
    (fun event =>
       c ← get;
       match updateFactors c !! event with
       | None => throw TypeError
       | Some factors =>
           modify (set_currentProbabilities
                     (<[event := probability_of event factors]>
                        (currentProbabilities c)))
       end)
    (keys (currentProbabilities c0)).

Definition updateProbabilities (indicators : snapshot)
  : M ProbabilityCalculator (gmap string num) :=
  try_
    (_ ← resetFactors;
     _ ← calculateRecessionFactors indicators;
     _ ← calculateDepressionFactors indicators;
     _ ← calculateReserveFactors indicators;
     _ ← calculateDefaultFactors indicators;
     _ ← calculateDevaluationFactors indicators;
     _ ← calculateAllProbabilities;
     c' ← get;
     mret (currentProbabilities c'))
    (_ ← modify (set_currentProbabilities BASE_PROBABILITIES);
     c' ← get;
     mret (currentProbabilities c')).

End Legacy.

(** Two factors that weigh the same in the aggregation. *)
Definition same_weight (f g : Factor.t) : Prop :=
  Factor.factor f = Factor.factor g /\ Factor.reason f = Factor.reason g.

(** The state of the earlier calculator read off a state of the current
    one whose trend analysis is switched off. *)
Definition legacy_view (l : Legacy.ProbabilityCalculator)
  (c : ProbabilityCalculator) : Prop :=
  Legacy.currentProbabilities l = currentProbabilities c /\
  (forall event,
     option_Forall2 (Forall2 same_weight)
       (Legacy.updateFactors l !! event) (updateFactors c !! event)) /\
  useTrendAnalysis c = false.

(** Two method bodies that, run from matching states, end alike in matching
    states. *)
Definition legacy_sim {A} (m : M Legacy.ProbabilityCalculator A)
  (m' : M ProbabilityCalculator A) : Prop :=
  forall l c, legacy_view l c ->
    (m l).1 = (m' c).1 /\ legacy_view (m l).2 (m' c).2.

(* ===================================================================== *)
(** ** Sample inputs *)
(* ===================================================================== *)

Module Samples.

(** A history, newest first, from its values. *)
Definition series (values : list Q) : list Obs.t :=
  (fun q => {| Obs.date := ""; Obs.value := Fin q |}) <$> values.

(** An analyzer holding one history. *)
Definition analyzer_with (seriesId : string) (values : list Q) : TrendAnalyzer :=
  {| historicalData := {[ seriesId := series values ]} |}.

(** A backend with no history for any series. *)
Definition no_backend : backend := fun _ => None.

(** A backend with a history for one series. *)
Definition backend_with (seriesId : string) (values : list Q) : backend :=
  fun id => if bool_decide (id = seriesId) then Some (series values) else None.

(** A snapshot from (identifier, raw value) pairs. *)
Definition snapshot_of (l : list (string * Q)) : gmap string indicator :=
  list_to_map ((fun p => (p.1, {| raw := Fin p.2 |})) <$> l).

(** 101, 102, 103 from oldest to newest. *)
Definition rising : list Q := [103; 102; 101]%Q.

(** 199, 200, 201 from oldest to newest: a normalized slope of 0.5. *)
Definition boundary : list Q := [201; 200; 199]%Q.

(** Deficit and credit spreads over their recession thresholds. *)
Definition two_triggers : gmap string indicator :=
  snapshot_of [("DeficitGDP", 6); ("BAA10Y", 5); ("T10Y2Y", 0.5)]%Q.

(** The same, the yield curve inverted as well. *)
Definition three_triggers : gmap string indicator :=
  snapshot_of [("DeficitGDP", 6); ("BAA10Y", 5); ("T10Y2Y", -0.3)]%Q.

(** A yield-curve history that the analyzer rates improving at high
    velocity. *)
Definition yield_curve_backend : backend :=
  backend_with "T10Y2Y" [-0.3; -0.2; -0.1]%Q.

(** The Fed Funds rate under its depression threshold, with a falling
    history. *)
Definition low_fed_funds : gmap string indicator :=
  snapshot_of [("DFF", 0.25)]%Q.

Definition fed_funds_backend : backend :=
  backend_with "DFF" [0.25; 0.26; 0.27]%Q.

(** The calculator after a first cycle on each of these. *)
Definition after_two_triggers : ProbabilityCalculator :=
  (updateProbabilities yield_curve_backend (Some two_triggers)
     ProbabilityCalculator_new).2.

Definition after_three_triggers : ProbabilityCalculator :=
  (updateProbabilities yield_curve_backend (Some three_triggers)
     ProbabilityCalculator_new).2.

Definition after_low_fed_funds : ProbabilityCalculator :=
  (updateProbabilities fed_funds_backend (Some low_fed_funds)
     ProbabilityCalculator_new).2.

(** The entry the inverted yield curve adds under that history. *)
Definition yield_curve_entry : Factor.t :=
  {| Factor.factor := Fin 1.7 * Fin 0.56;
     Factor.baseFactor := Some (Fin 1.7);
     Factor.reason := "Yield curve inverted";
     Factor.trendAdjusted := Some true |}.

(** The rule of the default event on the spread of the 10-year yield over
    the Fed Funds rate. *)
Definition rate_spread_rule : rule :=
  {| rule_event := "default";
     rule_threshold := ECONOMIC_THRESHOLDS.default.rateSpread;
     rule_inputs := ["DGS10"; "DFF"] |}.

(** An analyzer that fails wholesale. *)
Definition failing_analyzer : snapshot -> M TrendAnalyzer (gmap string num) :=
  fun _ => throw TypeError.

(** An analyzer that returns no multiplier. *)
Definition silent_analyzer : snapshot -> M TrendAnalyzer (gmap string num) :=
  fun _ => mret ∅.

End Samples.
(* ===================================================================== *)
(** ** Numbers *)
(* ===================================================================== *)

Ltac qcases :=
  repeat match goal with
  | |- context [Qeq_bool ?a ?b] =>
      let E := fresh "E" in
      destruct (Qeq_bool a b) eqn:E;
      [apply Qeq_bool_iff in E | apply Qeq_bool_neq in E]
  | |- context [Qle_bool ?a ?b] =>
      let E := fresh "E" in
      destruct (Qle_bool a b) eqn:E;
      [apply Qle_bool_iff in E
      | assert (~ (a <= b)%Q) by (rewrite <- Qle_bool_iff, E; discriminate); clear E]
  | |- context [(?a ?= ?b)%Q] =>
      destruct (Qcompare_spec a b)
  end.

Ltac num_crush :=
  simpl; try exact I; try tauto;
  repeat (qcases; simpl); try exact I; try tauto; try reflexivity;
  try lra; try nra; try (exfalso; lra); try (exfalso; nra).

#[global] Instance num_eq_equiv : Equivalence num_eq.
Proof.
  split.
  - intros []; simpl; auto. reflexivity.
  - intros [] []; simpl; auto. intros; symmetry; auto.
  - intros [] [] []; simpl; auto; try tauto. intros; etransitivity; eauto.
Qed.

Lemma num_eq_refl' (x y : num) : x = y -> x =n= y.
Proof. intros ->. reflexivity. Qed.

#[global] Instance js_mul_proper : Proper (num_eq ==> num_eq ==> num_eq) js_mul.
Proof.
  intros x x' Hx y y' Hy.
  destruct x, x', y, y'; simpl in *; try tauto;
    try (rewrite Hx); try (rewrite Hy); reflexivity.
Qed.

#[global] Instance js_lt_proper : Proper (num_eq ==> num_eq ==> eq) js_lt.
Proof.
  intros x x' Hx y y' Hy.
  destruct x, x', y, y'; simpl in *; try tauto.
  rewrite Hx, Hy. reflexivity.
Qed.

#[global] Instance Math_max_proper : Proper (num_eq ==> num_eq ==> num_eq) Math_max.
Proof.
  intros x x' Hx y y' Hy. unfold Math_max.
  rewrite (js_lt_proper x x' Hx y y' Hy).
  destruct x, x', y, y'; simpl in Hx, Hy; try tauto; try reflexivity;
    destruct (js_lt _ _); simpl; auto.
Qed.

#[global] Instance Math_min_proper : Proper (num_eq ==> num_eq ==> num_eq) Math_min.
Proof.
  intros x x' Hx y y' Hy. unfold Math_min.
  rewrite (js_lt_proper y y' Hy x x' Hx).
  destruct x, x', y, y'; simpl in Hx, Hy; try tauto; try reflexivity;
    destruct (js_lt _ _); simpl; auto.
Qed.

#[global] Instance clamp_proper : Proper (num_eq ==> num_eq ==> num_eq ==> num_eq) clamp.
Proof. intros x x' Hx lo lo' Hlo hi hi' Hhi. unfold clamp. by rewrite Hx, Hlo, Hhi. Qed.

Lemma js_mul_assoc (x y z : num) : ((x * y) * z)%num =n= (x * (y * z))%num.
Proof. destruct x, y, z; num_crush. Qed.

Lemma js_mul_1_l (x : num) : (Fin 1 * x)%num =n= x.
Proof. destruct x; num_crush. Qed.

Lemma js_mul_1_r (x : num) : (x * Fin 1)%num =n= x.
Proof. destruct x; num_crush. Qed.

Lemma foldl_js_mul (l : list num) (a : num) :
  foldl js_mul a l =n= (a * Spec.product l)%num.
Proof.
  revert a. induction l as [|x l IH]; intros a; simpl.
  - by rewrite js_mul_1_r.
  - rewrite IH. apply js_mul_assoc.
Qed.

(** The reduce of [calculateAllProbabilities] is the product of the
    effective factors. *)
Lemma product_of_factors_spec (factors : list Factor.t) :
  product_of_factors factors =n= Spec.product (Factor.factor <$> factors).
Proof.
  unfold product_of_factors.
  transitivity (foldl js_mul (Fin 1) (Factor.factor <$> factors)).
  - apply num_eq_refl'. generalize (Fin 1).
    induction factors as [|f l IH]; intros a; simpl; [done|]. apply IH.
  - rewrite foldl_js_mul. apply js_mul_1_l.
Qed.

Lemma truthy_mul (x y : num) :
  truthy x = true -> truthy y = true -> truthy (x * y) = true.
Proof.
  destruct x, y; simpl; try discriminate; try reflexivity;
    rewrite ?negb_true_iff; intros Hx Hy;
    try apply Qeq_bool_neq in Hx; try apply Qeq_bool_neq in Hy.
  all: qcases; simpl; try reflexivity; exfalso; nra.
Qed.

Lemma positive_truthy (x : num) : positive x -> truthy x = true.
Proof.
  intros (q & -> & Hq). simpl. apply negb_true_iff.
  destruct (Qeq_bool q 0) eqn:E; [|done]. apply Qeq_bool_iff in E. lra.
Qed.

Lemma positive_mul (x y : num) : positive x -> positive y -> positive (x * y).
Proof.
  intros (a & -> & Ha) (b & -> & Hb). exists (a * b)%Q. split; [done|]. nra.
Qed.

(** Clamping anything but NaN to [0, 1] lands in [0, 1]. *)
Lemma clamp_within (x : num) :
  isNaN x = false -> within 0 1 (clamp x (Fin 0) (Fin 1.0)).
Proof.
  unfold within, clamp. destruct x; simpl; try discriminate; intros _.
  all: qcases; simpl; qcases; simpl; eexists; (split; [reflexivity|lra]).
Qed.

Lemma truthy_not_NaN (x : num) : truthy x = true -> isNaN x = false.
Proof. by destruct x. Qed.

(* ===================================================================== *)
(** ** Method bodies *)
(* ===================================================================== *)

Ltac run := cbv beta iota zeta delta
  [mbind M_bind mret M_ret get modify throw try_ lift deref on_trendAnalyzer].

Lemma set_updateFactors_id event l c :
  updateFactors c !! event = Some l ->
  set_updateFactors (<[event := l]> (updateFactors c)) c = c.
Proof. intros H. rewrite insert_id by done. by destruct c. Qed.

Lemma push_ok event f l c :
  updateFactors c !! event = Some l ->
  push event f c = (Returned tt, set_updateFactors (<[event := l ++ [f]]> (updateFactors c)) c).
Proof. intros H. unfold push. run. rewrite H. reflexivity. Qed.

Lemma when_push_plain b event th l c :
  updateFactors c !! event = Some l ->
  when b (push_plain event th) c =
    (Returned tt,
     set_updateFactors (<[event := l ++ emit b (plain_entry th)]> (updateFactors c)) c).
Proof.
  intros H. destruct b; cbn [when emit].
  - unfold push_plain. by erewrite push_ok.
  - rewrite app_nil_r, set_updateFactors_id; done.
Qed.

Lemma when_push_trend_adjusted b event th s l c :
  updateFactors c !! event = Some l ->
  when b (push_trend_adjusted event th s) c =
    (Returned tt,
     set_updateFactors (<[event := l ++ emit b (adjusted_entry th s c)]> (updateFactors c)) c).
Proof.
  intros H. destruct b; cbn [when emit].
  - unfold push_trend_adjusted. run. by erewrite push_ok.
  - rewrite app_nil_r, set_updateFactors_id; done.
Qed.

Lemma composite_rule_ok o id1 id2 op event th l c :
  updateFactors c !! event = Some l ->
  composite_rule o id1 id2 op event th c =
    (Returned tt,
     set_updateFactors
       (<[event := l ++ emit (composite_crosses o id1 id2 op th) (plain_entry th)]>
          (updateFactors c)) c).
Proof.
  intros H. unfold composite_rule, composite_crosses.
  destruct (o !! id1) as [i1|], (o !! id2) as [i2|];
    try (cbn [emit]; run; rewrite app_nil_r, set_updateFactors_id; done).
  run. destruct (validateNumber (raw i1)) as [v1|], (validateNumber (raw i2)) as [v2|];
    try (cbn [emit]; rewrite app_nil_r, set_updateFactors_id; done).
  erewrite when_push_plain by done. done.
Qed.

Lemma updateFactors_set v c : updateFactors (set_updateFactors v c) = v.
Proof. reflexivity. Qed.

Lemma set_updateFactors_set v w c :
  set_updateFactors v (set_updateFactors w c) = set_updateFactors v c.
Proof. reflexivity. Qed.

Lemma adjusted_entry_set th s v c :
  adjusted_entry th s (set_updateFactors v c) = adjusted_entry th s c.
Proof. reflexivity. Qed.

Lemma factors_for_set event o v c :
  factors_for event o (set_updateFactors v c) = factors_for event o c.
Proof. reflexivity. Qed.

Ltac side_lookup :=
  rewrite ?updateFactors_set, ?lookup_insert_eq; first [eassumption | reflexivity].

Ltac step_push :=
  first
  [ erewrite when_push_plain by side_lookup
  | erewrite when_push_trend_adjusted by side_lookup
  | erewrite composite_rule_ok by side_lookup ];
  rewrite ?updateFactors_set, ?set_updateFactors_set, ?adjusted_entry_set,
    ?insert_insert_eq.

Ltac unfold_rules :=
  cbn [String.eqb Ascii.eqb Bool.eqb];
  cbv beta iota zeta delta [mbind M_bind mret M_ret deref];
  repeat step_push; rewrite <- ?app_assoc; reflexivity.

Lemma calculateRecessionFactors_ok o c l :
  updateFactors c !! "recession" = Some l ->
  calculateRecessionFactors (Some o) c =
    (Returned tt,
     set_updateFactors
       (<["recession" := l ++ factors_for "recession" o c]> (updateFactors c)) c).
Proof. intros H. unfold calculateRecessionFactors, factors_for. unfold_rules. Qed.

Lemma calculateDepressionFactors_ok o c l :
  updateFactors c !! "depression" = Some l ->
  calculateDepressionFactors (Some o) c =
    (Returned tt,
     set_updateFactors
       (<["depression" := l ++ factors_for "depression" o c]> (updateFactors c)) c).
Proof. intros H. unfold calculateDepressionFactors, factors_for. unfold_rules. Qed.

Lemma calculateReserveFactors_ok o c l :
  updateFactors c !! "reserve" = Some l ->
  calculateReserveFactors (Some o) c =
    (Returned tt,
     set_updateFactors
       (<["reserve" := l ++ factors_for "reserve" o c]> (updateFactors c)) c).
Proof. intros H. unfold calculateReserveFactors, factors_for. unfold_rules. Qed.

Lemma calculateDefaultFactors_ok o c l :
  updateFactors c !! "default" = Some l ->
  calculateDefaultFactors (Some o) c =
    (Returned tt,
     set_updateFactors
       (<["default" := l ++ factors_for "default" o c]> (updateFactors c)) c).
Proof. intros H. unfold calculateDefaultFactors, factors_for. unfold_rules. Qed.

Lemma calculateDevaluationFactors_ok o c l :
  updateFactors c !! "devaluation" = Some l ->
  calculateDevaluationFactors (Some o) c =
    (Returned tt,
     set_updateFactors
       (<["devaluation" := l ++ factors_for "devaluation" o c]> (updateFactors c)) c).
Proof. intros H. unfold calculateDevaluationFactors, factors_for. unfold_rules. Qed.

(** A snapshot that is not an object makes every rule evaluation throw. *)
Lemma calculateRecessionFactors_undefined c :
  calculateRecessionFactors None c = (Thrown TypeError, c).
Proof. reflexivity. Qed.
Lemma getFactors_set_currentProbabilities v c event :
  getFactors (set_currentProbabilities v c) event = getFactors c event.
Proof. reflexivity. Qed.

Lemma for_of_probabilities (ks : list string) (c : ProbabilityCalculator) :
  (forall k, k ∈ ks -> is_Some (updateFactors c !! k)) ->
  exists probs : gmap string num,
    for_of
      (fun event =>
         c ← get;
         match updateFactors c !! event with
         | None => throw TypeError
         | Some factors =>
             modify (set_currentProbabilities
                       (<[event := probability_of event factors]>
                          (currentProbabilities c)))
         end) ks c
    = (Returned tt, set_currentProbabilities probs c) /\
    forall k, probs !! k =
      if decide (k ∈ ks) then Some (probability_of k (getFactors c k))
      else currentProbabilities c !! k.
Proof.
  revert c. induction ks as [|k0 ks IH]; intros c Hks.
  - exists (currentProbabilities c). split; [by destruct c|].
    intros k. by rewrite decide_False by set_solver.
  - destruct (Hks k0) as [l Hl]; [set_solver|].
    cbn [for_of]. run. rewrite Hl.
    set (c1 := set_currentProbabilities _ c).
    destruct (IH c1) as (probs & Hrun & Hlook).
    { intros k Hk. apply Hks. set_solver. }
    exists probs. split.
    + etrans; [exact Hrun|]. reflexivity.
    + intros k. rewrite Hlook. subst c1.
      rewrite getFactors_set_currentProbabilities. cbn [currentProbabilities set_currentProbabilities].
      destruct (decide (k ∈ ks)) as [Hin|Hin].
      * by rewrite decide_True by set_solver.
      * destruct (decide (k = k0)) as [->|Hne].
        -- rewrite decide_True by set_solver. rewrite lookup_insert_eq.
           unfold getFactors. by rewrite Hl.
        -- rewrite decide_False by set_solver. by rewrite lookup_insert_ne.
Qed.

Lemma elem_of_keys {V} (m : gmap string V) (k : string) :
  k ∈ keys m <-> is_Some (m !! k).
Proof.
  unfold keys. rewrite list_elem_of_fmap. split.
  - intros [[k' v] [-> Hin]]. apply elem_of_map_to_list in Hin. by exists v.
  - intros [v Hv]. exists (k, v). split; [done|]. by apply elem_of_map_to_list.
Qed.

Lemma calculateAllProbabilities_ok (c : ProbabilityCalculator) :
  (forall k, is_Some (currentProbabilities c !! k) -> is_Some (updateFactors c !! k)) ->
  exists probs : gmap string num,
    calculateAllProbabilities c = (Returned tt, set_currentProbabilities probs c) /\
    forall k, probs !! k =
      (fun _ => probability_of k (getFactors c k)) <$> currentProbabilities c !! k.
Proof.
  intros Hc. unfold calculateAllProbabilities.
  destruct (for_of_probabilities (keys (currentProbabilities c)) c) as (probs & Hrun & Hlook).
  { intros k Hk. apply Hc. by apply elem_of_keys. }
  exists probs. split.
  - cbv beta iota zeta delta [mbind M_bind get]. exact Hrun.
  - intros k. rewrite Hlook. destruct (decide _) as [Hin|Hin].
    + apply elem_of_keys in Hin as [v ->]. done.
    + destruct (currentProbabilities c !! k) eqn:E; [|done].
      exfalso. apply Hin, elem_of_keys. by rewrite E.
Qed.
Lemma dom_BASE_PROBABILITIES :
  dom BASE_PROBABILITIES =
    ({["recession"; "depression"; "reserve"; "default"; "devaluation"]} : gset string).
Proof. unfold BASE_PROBABILITIES. rewrite !dom_insert_L, dom_empty_L. set_solver. Qed.

Lemma dom_factors_map o c : dom (factors_map o c) = dom BASE_PROBABILITIES.
Proof.
  rewrite dom_BASE_PROBABILITIES. unfold factors_map, no_factors.
  rewrite !dom_insert_L, dom_empty_L. set_solver.
Qed.

Lemma event_cases (event : string) :
  event ∈ dom BASE_PROBABILITIES ->
  event = "recession" \/ event = "depression" \/ event = "reserve" \/
  event = "default" \/ event = "devaluation".
Proof. rewrite dom_BASE_PROBABILITIES. set_solver. Qed.

Lemma factors_map_lookup o c event :
  event ∈ dom BASE_PROBABILITIES ->
  factors_map o c !! event = Some (factors_for event o c).
Proof.
  intros H. apply event_cases in H as [-> | [-> | [-> | [-> | ->]]]]; reflexivity.
Qed.

Lemma trend_step_ok analyze indicators c :
  when (useTrendAnalysis (set_updateFactors no_factors c))
    (try_
       (multipliers ← on_trendAnalyzer (analyze indicators);
        modify (set_trendMultipliers multipliers))
       (modify (set_trendMultipliers ∅)))
    (set_updateFactors no_factors c)
  = (Returned tt, after_trends analyze indicators c).
Proof.
  unfold after_trends. cbn [useTrendAnalysis set_updateFactors].
  destruct (useTrendAnalysis c); [|reflexivity].
  cbn [when]. run.
  change (trendAnalyzer (set_updateFactors no_factors c)) with (trendAnalyzer c).
  destruct (analyze indicators (trendAnalyzer c)) as [[tm|e] t']; reflexivity.
Qed.

Lemma after_trends_updateFactors analyze indicators c :
  updateFactors (after_trends analyze indicators c) = no_factors.
Proof.
  unfold after_trends. destruct (useTrendAnalysis c); [|done].
  by destruct (analyze indicators (trendAnalyzer c)) as [[tm|e] t'].
Qed.

Lemma after_trends_currentProbabilities analyze indicators c :
  currentProbabilities (after_trends analyze indicators c) = currentProbabilities c.
Proof.
  unfold after_trends. destruct (useTrendAnalysis c); [|done].
  by destruct (analyze indicators (trendAnalyzer c)) as [[tm|e] t'].
Qed.

Lemma bind_returned {S A B} (m : M S A) (k : A -> M S B) s a s' r :
  m s = (Returned a, s') -> k a s' = r -> (m ≫= k) s = r.
Proof. intros Hm Hk. unfold mbind, M_bind. by rewrite Hm. Qed.

Lemma bind_thrown {S A B} (m : M S A) (k : A -> M S B) s e s' :
  m s = (Thrown e, s') -> (m ≫= k) s = (Thrown e, s').
Proof. intros Hm. unfold mbind, M_bind. by rewrite Hm. Qed.

Lemma try_returned {S A} (m h : M S A) s a s' :
  m s = (Returned a, s') -> try_ m h s = (Returned a, s').
Proof. intros Hm. unfold try_. by rewrite Hm. Qed.

Lemma try_thrown {S A} (m h : M S A) s e s' r :
  m s = (Thrown e, s') -> h s' = r -> try_ m h s = r.
Proof. intros Hm Hh. unfold try_. by rewrite Hm. Qed.

Lemma evaluate_rules_ok o c :
  updateFactors c = no_factors ->
  (_ ← calculateRecessionFactors (Some o);
   _ ← calculateDepressionFactors (Some o);
   _ ← calculateReserveFactors (Some o);
   _ ← calculateDefaultFactors (Some o);
   calculateDevaluationFactors (Some o)) c
  = (Returned tt, set_updateFactors (factors_map o c) c).
Proof.
  intros H. cbv beta iota zeta delta [mbind M_bind].
  erewrite calculateRecessionFactors_ok by (rewrite H; reflexivity).
  erewrite calculateDepressionFactors_ok by (rewrite updateFactors_set, H; reflexivity).
  rewrite updateFactors_set, set_updateFactors_set, factors_for_set.
  erewrite calculateReserveFactors_ok by (rewrite updateFactors_set, H; reflexivity).
  rewrite updateFactors_set, set_updateFactors_set, factors_for_set.
  erewrite calculateDefaultFactors_ok by (rewrite updateFactors_set, H; reflexivity).
  rewrite updateFactors_set, set_updateFactors_set, factors_for_set.
  erewrite calculateDevaluationFactors_ok by (rewrite updateFactors_set, H; reflexivity).
  rewrite updateFactors_set, set_updateFactors_set, factors_for_set.
  rewrite H. reflexivity.
Qed.

(** One refresh cycle on a snapshot object. *)
Lemma updateProbabilities_via_object analyze o c :
  wf c ->
  let c1 := after_trends analyze (Some o) c in
  exists probs : gmap string num,
    updateProbabilities_via analyze (Some o) c =
      (Returned probs,
       set_currentProbabilities probs (set_updateFactors (factors_map o c1) c1)) /\
    dom probs = dom BASE_PROBABILITIES /\
    forall event, event ∈ dom BASE_PROBABILITIES ->
      probs !! event = Some (probability_of event (factors_for event o c1)).
Proof.
  intros Hwf c1.
  destruct (calculateAllProbabilities_ok (set_updateFactors (factors_map o c1) c1))
    as (probs & Hrun & Hlook).
  { intros k Hk. apply elem_of_dom. rewrite updateFactors_set, dom_factors_map.
    rewrite <- Hwf. apply elem_of_dom. subst c1.
    by rewrite <- (after_trends_currentProbabilities analyze (Some o) c). }
  assert (Hdom : dom probs = dom BASE_PROBABILITIES).
  { apply set_eq. intros k. rewrite <- Hwf, !elem_of_dom, Hlook.
    cbn [currentProbabilities set_currentProbabilities set_updateFactors]. subst c1.
    rewrite after_trends_currentProbabilities. by rewrite fmap_is_Some. }
  exists probs. split; [|split; [done|]].
  - unfold updateProbabilities_via. apply try_returned.
    eapply bind_returned; [reflexivity|].
    eapply bind_returned; [reflexivity|].
    eapply bind_returned; [apply trend_step_ok|]. fold c1.
    pose proof (evaluate_rules_ok o c1 (after_trends_updateFactors _ _ _)) as Hev.
    cbv beta iota zeta delta [mbind M_bind] in Hev.
    cbv beta iota zeta delta [mbind M_bind].
    destruct (calculateRecessionFactors (Some o) c1) as [[[]|e1] s1]; try discriminate.
    destruct (calculateDepressionFactors (Some o) s1) as [[[]|e2] s2]; try discriminate.
    destruct (calculateReserveFactors (Some o) s2) as [[[]|e3] s3]; try discriminate.
    destruct (calculateDefaultFactors (Some o) s3) as [[[]|e4] s4]; try discriminate.
    rewrite Hev, Hrun. reflexivity.
  - intros event Hev. rewrite Hlook.
    assert (is_Some (currentProbabilities c !! event)) as [p Hp].
    { apply elem_of_dom. by rewrite Hwf. }
    cbn [currentProbabilities set_currentProbabilities set_updateFactors]. subst c1.
    rewrite after_trends_currentProbabilities, Hp. cbn.
    unfold getFactors. cbn [updateFactors set_updateFactors].
    by rewrite factors_map_lookup.
Qed.

(** One refresh cycle on a snapshot that is not an object. *)
Lemma updateProbabilities_via_undefined analyze c :
  updateProbabilities_via analyze None c =
    (Returned BASE_PROBABILITIES,
     set_currentProbabilities BASE_PROBABILITIES (after_trends analyze None c)).
Proof.
  unfold updateProbabilities_via.
  eapply try_thrown; [|reflexivity].
  eapply bind_returned; [reflexivity|].
  eapply bind_returned; [reflexivity|].
  eapply bind_returned; [apply trend_step_ok|].
  reflexivity.
Qed.

(* ===================================================================== *)
(** ** Trend analyzer *)
(* ===================================================================== *)

#[global] Instance js_neg_proper : Proper (num_eq ==> num_eq) js_neg.
Proof. intros [] [] H; simpl in *; try tauto. by rewrite H. Qed.

#[global] Instance js_add_proper : Proper (num_eq ==> num_eq ==> num_eq) js_add.
Proof.
  intros x x' Hx y y' Hy.
  destruct x, x', y, y'; simpl in *; try tauto. by rewrite Hx, Hy.
Qed.

#[global] Instance js_sub_proper : Proper (num_eq ==> num_eq ==> num_eq) js_sub.
Proof. intros x x' Hx y y' Hy. unfold js_sub. by rewrite Hx, Hy. Qed.

#[global] Instance js_div_proper : Proper (num_eq ==> num_eq ==> num_eq) js_div.
Proof.
  intros x x' Hx y y' Hy.
  destruct x, x', y, y'; simpl in *; try tauto; try reflexivity.
  - rewrite Hy. reflexivity.
  - rewrite Hy. reflexivity.
  - rewrite Hx, Hy. destruct (Qeq_bool q2 0); [reflexivity|]. simpl. by rewrite Hx, Hy.
Qed.

#[global] Instance Math_abs_proper : Proper (num_eq ==> num_eq) Math_abs.
Proof. intros [] [] H; simpl in *; try tauto. by rewrite H. Qed.

#[global] Instance js_gt_proper : Proper (num_eq ==> num_eq ==> eq) js_gt.
Proof. intros x x' Hx y y' Hy. unfold js_gt. by rewrite Hx, Hy. Qed.

#[global] Instance classify_proper : Proper (num_eq ==> eq ==> eq) classify.
Proof.
  intros x x' Hx b b' <-. unfold classify.
  by rewrite (Math_abs_proper x x' Hx), (js_gt_proper x x' Hx (Fin 0) (Fin 0) (reflexivity _)).
Qed.

Lemma js_add_assoc (x y z : num) : ((x + y) + z)%num =n= (x + (y + z))%num.
Proof. destruct x, y, z; num_crush. Qed.

Lemma js_add_0_r (x : num) : (x + Fin 0)%num =n= x.
Proof. destruct x; num_crush. Qed.

Lemma js_add_0_l (x : num) : (Fin 0 + x)%num =n= x.
Proof. destruct x; num_crush. Qed.

Lemma foldl_js_add (l : list num) (a : num) :
  foldl js_add a l =n= (a + Spec.sum l)%num.
Proof.
  revert a. induction l as [|x l IH]; intros a; simpl.
  - by rewrite js_add_0_r.
  - rewrite IH. apply js_add_assoc.
Qed.

Lemma foldl_js_add_0 (l : list num) : foldl js_add (Fin 0) l =n= Spec.sum l.
Proof. rewrite foldl_js_add. apply js_add_0_l. Qed.

(** The sums the regression loop accumulates from index [length pre] on,
    over the rest [ys] of the series read oldest to newest. *)
Lemma regression_loop_from (data : list Obs.t) (pre ys : list num) (s : sums) :
  Spec.oldest_to_newest data = pre ++ ys ->
  for_loop (regression_body data (length data)) (length pre) (length ys) s =
    Returned
      (let x := of_nat <$> seq (length pre) (length ys) in
       {| sumX := foldl js_add (sumX s) x;
          sumY := foldl js_add (sumY s) ys;
          sumXY := foldl js_add (sumXY s) (zip_with js_mul x ys);
          sumX2 := foldl js_add (sumX2 s) (zip_with js_mul x x) |}).
Proof.
  revert pre s. induction ys as [|y ys IH]; intros pre s Hdata.
  - by destruct s.
  - assert (Hlen : length data = (length pre + S (length ys))%nat).
    { rewrite <- (length_fmap Obs.value data), <- length_reverse.
      unfold Spec.oldest_to_newest in Hdata. rewrite Hdata, length_app. done. }
    assert (Hy : Obs.value <$> data !! (length data - 1 - length pre)%nat = Some y).
    { rewrite <- list_lookup_fmap.
      replace (length data - 1 - length pre)%nat
        with (length (Obs.value <$> data) - S (length pre))%nat
        by (rewrite length_fmap; lia).
      rewrite <- reverse_lookup by (rewrite length_fmap; lia).
      unfold Spec.oldest_to_newest in Hdata. rewrite Hdata.
      by rewrite list_lookup_middle. }
    destruct (data !! (length data - 1 - length pre)%nat) as [o|] eqn:Ho; [|done].
    injection Hy as <-.
    assert (Hbody : regression_body data (length data) s (length pre) =
                    Returned
                      {| sumX := sumX s + of_nat (length pre);
                         sumY := sumY s + Obs.value o;
                         sumXY := sumXY s + of_nat (length pre) * Obs.value o;
                         sumX2 := sumX2 s + of_nat (length pre) * of_nat (length pre) |}).
    { unfold regression_body. by rewrite Ho. }
    cbn [for_loop length]. rewrite Hbody. cbn [mbind outcome_bind].
    specialize (IH (pre ++ [Obs.value o])).
    rewrite length_app in IH. cbn [length] in IH.
    replace (length pre + 1)%nat with (S (length pre)) in IH by lia.
    rewrite IH by (by rewrite <- app_assoc). reflexivity.
Qed.

Lemma regression_loop (data : list Obs.t) :
  for_loop (regression_body data (length data)) 0 (length data)
    {| sumX := Fin 0; sumY := Fin 0; sumXY := Fin 0; sumX2 := Fin 0 |} =
    Returned
      (let x := of_nat <$> seq 0 (length data) in
       let ys := Spec.oldest_to_newest data in
       {| sumX := foldl js_add (Fin 0) x;
          sumY := foldl js_add (Fin 0) ys;
          sumXY := foldl js_add (Fin 0) (zip_with js_mul x ys);
          sumX2 := foldl js_add (Fin 0) (zip_with js_mul x x) |}).
Proof.
  pose proof (regression_loop_from data [] (Spec.oldest_to_newest data)
                {| sumX := Fin 0; sumY := Fin 0; sumXY := Fin 0; sumX2 := Fin 0 |}
                eq_refl) as H.
  assert (Hlen : length (Spec.oldest_to_newest data) = length data).
  { unfold Spec.oldest_to_newest. by rewrite length_reverse, length_fmap. }
  rewrite Hlen in H. exact H.
Qed.

(** The normalized slope the code computes is the one of the least-squares
    line through the series read oldest to newest. *)
Lemma normalizedSlope_ols (data : list Obs.t) (s : sums) :
  for_loop (regression_body data (length data)) 0 (length data)
    {| sumX := Fin 0; sumY := Fin 0; sumXY := Fin 0; sumX2 := Fin 0 |} = Returned s ->
  normalizedSlope_of (of_nat (length data)) s
    =n= Spec.normalized_slope (Spec.oldest_to_newest data).
Proof.
  rewrite regression_loop. intros [= <-].
  assert (Hlen : length (Spec.oldest_to_newest data) = length data).
  { unfold Spec.oldest_to_newest. by rewrite length_reverse, length_fmap. }
  unfold normalizedSlope_of, slope_of, Spec.normalized_slope, Spec.ols_slope,
    Spec.mean, Spec.xs.
  cbv zeta. cbn [sumX sumY sumXY sumX2]. rewrite Hlen.
  by rewrite !foldl_js_add_0.
Qed.

Lemma calculateTrendDirection_ols (t : TrendAnalyzer) (seriesId : string)
  (isInverted : bool) (data : list Obs.t) :
  historicalData t !! seriesId = Some data ->
  (3 <= length data)%nat ->
  calculateTrendDirection t seriesId isInverted =
    classify (Spec.normalized_slope (Spec.oldest_to_newest data)) isInverted.
Proof.
  intros Hdata Hn. unfold calculateTrendDirection. rewrite Hdata.
  destruct (Nat.ltb_spec (length data) 3) as [|_]; [lia|].
  rewrite regression_loop. cbn [mbind outcome_bind mret outcome_ret try_catch].
  apply classify_proper; [|done].
  apply normalizedSlope_ols, regression_loop.
Qed.

Lemma calculateTrendDirection_short (t : TrendAnalyzer) (seriesId : string)
  (isInverted : bool) (data : list Obs.t) :
  historicalData t !! seriesId = Some data ->
  (length data < 3)%nat ->
  calculateTrendDirection t seriesId isInverted = Stable.
Proof.
  intros Hdata Hn. unfold calculateTrendDirection. rewrite Hdata.
  by destruct (Nat.ltb_spec (length data) 3) as [_|]; [|lia].
Qed.

Lemma calculateTrendDirection_none (t : TrendAnalyzer) (seriesId : string)
  (isInverted : bool) :
  historicalData t !! seriesId = None ->
  calculateTrendDirection t seriesId isInverted = Stable.
Proof. intros H. unfold calculateTrendDirection. by rewrite H. Qed.

(** *** Direction *)



(** A normalized slope of exactly 0.5 is not stable. *)
Example direction_at_boundary :
  Spec.normalized_slope (Spec.oldest_to_newest (Samples.series Samples.boundary))
    =n= Fin 0.5 /\
  calculateTrendDirection (Samples.analyzer_with "DGS10" Samples.boundary)
    "DGS10" false = Improving.
Proof. split; vm_compute; reflexivity. Qed.

(** Two points are not enough for a direction, whatever their disparity. *)
Example direction_of_two_points :
  calculateTrendDirection (Samples.analyzer_with "DGS10" [1000; 1]%Q)
    "DGS10" false = Stable.
Proof. reflexivity. Qed.

(** A NaN normalized slope, as an all-zero series has, is neither stable nor
    of either sign; the code takes the branch of a falling series. *)
Lemma direction_of_NaN_slope (isInverted : bool) :
  classify NaN isInverted = (if isInverted then Improving else Worsening) /\
  calculateTrendDirection (Samples.analyzer_with "T10Y2Y" [0; 0; 0]%Q)
    "T10Y2Y" false = Worsening.
Proof. split; [by destruct isInverted|reflexivity]. Qed.

(** *** Multiplier *)

Lemma getTrendMultiplier_values (t : TrendAnalyzer) (seriesId : string)
  (isInverted : bool) :
  getTrendMultiplier t seriesId isInverted ∈
    [Fin 0.56; Fin 0.7; Fin 1.0; Fin 1.3; Fin 1.5].
Proof.
  unfold getTrendMultiplier.
  destruct (calculateTrendDirection t seriesId isInverted);
    destruct (js_gt _ _); cbn; set_solver.
Qed.

Lemma getTrendMultiplier_within (t : TrendAnalyzer) (seriesId : string)
  (isInverted : bool) :
  within 0.5 1.5 (getTrendMultiplier t seriesId isInverted).
Proof.
  pose proof (getTrendMultiplier_values t seriesId isInverted) as H.
  repeat (apply elem_of_cons in H as [-> | H]);
    try (eexists; split; [reflexivity|lra]).
  by apply elem_of_nil in H.
Qed.

Lemma getTrendMultiplier_positive (t : TrendAnalyzer) (seriesId : string)
  (isInverted : bool) :
  positive (getTrendMultiplier t seriesId isInverted).
Proof.
  destruct (getTrendMultiplier_within t seriesId isInverted) as (q & -> & Hq).
  exists q. split; [done|lra].
Qed.

(** C5: the multiplier is 1.3, 1.0 or 0.7 for direction -1, 0 or +1; when the
    absolute velocity exceeds 2.0, direction -1 multiplies by 1.2 capped at
    1.5, direction +1 multiplies by 0.8 floored at 0.5, and direction 0 is
    unaffected. *)
Theorem trend_multiplier_mapping (t : TrendAnalyzer) (seriesId : string)
  (isInverted : bool) :
  let direction :=
    direction_number (calculateTrendDirection t seriesId isInverted) in
  let velocity := calculateVelocity t seriesId in
  getTrendMultiplier t seriesId isInverted
    = Spec.trend_multiplier direction velocity /\
  getTrendMultiplier t seriesId isInverted
    = if js_gt (Math_abs velocity) (Fin 2.0) then
        match direction with
        | (-1)%Z => Fin 1.5
        | 0%Z => Fin 1.0
        | _ => Fin 0.56
        end
      else
        match direction with
        | (-1)%Z => Fin 1.3
        | 0%Z => Fin 1.0
        | _ => Fin 0.7
        end.
Proof.
  cbv zeta. unfold getTrendMultiplier, Spec.trend_multiplier.
  destruct (calculateTrendDirection t seriesId isInverted);
    destruct (js_gt _ _); split; reflexivity.
Qed.


(** *** Velocity *)

Lemma calculateVelocity_endpoints (t : TrendAnalyzer) (seriesId : string)
  (data : list Obs.t) :
  historicalData t !! seriesId = Some data ->
  (2 <= length data)%nat ->
  exists newest oldest : Obs.t,
    head data = Some newest /\ last data = Some oldest /\
    calculateVelocity t seriesId
      = Spec.velocity (Obs.value newest) (Obs.value oldest) (length data).
Proof.
  intros Hdata Hn. unfold calculateVelocity. rewrite Hdata.
  destruct (Nat.ltb_spec (length data) 2) as [|_]; [lia|].
  destruct data as [|newest rest]; [simpl in Hn; lia|].
  destruct (last (newest :: rest)) as [oldest|] eqn:Hlast;
    [|by apply last_None in Hlast].
  exists newest, oldest. split; [done|]. split; [done|].
  unfold value_at, Spec.velocity. rewrite last_lookup in Hlast.
  cbn [length Nat.pred] in *.
  replace (S (length rest) - 1)%nat with (length rest) by lia.
  rewrite Hlast. reflexivity.
Qed.

Lemma calculateVelocity_short (t : TrendAnalyzer) (seriesId : string) :
  (forall data : list Obs.t,
     historicalData t !! seriesId = Some data -> (length data < 2)%nat) ->
  calculateVelocity t seriesId = Fin 0.
Proof.
  intros H. unfold calculateVelocity.
  destruct (historicalData t !! seriesId) as [data|]; [|done].
  specialize (H data eq_refl).
  by destruct (Nat.ltb_spec (length data) 2) as [_|]; [|lia].
Qed.

(** With an oldest value of 0 the division is carried out: the velocity is
    not finite. *)
Lemma velocity_of_zero_oldest (newest : num) (n : nat) :
  (2 <= n)%nat -> isFinite (Spec.velocity newest (Fin 0) n) = false.
Proof.
  intros Hn. unfold Spec.velocity, of_nat.
  assert (0 < inject_Z (Z.of_nat (n - 1)))%Q as Hpos.
  { change 0%Q with (inject_Z 0). rewrite <- Zlt_Qlt. lia. }
  destruct newest; simpl; try done.
  - destruct (Qle_bool 0 (inject_Z (Z.of_nat (n - 1)))); done.
  - destruct (Qle_bool 0 (inject_Z (Z.of_nat (n - 1)))); done.
  - destruct (Qcompare_spec (q + - 0) 0); simpl; try done.
    + destruct (Qle_bool 0 (inject_Z (Z.of_nat (n - 1)))); done.
    + destruct (Qle_bool 0 (inject_Z (Z.of_nat (n - 1)))); done.
Qed.

(** C6 at a history whose oldest value is 0: the velocity of 5 after 0 is
    Infinity and that of 0 after 0 is NaN, not 0, and the infinite velocity
    amplifies the multiplier. *)
Theorem velocity_zero_oldest_unguarded :
  calculateVelocity (Samples.analyzer_with "T10Y2Y" [5; 0]%Q) "T10Y2Y" = PInf /\
  calculateVelocity (Samples.analyzer_with "T10Y2Y" [0; 0]%Q) "T10Y2Y" = NaN /\
  calculateVelocity (Samples.analyzer_with "T10Y2Y" [5; 2; 0]%Q) "T10Y2Y" = PInf /\
  getTrendMultiplier (Samples.analyzer_with "T10Y2Y" [5; 2; 0]%Q) "T10Y2Y" false
    = Fin 0.56.
Proof. repeat split; vm_compute; reflexivity. Qed.

(** A history of one point, or none, has velocity 0. *)
Example velocity_of_short_histories :
  calculateVelocity (Samples.analyzer_with "DGS10" [4]%Q) "DGS10" = Fin 0 /\
  calculateVelocity (Samples.analyzer_with "DGS10" []) "DGS10" = Fin 0 /\
  calculateVelocity TrendAnalyzer_new "DGS10" = Fin 0.
Proof. repeat split; reflexivity. Qed.

(* ===================================================================== *)
(** ** Threshold evaluation and aggregation *)
(* ===================================================================== *)

Lemma validateNumber_invalid (x : num) :
  invalid x -> validateNumber x = Thrown ValidationError.
Proof. unfold invalid. by destruct x. Qed.

Lemma checkThreshold_invalid (value threshold : num) (operator : string) :
  invalid value -> checkThreshold value threshold operator = false.
Proof.
  intros H. unfold checkThreshold. by rewrite (validateNumber_invalid _ H).
Qed.

Lemma crosses_unusable (o : gmap string indicator) (id : string)
  (th : Threshold.t) (operator : string) :
  unusable o id -> crosses o id th operator = false.
Proof.
  unfold unusable, crosses. destruct (o !! id) as [i|]; [|done].
  apply checkThreshold_invalid.
Qed.

Lemma composite_crosses_unusable (o : gmap string indicator) (id1 id2 : string)
  (op : num -> num -> num) (th : Threshold.t) :
  unusable o id1 \/ unusable o id2 -> composite_crosses o id1 id2 op th = false.
Proof.
  unfold unusable, composite_crosses.
  destruct (o !! id1) as [i1|], (o !! id2) as [i2|]; try done.
  intros [H|H]; rewrite (validateNumber_invalid _ H); [done|].
  by destruct (validateNumber (raw i1)).
Qed.

Lemma applyTrendAdjustment_truthy (baseFactor : num) (seriesId : string)
  (c : ProbabilityCalculator) :
  truthy baseFactor = true ->
  truthy (applyTrendAdjustment baseFactor seriesId c) = true.
Proof.
  intros Hb. unfold applyTrendAdjustment.
  destruct (trendMultipliers c !! seriesId) as [m|]; [|done].
  destruct (useTrendAnalysis c); [|done]. cbn [negb orb].
  destruct (truthy m) eqn:Hm; [|done]. cbn [negb]. by apply truthy_mul.
Qed.

(** What [applyTrendAdjustment] returns is baseFactor times the multiplier
    of the indicator when one is available, and baseFactor times 1.0
    otherwise. *)
Lemma applyTrendAdjustment_spec (baseFactor : num) (seriesId : string)
  (c : ProbabilityCalculator) :
  useTrendAnalysis c = true ->
  (forall m, trendMultipliers c !! seriesId = Some m -> truthy m = true) ->
  applyTrendAdjustment baseFactor seriesId c
    =n= (baseFactor * Spec.trendMultiplier (trendMultipliers c) seriesId)%num.
Proof.
  intros Hflag Hm. unfold applyTrendAdjustment, Spec.trendMultiplier.
  rewrite Hflag. destruct (trendMultipliers c !! seriesId) as [m|]; cbn.
  - by rewrite (Hm m eq_refl).
  - destruct baseFactor; num_crush.
Qed.

Ltac split_emits :=
  unfold factors_for;
  repeat match goal with
  | |- context [String.eqb ?e ?s] => destruct (String.eqb e s)
  end;
  repeat match goal with
  | |- context [emit ?b _] => destruct b; cbn [emit]
  end;
  cbn [app].

(** Every factor a cycle pushes is a number other than 0 and NaN. *)
Lemma factors_for_truthy (event : string) (o : gmap string indicator)
  (c : ProbabilityCalculator) :
  Forall (fun f => truthy (Factor.factor f) = true) (factors_for event o c).
Proof.
  split_emits;
    repeat first [apply Forall_nil_2 | apply Forall_cons_2];
    cbn [Factor.factor adjusted_entry plain_entry];
    try apply applyTrendAdjustment_truthy; reflexivity.
Qed.

Ltac rule_at k :=
  eexists; split;
  [ eapply (list_elem_of_lookup_2 rules k); reflexivity
  | split; reflexivity ].

(** Every factor a cycle pushes belongs to a rule of the table. *)
Lemma factors_for_rules (event : string) (o : gmap string indicator)
  (c : ProbabilityCalculator) :
  Forall (fun f => exists r, r ∈ rules /\ rule_event r = event /\
                     Factor.reason f = Threshold.reason (rule_threshold r))
    (factors_for event o c).
Proof.
  unfold factors_for.
  repeat match goal with
  | |- context [String.eqb ?e ?s] =>
      destruct (String.eqb_spec e s) as [->|?]
  end;
  repeat match goal with
  | |- context [emit ?b _] => destruct b; cbn [emit]
  end;
  cbn [app];
  repeat first [apply Forall_nil_2 | apply Forall_cons_2];
  first [ rule_at 0%nat | rule_at 1%nat | rule_at 2%nat | rule_at 3%nat
        | rule_at 4%nat | rule_at 5%nat | rule_at 6%nat | rule_at 7%nat
        | rule_at 8%nat | rule_at 9%nat | rule_at 10%nat | rule_at 11%nat ].
Qed.

(** *** Aggregation *)

Lemma BASE_PROBABILITIES_cases (event : string) (basePrior : num) :
  BASE_PROBABILITIES !! event = Some basePrior ->
  (event = "recession" /\ basePrior = Fin 0.15) \/
  (event = "depression" /\ basePrior = Fin 0.03) \/
  (event = "reserve" /\ basePrior = Fin 0.05) \/
  (event = "default" /\ basePrior = Fin 0.01) \/
  (event = "devaluation" /\ basePrior = Fin 0.20).
Proof.
  intros H. assert (event ∈ dom BASE_PROBABILITIES) as Hev.
  { apply elem_of_dom. by rewrite H. }
  apply event_cases in Hev as [-> | [-> | [-> | [-> | ->]]]];
    vm_compute in H; injection H as <-; auto 10.
Qed.

Lemma baseProbability_of_lookup (event : string) (basePrior : num) :
  BASE_PROBABILITIES !! event = Some basePrior ->
  baseProbability_of event = basePrior.
Proof. intros H. unfold baseProbability_of. by rewrite H. Qed.

Lemma basePrior_positive (event : string) (basePrior : num) :
  BASE_PROBABILITIES !! event = Some basePrior -> positive basePrior.
Proof.
  intros H. apply BASE_PROBABILITIES_cases in H
    as [[_ ->]|[[_ ->]|[[_ ->]|[[_ ->]|[_ ->]]]]];
    eexists; (split; [reflexivity|lra]).
Qed.

Lemma basePrior_within (event : string) (basePrior : num) :
  BASE_PROBABILITIES !! event = Some basePrior -> within 0 1 basePrior.
Proof.
  intros H. apply BASE_PROBABILITIES_cases in H
    as [[_ ->]|[[_ ->]|[[_ ->]|[[_ ->]|[_ ->]]]]];
    eexists; (split; [reflexivity|lra]).
Qed.

Lemma product_of_factors_truthy (factors : list Factor.t) :
  Forall (fun f => truthy (Factor.factor f) = true) factors ->
  truthy (product_of_factors factors) = true.
Proof.
  unfold product_of_factors. assert (truthy (Fin 1) = true) as Ha by reflexivity.
  revert Ha. generalize (Fin 1).
  induction factors as [|f l IH]; intros a Ha Hl; [done|].
  apply Forall_cons in Hl as [Hf Hl]. cbn [foldl].
  apply IH; [|done]. by apply truthy_mul.
Qed.

Lemma combinedFactor_of_truthy (factors : list Factor.t) :
  Forall (fun f => truthy (Factor.factor f) = true) factors ->
  truthy (combinedFactor_of factors) = true.
Proof.
  intros H. apply product_of_factors_truthy in H. unfold combinedFactor_of.
  destruct (length factors =? 2)%nat; [by apply truthy_mul|].
  destruct (3 <=? length factors)%nat; [by apply truthy_mul|done].
Qed.

(** The probability stored for an event lies in [0, 1] as long as no factor
    is 0 or NaN. *)
Lemma probability_of_within (event : string) (basePrior : num)
  (factors : list Factor.t) :
  BASE_PROBABILITIES !! event = Some basePrior ->
  Forall (fun f => truthy (Factor.factor f) = true) factors ->
  within 0 1 (probability_of event factors).
Proof.
  intros Hev Hf. unfold probability_of.
  rewrite (baseProbability_of_lookup _ _ Hev).
  destruct (0 <? length factors)%nat; [|by eapply basePrior_within].
  apply clamp_within, truthy_not_NaN, truthy_mul.
  - by eapply positive_truthy, basePrior_positive.
  - by apply combinedFactor_of_truthy.
Qed.

Lemma combinedFactor_of_spec (factors : list Factor.t) :
  combinedFactor_of factors =n= Spec.combined (Factor.factor <$> factors).
Proof.
  unfold combinedFactor_of, Spec.combined. rewrite length_fmap.
  pose proof (product_of_factors_spec factors) as Hp.
  change (discount_set 2) with true. change (discount_set 3) with true.
  rewrite !andb_true_r. unfold times_discount. cbn [CORRELATION_DISCOUNT].
  destruct (length factors =? 2)%nat;
    [apply js_mul_proper; [exact Hp|reflexivity]|].
  destruct (3 <=? length factors)%nat;
    [apply js_mul_proper; [exact Hp|reflexivity]|exact Hp].
Qed.

(** The probability stored for an event is
    clamp(basePrior * combined, 0, 1). *)
Lemma probability_of_spec (event : string) (basePrior : num)
  (factors : list Factor.t) :
  BASE_PROBABILITIES !! event = Some basePrior ->
  probability_of event factors
    =n= Spec.probability basePrior (Factor.factor <$> factors).
Proof.
  intros Hev. unfold probability_of, Spec.probability.
  rewrite (baseProbability_of_lookup _ _ Hev).
  destruct factors as [|f l].
  - cbn [length Nat.ltb Nat.leb fmap list_fmap].
    apply BASE_PROBABILITIES_cases in Hev
      as [[_ ->]|[[_ ->]|[[_ ->]|[[_ ->]|[_ ->]]]]]; vm_compute; reflexivity.
  - cbn [length Nat.ltb Nat.leb].
    apply clamp_proper; [|reflexivity|vm_compute; reflexivity].
    apply js_mul_proper; [reflexivity|]. apply combinedFactor_of_spec.
Qed.

Lemma probability_of_no_factors (event : string) (basePrior : num) :
  BASE_PROBABILITIES !! event = Some basePrior ->
  probability_of event [] = basePrior.
Proof. intros H. unfold probability_of. cbn. by apply baseProbability_of_lookup. Qed.

(** *** The state a cycle leaves *)

Lemma wf_new : wf ProbabilityCalculator_new.
Proof. reflexivity. Qed.

Lemma map_lookup_in_dom (event : string) (basePrior : num) :
  BASE_PROBABILITIES !! event = Some basePrior -> event ∈ dom BASE_PROBABILITIES.
Proof. intros H. apply elem_of_dom. by rewrite H. Qed.

(** What a cycle returns and leaves, for any snapshot argument. *)
Lemma updateProbabilities_via_result analyze (indicators : snapshot)
  (c : ProbabilityCalculator) :
  wf c ->
  let r := updateProbabilities_via analyze indicators c in
  let c1 := after_trends analyze indicators c in
  exists probs : gmap string num,
    r.1 = Returned probs /\
    currentProbabilities r.2 = probs /\
    dom probs = dom BASE_PROBABILITIES /\
    trendMultipliers r.2 = trendMultipliers c1 /\
    useTrendAnalysis r.2 = useTrendAnalysis c /\
    forall event, event ∈ dom BASE_PROBABILITIES ->
      exists factors,
        updateFactors r.2 !! event = Some factors /\
        getFactors r.2 event = factors /\
        Forall (fun f => truthy (Factor.factor f) = true) factors /\
        probs !! event = Some (probability_of event factors) /\
        match indicators with
        | Some o => factors = factors_for event o c1
        | None => factors = []
        end.
Proof.
  intros Hwf r c1.
  assert (Hflag : useTrendAnalysis c1 = useTrendAnalysis c).
  { subst c1. unfold after_trends. destruct (useTrendAnalysis c) eqn:E; [|done].
    by destruct (analyze indicators (trendAnalyzer c)) as [[tm|e] t']. }
  destruct indicators as [o|].
  - destruct (updateProbabilities_via_object analyze o c Hwf)
      as (probs & Hrun & Hdom & Hlook).
    fold c1 in Hrun, Hlook. subst r. rewrite Hrun. cbn [fst snd].
    exists probs. repeat split; try done.
    intros event Hev. exists (factors_for event o c1).
    unfold getFactors. cbn [updateFactors set_currentProbabilities set_updateFactors].
    rewrite factors_map_lookup by done.
    repeat split; try done; [apply factors_for_truthy | by apply Hlook].
  - subst r. rewrite updateProbabilities_via_undefined. cbn [fst snd].
    fold c1. exists BASE_PROBABILITIES. repeat split; try done.
    intros event Hev. exists [].
    unfold getFactors. cbn [updateFactors set_currentProbabilities].
    subst c1. rewrite after_trends_updateFactors.
    assert (no_factors !! event = Some []) as ->.
    { apply event_cases in Hev as [-> | [-> | [-> | [-> | ->]]]]; reflexivity. }
    repeat split; try done.
    apply elem_of_dom in Hev as [p Hp]. rewrite Hp.
    by rewrite (probability_of_no_factors _ _ Hp).
Qed.

(* ===================================================================== *)
(** ** The refresh cycle *)
(* ===================================================================== *)

(** C1: whatever the snapshot, the probability a cycle returns for an event
    is clamp(basePrior * C, 0, 1), C being the product of the effective
    factors of the event times 0.7 for exactly two factors and 0.5 for three
    or more; with no factor it is the base prior itself, and with the two
    factors 1.8 and 2.0 on the prior 0.15 it is 0.378. *)
Theorem probability_is_clamped_product
  (analyze : snapshot -> M TrendAnalyzer (gmap string num))
  (indicators : snapshot) (c : ProbabilityCalculator) :
  wf c ->
  let r := updateProbabilities_via analyze indicators c in
  exists probs : gmap string num,
    r.1 = Returned probs /\
    forall (event : string) (basePrior : num),
      BASE_PROBABILITIES !! event = Some basePrior ->
      exists p : num,
        probs !! event = Some p /\
        let effective := Factor.factor <$> getFactors r.2 event in
        p =n= Spec.probability basePrior effective /\
        (effective = [] -> p = basePrior) /\
        (basePrior = Fin 0.15 -> effective = [Fin 1.8; Fin 2.0] ->
           p =n= Fin 0.378).
Proof.
  intros Hwf r.
  destruct (updateProbabilities_via_result analyze indicators c Hwf)
    as (probs & Hr & _ & _ & _ & _ & Hev).
  fold r in Hr, Hev. exists probs. split; [done|].
  intros event basePrior Hprior.
  destruct (Hev event (map_lookup_in_dom _ _ Hprior))
    as (factors & _ & Hget & _ & Hp & _).
  exists (probability_of event factors). split; [done|].
  cbv zeta. rewrite Hget.
  pose proof (probability_of_spec event basePrior factors Hprior) as Hspec.
  split; [done|]. split.
  - intros Hnil. apply fmap_nil_inv in Hnil as ->.
    by apply probability_of_no_factors.
  - intros -> Heff. rewrite Hspec, Heff. vm_compute. reflexivity.
Qed.

Lemma probability_is_clamped_product_witness :
  wf ProbabilityCalculator_new /\
  BASE_PROBABILITIES !! "recession" = Some (Fin 0.15) /\
  Factor.factor <$>
    getFactors
      (updateProbabilities_via (analyzeAllTrends Samples.no_backend)
         (Some Samples.two_triggers) ProbabilityCalculator_new).2 "recession"
    = [Fin 1.8; Fin 2.0] /\
  exists (probs : gmap string num) (p : num),
    (updateProbabilities_via (analyzeAllTrends Samples.no_backend)
       (Some Samples.two_triggers) ProbabilityCalculator_new).1
      = Returned probs /\
    probs !! "recession" = Some p /\ p =n= Fin 0.378.
Proof.
  split; [exact wf_new|]. split; [reflexivity|]. split; [vm_compute; reflexivity|].
  destruct (probability_is_clamped_product (analyzeAllTrends Samples.no_backend)
              (Some Samples.two_triggers) ProbabilityCalculator_new wf_new)
    as (probs & Hr & H).
  destruct (H "recession" (Fin 0.15) eq_refl) as (p & Hp & _ & _ & Hex).
  exists probs, p. split; [exact Hr|]. split; [exact Hp|].
  apply Hex; [reflexivity|vm_compute; reflexivity].
Defined.

(** The trend example of the documentation: 1.8 * 1.3 and 2.0 on the prior
    0.15 give 0.4914; and a product above 1 / basePrior clamps to 1. *)
Example probability_examples :
  Spec.probability (Fin 0.15) [(Fin 1.8 * Fin 1.3)%num; Fin 2.0] =n= Fin 0.4914 /\
  Spec.probability (Fin 0.15) [Fin 1.8; Fin 2.0; Fin 1.7; Fin 3.0] =n= Fin 1.
Proof. split; vm_compute; reflexivity. Qed.

(** Every multiplier [analyzeAllTrends] returns is the multiplier of a
    series it holds. *)
Lemma analyzeAllTrends_multipliers (b : backend) (indicators : snapshot)
  (t t' : TrendAnalyzer) (multipliers : gmap string num) :
  analyzeAllTrends b indicators t = (Returned multipliers, t') ->
  forall (seriesId : string) (m : num),
    multipliers !! seriesId = Some m ->
    m = getTrendMultiplier t' seriesId (bool_decide (seriesId ∈ invertedIndicators)).
Proof.
  unfold analyzeAllTrends. destruct indicators as [o|]; [|discriminate].
  cbv beta iota zeta delta [mbind M_bind mret M_ret deref get].
  destruct (for_of _ _ t) as [[[]|e] t1]; [|discriminate].
  intros [= <- <-].
  generalize (List.filter (fun id => negb (bool_decide (id = "DXY"))) (keys o)).
  intros ids.
  assert (forall (acc : gmap string num),
            (forall id m, acc !! id = Some m ->
               m = getTrendMultiplier t1 id (bool_decide (id ∈ invertedIndicators))) ->
            forall id m,
              foldl (fun trendMultipliers seriesId =>
                       match historicalData t1 !! seriesId with
                       | Some _ =>
                           <[seriesId :=
                               getTrendMultiplier t1 seriesId
                                 (bool_decide (seriesId ∈ invertedIndicators))]>
                             trendMultipliers
                       | None => trendMultipliers
                       end) acc ids !! id = Some m ->
              m = getTrendMultiplier t1 id (bool_decide (id ∈ invertedIndicators)))
    as Hfold.
  { induction ids as [|i ids IH]; intros acc Hacc id m; [by apply Hacc|].
    cbn [foldl]. apply IH. intros id' m'.
    destruct (historicalData t1 !! i); [|by apply Hacc].
    destruct (decide (i = id')) as [->|Hne].
    - rewrite lookup_insert_eq. by intros [= <-].
    - rewrite lookup_insert_ne by done. by apply Hacc. }
  apply Hfold. intros id m. by rewrite lookup_empty.
Qed.

(** C2: for every snapshot and every history the backend serves, each
    probability a cycle returns lies in [0, 1], and each trend multiplier,
    whether computed for one series or stored by the cycle, lies in
    [0.5, 1.5]. *)
Theorem probabilities_and_multipliers_bounded (b : backend)
  (indicators : snapshot) (c : ProbabilityCalculator) :
  wf c ->
  let r := updateProbabilities b indicators c in
  (exists probs : gmap string num,
     r.1 = Returned probs /\
     dom probs = dom BASE_PROBABILITIES /\
     forall (event : string) (p : num),
       probs !! event = Some p -> within 0 1 p) /\
  (forall (t : TrendAnalyzer) (seriesId : string) (isInverted : bool),
     within 0.5 1.5 (getTrendMultiplier t seriesId isInverted)) /\
  (useTrendAnalysis c = true ->
   forall (seriesId : string) (m : num),
     trendMultipliers r.2 !! seriesId = Some m -> within 0.5 1.5 m).
Proof.
  intros Hwf r. unfold updateProbabilities in r.
  destruct (updateProbabilities_via_result (analyzeAllTrends b) indicators c Hwf)
    as (probs & Hr & _ & Hdom & Htm & _ & Hev).
  fold r in Hr, Htm, Hev. split; [|split].
  - exists probs. split; [done|]. split; [done|].
    intros event p Hp.
    assert (event ∈ dom BASE_PROBABILITIES) as Hin.
    { rewrite <- Hdom. apply elem_of_dom. by rewrite Hp. }
    destruct (Hev event Hin) as (factors & _ & _ & Htruthy & Hp' & _).
    rewrite Hp' in Hp. injection Hp as <-.
    apply elem_of_dom in Hin as [basePrior Hprior].
    by eapply probability_of_within.
  - exact getTrendMultiplier_within.
  - intros Hflag seriesId m. rewrite Htm. unfold after_trends. rewrite Hflag.
    destruct (analyzeAllTrends b indicators (trendAnalyzer c)) as [[tm|e] t'] eqn:E;
      cbn [trendMultipliers set_trendMultipliers].
    + intros Hm. rewrite (analyzeAllTrends_multipliers _ _ _ _ _ E _ _ Hm).
      apply getTrendMultiplier_within.
    + by rewrite lookup_empty.
Qed.

Lemma probabilities_and_multipliers_bounded_witness :
  wf ProbabilityCalculator_new /\
  useTrendAnalysis ProbabilityCalculator_new = true /\
  trendMultipliers Samples.after_three_triggers !! "T10Y2Y" = Some (Fin 0.56) /\
  within 0.5 1.5 (Fin 0.56).
Proof.
  split; [exact wf_new|]. split; [reflexivity|]. split; [vm_compute; reflexivity|].
  destruct (probabilities_and_multipliers_bounded Samples.yield_curve_backend
              (Some Samples.three_triggers) ProbabilityCalculator_new wf_new)
    as (_ & _ & H).
  apply (H eq_refl "T10Y2Y"). vm_compute. reflexivity.
Defined.

Lemma factors_for_ext (event : string) (o : gmap string indicator)
  (c c' : ProbabilityCalculator) :
  trendMultipliers c = trendMultipliers c' ->
  useTrendAnalysis c = useTrendAnalysis c' ->
  factors_for event o c = factors_for event o c'.
Proof.
  intros Htm Hflag.
  unfold factors_for, adjusted_entry, applyTrendAdjustment.
  by rewrite Htm, Hflag.
Qed.

(** C9: a cycle returns a probability for each of the five events, whatever
    the snapshot and whatever the trend analysis does, and throws nothing;
    when the trend analysis throws, the cycle returns what it returns with
    no multiplier at all. *)
Theorem cycle_always_completes
  (analyze : snapshot -> M TrendAnalyzer (gmap string num))
  (indicators : snapshot) (c : ProbabilityCalculator) :
  wf c ->
  let r := updateProbabilities_via analyze indicators c in
  (exists probs : gmap string num,
     r.1 = Returned probs /\
     dom probs =
       ({["recession"; "depression"; "reserve"; "default"; "devaluation"]}
        : gset string)) /\
  wf r.2 /\
  (forall (e : error) (t' : TrendAnalyzer),
     analyze indicators (trendAnalyzer c) = (Thrown e, t') ->
     r.1 = (updateProbabilities_via (fun _ => mret ∅) indicators c).1 /\
     (useTrendAnalysis c = true -> trendMultipliers r.2 = ∅)).
Proof.
  intros Hwf r.
  destruct (updateProbabilities_via_result analyze indicators c Hwf)
    as (probs & Hr & Hcur & Hdom & Htm & _ & Hev).
  fold r in Hr, Hcur, Htm, Hev. split; [|split].
  - exists probs. by rewrite <- dom_BASE_PROBABILITIES.
  - unfold wf. by rewrite Hcur.
  - intros e t' Hthrow. split.
    + destruct (updateProbabilities_via_result (fun _ => mret ∅) indicators c Hwf)
        as (probs0 & Hr0 & _ & Hdom0 & _ & _ & Hev0).
      rewrite Hr, Hr0. f_equal. apply map_eq. intros event.
      destruct (decide (event ∈ dom BASE_PROBABILITIES)) as [Hin|Hout].
      * destruct (Hev event Hin) as (factors & _ & _ & _ & -> & Hf).
        destruct (Hev0 event Hin) as (factors0 & _ & _ & _ & -> & Hf0).
        do 2 f_equal. destruct indicators as [o|]; [|congruence].
        rewrite Hf, Hf0. apply factors_for_ext.
        -- unfold after_trends. rewrite Hthrow. cbn.
           by destruct (useTrendAnalysis c).
        -- unfold after_trends. rewrite Hthrow. cbn.
           by destruct (useTrendAnalysis c).
      * assert (probs !! event = None) as ->
          by (apply not_elem_of_dom; by rewrite Hdom).
        symmetry. apply not_elem_of_dom. by rewrite Hdom0.
    + intros Hflag. rewrite Htm. unfold after_trends. by rewrite Hflag, Hthrow.
Qed.

Lemma cycle_always_completes_witness :
  wf ProbabilityCalculator_new /\
  Samples.failing_analyzer (Some Samples.two_triggers)
    (trendAnalyzer ProbabilityCalculator_new)
    = (Thrown TypeError, trendAnalyzer ProbabilityCalculator_new) /\
  (updateProbabilities_via Samples.failing_analyzer (Some Samples.two_triggers)
     ProbabilityCalculator_new).1
    = (updateProbabilities_via Samples.silent_analyzer (Some Samples.two_triggers)
         ProbabilityCalculator_new).1.
Proof.
  split; [exact wf_new|]. split; [reflexivity|].
  destruct (cycle_always_completes Samples.failing_analyzer
              (Some Samples.two_triggers) ProbabilityCalculator_new wf_new)
    as (_ & _ & H).
  exact (proj1 (H TypeError (trendAnalyzer ProbabilityCalculator_new) eq_refl)).
Defined.

(** The cycle of the concrete analyzer, on a first cycle and on a snapshot
    that is not an object. *)
Example cycle_examples :
  (updateProbabilities Samples.no_backend None ProbabilityCalculator_new).1
    = Returned BASE_PROBABILITIES /\
  (updateProbabilities Samples.no_backend (Some ∅) ProbabilityCalculator_new).1
    = Returned BASE_PROBABILITIES.
Proof. split; vm_compute; reflexivity. Qed.

(* ===================================================================== *)
(** ** Rules and their factors *)
(* ===================================================================== *)

(** A recession rule that triggers pushes baseFactor times the multiplier of
    its indicator, the multiplier being 1.0 when none is available. *)
Lemma recession_factors_trend_adjusted (o : gmap string indicator)
  (c : ProbabilityCalculator) :
  useTrendAnalysis c = true ->
  (forall id m, trendMultipliers c !! id = Some m -> truthy m = true) ->
  Forall (fun f =>
            exists (r : rule) (id : string) (b : num),
              r ∈ rules /\ rule_event r = "recession" /\
              rule_inputs r = [id] /\
              Factor.reason f = Threshold.reason (rule_threshold r) /\
              Factor.baseFactor f = Some b /\
              b = Threshold.factor (rule_threshold r) /\
              Factor.factor f
                =n= (b * Spec.trendMultiplier (trendMultipliers c) id)%num)
    (factors_for "recession" o c).
Proof.
  intros Hflag Htm. unfold factors_for. cbn [String.eqb Ascii.eqb Bool.eqb].
  repeat match goal with
  | |- context [emit ?b _] => destruct b; cbn [emit]
  end;
  cbn [app];
  repeat first [apply Forall_nil_2 | apply Forall_cons_2];
  cbn [Factor.factor Factor.baseFactor Factor.reason adjusted_entry].
  all: first
    [ eexists _, "DeficitGDP", (Fin 1.8);
      repeat (split; [first [reflexivity
                            | eapply (list_elem_of_lookup_2 rules 0); reflexivity]|]);
      apply applyTrendAdjustment_spec; [exact Hflag|apply Htm]
    | eexists _, "BAA10Y", (Fin 2.0);
      repeat (split; [first [reflexivity
                            | eapply (list_elem_of_lookup_2 rules 1); reflexivity]|]);
      apply applyTrendAdjustment_spec; [exact Hflag|apply Htm]
    | eexists _, "T10Y2Y", (Fin 1.7);
      repeat (split; [first [reflexivity
                            | eapply (list_elem_of_lookup_2 rules 2); reflexivity]|]);
      apply applyTrendAdjustment_spec; [exact Hflag|apply Htm] ].
Qed.

(** The rules of the four other events push their configured factor,
    whatever the multiplier of their indicator. *)
Lemma other_factors_not_adjusted (event : string) (o : gmap string indicator)
  (c : ProbabilityCalculator) :
  event <> "recession" ->
  Forall (fun f =>
            exists r : rule,
              r ∈ rules /\ rule_event r = event /\
              Factor.reason f = Threshold.reason (rule_threshold r) /\
              Factor.factor f = Threshold.factor (rule_threshold r) /\
              Factor.baseFactor f = None)
    (factors_for event o c).
Proof.
  intros Hne. unfold factors_for.
  destruct (String.eqb_spec event "recession") as [?|_]; [done|].
  repeat match goal with
  | |- context [String.eqb ?e ?s] =>
      destruct (String.eqb_spec e s) as [->|?]
  end;
  repeat match goal with
  | |- context [emit ?b _] => destruct b; cbn [emit]
  end;
  cbn [app];
  repeat first [apply Forall_nil_2 | apply Forall_cons_2];
  cbn [Factor.factor Factor.baseFactor Factor.reason plain_entry].
  all:
    let go k :=
      (eexists; split;
       [eapply (list_elem_of_lookup_2 rules k); reflexivity
       |repeat split; reflexivity]) in
    first [ go 3%nat | go 4%nat | go 5%nat | go 6%nat | go 7%nat
          | go 8%nat | go 9%nat | go 10%nat | go 11%nat ].
Qed.

(** C3 at a snapshot with the Fed Funds rate at 0.25 and a falling history
    of it: the analyzer's multiplier for DFF is 1.5, and the depression
    factor pushed is the configured 3.0, not 3.0 * 1.5; the probability is
    0.03 * 3.0 = 0.09. *)
Theorem depression_factor_ignores_trend :
  trendMultipliers Samples.after_low_fed_funds !! "DFF" = Some (Fin 1.5) /\
  getFactors Samples.after_low_fed_funds "depression"
    = [ {| Factor.factor := Fin 3.0;
           Factor.baseFactor := None;
           Factor.reason := "Fed Funds < 0.5%";
           Factor.trendAdjusted := None |} ] /\
  ~ Fin 3.0 =n= (Fin 3.0 * Fin 1.5)%num /\
  exists p : num,
    currentProbabilities Samples.after_low_fed_funds !! "depression" = Some p /\
    p =n= Fin 0.09.
Proof.
  split; [vm_compute; reflexivity|]. split; [vm_compute; reflexivity|].
  split; [vm_compute; discriminate|].
  eexists. split; vm_compute; reflexivity.
Qed.



(** A raw value of NaN or Infinity pushes nothing either. *)
Example invalid_raw_values :
  getFactors
    (updateProbabilities Samples.no_backend
       (Some (<["DeficitGDP" := {| raw := NaN |}]>
                (<["DXY" := {| raw := NInf |}]> ∅)))
       ProbabilityCalculator_new).2 "recession" = [] /\
  getFactors
    (updateProbabilities Samples.no_backend
       (Some (<["DeficitGDP" := {| raw := NaN |}]>
                (<["DXY" := {| raw := NInf |}]> ∅)))
       ProbabilityCalculator_new).2 "devaluation" = [].
Proof. split; vm_compute; reflexivity. Qed.

(** *** Monotonicity of the product *)

(** Every configured base factor is above 1. *)
Lemma base_factors_above_one (r : rule) :
  r ∈ rules ->
  exists q : Q, Threshold.factor (rule_threshold r) = Fin q /\ (1 < q)%Q.
Proof.
  intros Hr. repeat (apply elem_of_cons in Hr as [-> | Hr]);
    try (by apply elem_of_nil in Hr);
    eexists; (split; [reflexivity|lra]).
Qed.

Lemma product_of_factors_positive (factors : list Factor.t) :
  Forall (fun g => positive (Factor.factor g)) factors ->
  positive (product_of_factors factors).
Proof.
  unfold product_of_factors.
  assert (positive (Fin 1)) as Ha by (exists 1%Q; split; [done|lra]).
  revert Ha. generalize (Fin 1).
  induction factors as [|g l IH]; intros a Ha Hl; [done|].
  apply Forall_cons in Hl as [Hg Hl]. cbn [foldl].
  apply IH; [|done]. by apply positive_mul.
Qed.

Lemma product_of_factors_app (factors : list Factor.t) (f : Factor.t) :
  product_of_factors (factors ++ [f])
    = (product_of_factors factors * Factor.factor f)%num.
Proof. unfold product_of_factors. by rewrite foldl_app. Qed.




(* ===================================================================== *)
(** ** Classification and alerts *)
(* ===================================================================== *)

Lemma dom_RISK_THRESHOLDS : dom RISK_THRESHOLDS = dom BASE_PROBABILITIES.
Proof.
  unfold RISK_THRESHOLDS, BASE_PROBABILITIES.
  rewrite !dom_insert_L, !dom_empty_L. reflexivity.
Qed.

Ltac not_listed H :=
  repeat (apply elem_of_cons in H as [H | H]; [discriminate|]);
  apply elem_of_nil in H.

Lemma getRiskLevel_lookup (c : ProbabilityCalculator) (event : string) (p : num)
  (th : RiskThresholds.t) :
  currentProbabilities c !! event = Some p ->
  RISK_THRESHOLDS !! event = Some th ->
  getRiskLevel c event =
    if js_ge p (RiskThresholds.critical th) then "critical"
    else if js_ge p (RiskThresholds.high th) then "high"
    else if js_ge p (RiskThresholds.moderate th) then "moderate"
    else "low".
Proof.
  intros Hp Hth. unfold getRiskLevel, probability_at. by rewrite Hp, Hth.
Qed.

(** The probabilities a cycle can leave for the four events whose rules
    carry no trend adjustment. *)
Lemma plain_event_probabilities (event : string) (o : gmap string indicator)
  (c : ProbabilityCalculator) :
  let p := probability_of event (factors_for event o c) in
  (event = "depression" ->
   p ∈ [Fin 0.03; Fin (0.03 * (1 * 1.5)); Fin (0.03 * (1 * 2.0));
        Fin (0.03 * (1 * 2.0 * 1.5 * 0.7)); Fin (0.03 * (1 * 3.0));
        Fin (0.03 * (1 * 3.0 * 1.5 * 0.7)); Fin (0.03 * (1 * 3.0 * 2.0 * 0.7));
        Fin (0.03 * (1 * 3.0 * 2.0 * 1.5 * 0.5))]) /\
  (event = "reserve" -> p ∈ [Fin 0.05; Fin (0.05 * (1 * 1.5))]) /\
  (event = "default" ->
   p ∈ [Fin 0.01; Fin (0.01 * (1 * 1.5)); Fin (0.01 * (1 * 2.5));
        Fin (0.01 * (1 * 2.5 * 1.5 * 0.7)); Fin (0.01 * (1 * 3.0));
        Fin (0.01 * (1 * 3.0 * 1.5 * 0.7)); Fin (0.01 * (1 * 3.0 * 2.5 * 0.7));
        Fin (0.01 * (1 * 3.0 * 2.5 * 1.5 * 0.5))]) /\
  (event = "devaluation" ->
   p ∈ [Fin 0.20; Fin (0.20 * (1 * 1.8)); Fin (0.20 * (1 * 1.5));
        Fin (0.20 * (1 * 1.5 * 1.8 * 0.7))]).
Proof.
  cbv zeta. repeat split; intros ->; unfold factors_for;
    cbn [String.eqb Ascii.eqb Bool.eqb];
    repeat match goal with
    | |- context [emit ?b _] => destruct b; cbn [emit]
    end;
    cbn [app]; vm_compute; set_solver.
Qed.

Lemma factors_for_empty (event : string) (c : ProbabilityCalculator) :
  factors_for event ∅ c = [].
Proof.
  unfold factors_for, crosses, composite_crosses. rewrite !lookup_empty.
  cbn [emit app].
  repeat match goal with
  | |- context [String.eqb ?e ?s] => destruct (String.eqb e s)
  end; reflexivity.
Qed.

(** The probability a cycle leaves for an event is that of the factors of
    some snapshot object. *)
Lemma cycle_probability_lookup
  (analyze : snapshot -> M TrendAnalyzer (gmap string num))
  (indicators : snapshot) (c : ProbabilityCalculator) (event : string) :
  wf c ->
  event ∈ dom BASE_PROBABILITIES ->
  exists (o : gmap string indicator) (c1 : ProbabilityCalculator),
    currentProbabilities (updateProbabilities_via analyze indicators c).2 !! event
      = Some (probability_of event (factors_for event o c1)) /\
    getFactors (updateProbabilities_via analyze indicators c).2 event
      = factors_for event o c1 /\
    useTrendAnalysis c1 = useTrendAnalysis c.
Proof.
  intros Hwf Hev.
  destruct (updateProbabilities_via_result analyze indicators c Hwf)
    as (probs & _ & Hcur & _ & _ & _ & Hlook).
  assert (useTrendAnalysis (after_trends analyze indicators c) = useTrendAnalysis c)
    as Hflag.
  { unfold after_trends. destruct (useTrendAnalysis c) eqn:E; [|done].
    by destruct (analyze indicators (trendAnalyzer c)) as [[tm|e] t']. }
  destruct indicators as [o|];
    destruct (Hlook event Hev) as (factors & _ & Hget & _ & Hp & ->);
    rewrite Hcur, Hp, Hget.
  - exists o, (after_trends analyze (Some o) c).
    split; [reflexivity|split; [reflexivity|exact Hflag]].
  - exists ∅, (after_trends analyze None c). rewrite factors_for_empty.
    split; [reflexivity|split; [reflexivity|exact Hflag]].
Qed.

Ltac level_cases Hin :=
  repeat (apply elem_of_cons in Hin as [-> | Hin]);
  [ .. | by apply elem_of_nil in Hin ];
  vm_compute; set_solver.


Lemma critical_thresholds_agree (event : string) :
  event ∈ dom BASE_PROBABILITIES ->
  exists th : RiskThresholds.t,
    RISK_THRESHOLDS !! event = Some th /\
    RiskThresholds.critical th = UIManager.threshold_or_default event.
Proof.
  intros H. apply event_cases in H as [-> | [-> | [-> | [-> | ->]]]];
    eexists; split; reflexivity.
Qed.

(** X2 (UIManager.getCriticalEvents, ProbabilityCalculator.getCriticalEvents).
    On the probabilities of a calculator whose events are the five of
    config.js, the events the display rates critical are those the
    calculator rates critical, in the same order. *)
Theorem critical_events_agree (c : ProbabilityCalculator) :
  wf c ->
  UIManager.getCriticalEvents (currentProbabilities c) = getCriticalEvents c.
Proof.
  intros Hwf. unfold UIManager.getCriticalEvents, getCriticalEvents. f_equal.
  apply filter_ext_in. intros [ev p] Hin. cbn [fst snd].
  apply list_elem_of_In, elem_of_map_to_list in Hin.
  assert (ev ∈ dom BASE_PROBABILITIES) as Hev.
  { rewrite <- Hwf. by apply elem_of_dom_2 in Hin. }
  destruct (critical_thresholds_agree ev Hev) as (th & -> & ->). reflexivity.
Qed.

Lemma critical_events_agree_witness :
  wf ProbabilityCalculator_new /\
  UIManager.getCriticalEvents (currentProbabilities ProbabilityCalculator_new)
    = getCriticalEvents ProbabilityCalculator_new.
Proof.
  split; [exact wf_new|]. exact (critical_events_agree _ wf_new).
Defined.

Lemma Math_max_of_below (values : list num) (b : Q) :
  (forall v, v ∈ values -> exists q, v = Fin q /\ (q <= b)%Q) ->
  forall bound : Q, (b <= bound)%Q ->
  js_gt (UIManager.Math_max_of values) (Fin bound) = false.
Proof.
  intros Hv bound Hb. unfold UIManager.Math_max_of.
  assert (forall acc : num,
            acc = NInf \/ (exists q, acc = Fin q /\ (q <= b)%Q) ->
            js_gt (foldl Math_max acc values) (Fin bound) = false) as Hgen.
  { induction values as [|v l IH]; intros acc Hacc.
    - destruct Hacc as [-> | (q & -> & Hq)]; [done|].
      unfold js_gt. cbn. destruct (Qcompare_spec bound q); try done. lra.
    - cbn [foldl]. apply IH.
      + intros v' Hv'. apply Hv. by right.
      + destruct (Hv v) as (qv & -> & Hqv); [by left|]. right.
        destruct Hacc as [-> | (q & -> & Hq)]; cbn.
        * by exists qv.
        * destruct (Qcompare_spec q qv); eauto. }
  apply Hgen. by left.
Qed.

(** The probability of an event without trend adjustment stays under its
    critical threshold, and under 0.6. *)
Lemma plain_event_below_critical (event : string) (o : gmap string indicator)
  (c : ProbabilityCalculator) :
  event ∈ dom BASE_PROBABILITIES ->
  event <> "recession" ->
  exists q : Q,
    probability_of event (factors_for event o c) = Fin q /\
    (q <= 0.6)%Q /\
    js_ge (Fin q) (UIManager.threshold_or_default event) = false.
Proof.
  intros Hev Hne.
  apply event_cases in Hev as [-> | [-> | [-> | [-> | ->]]]]; [done|..].
  - destruct (plain_event_probabilities "depression" o c) as (Hin & _).
    specialize (Hin eq_refl). cbv zeta in Hin.
    set (p := probability_of "depression" _) in *. clearbody p.
    repeat (apply elem_of_cons in Hin as [-> | Hin]);
      [ .. | by apply elem_of_nil in Hin ];
      (eexists; split; [reflexivity|split; [vm_compute; discriminate|reflexivity]]).
  - destruct (plain_event_probabilities "reserve" o c) as (_ & Hin & _).
    specialize (Hin eq_refl). cbv zeta in Hin.
    set (p := probability_of "reserve" _) in *. clearbody p.
    repeat (apply elem_of_cons in Hin as [-> | Hin]);
      [ .. | by apply elem_of_nil in Hin ];
      (eexists; split; [reflexivity|split; [vm_compute; discriminate|reflexivity]]).
  - destruct (plain_event_probabilities "default" o c) as (_ & _ & Hin & _).
    specialize (Hin eq_refl). cbv zeta in Hin.
    set (p := probability_of "default" _) in *. clearbody p.
    repeat (apply elem_of_cons in Hin as [-> | Hin]);
      [ .. | by apply elem_of_nil in Hin ];
      (eexists; split; [reflexivity|split; [vm_compute; discriminate|reflexivity]]).
  - destruct (plain_event_probabilities "devaluation" o c) as (_ & _ & _ & Hin).
    specialize (Hin eq_refl). cbv zeta in Hin.
    set (p := probability_of "devaluation" _) in *. clearbody p.
    repeat (apply elem_of_cons in Hin as [-> | Hin]);
      [ .. | by apply elem_of_nil in Hin ];
      (eexists; split; [reflexivity|split; [vm_compute; discriminate|reflexivity]]).
Qed.




(* ===================================================================== *)
(** ** What a cycle depends on *)
(* ===================================================================== *)

Lemma applyTrendAdjustment_off (baseFactor : num) (seriesId : string)
  (c : ProbabilityCalculator) :
  useTrendAnalysis c = false ->
  applyTrendAdjustment baseFactor seriesId c = baseFactor.
Proof.
  intros H. unfold applyTrendAdjustment. rewrite H.
  by destruct (trendMultipliers c !! seriesId).
Qed.

Lemma factors_for_ext_flag (event : string) (o : gmap string indicator)
  (c c' : ProbabilityCalculator) :
  useTrendAnalysis c = useTrendAnalysis c' ->
  (useTrendAnalysis c = true -> trendMultipliers c = trendMultipliers c') ->
  factors_for event o c = factors_for event o c'.
Proof.
  intros Hflag Htm. destruct (useTrendAnalysis c) eqn:E.
  - apply factors_for_ext; [by apply Htm|by rewrite E].
  - unfold factors_for, adjusted_entry.
    rewrite !(applyTrendAdjustment_off _ _ c) by done.
    rewrite !(applyTrendAdjustment_off _ _ c') by done. reflexivity.
Qed.

(** The state a cycle leaves besides the probabilities. *)
Lemma updateProbabilities_via_state
  (analyze : snapshot -> M TrendAnalyzer (gmap string num))
  (indicators : snapshot) (c : ProbabilityCalculator) :
  wf c ->
  let r := updateProbabilities_via analyze indicators c in
  let c1 := after_trends analyze indicators c in
  trendAnalyzer r.2 = trendAnalyzer c1 /\
  trendMultipliers r.2 = trendMultipliers c1 /\
  useTrendAnalysis r.2 = useTrendAnalysis c /\
  updateFactors r.2 =
    match indicators with
    | Some o => factors_map o c1
    | None => no_factors
    end.
Proof.
  intros Hwf r c1.
  assert (useTrendAnalysis c1 = useTrendAnalysis c) as Hflag.
  { subst c1. unfold after_trends. destruct (useTrendAnalysis c) eqn:E; [|done].
    by destruct (analyze indicators (trendAnalyzer c)) as [[tm|e] t']. }
  destruct indicators as [o|].
  - destruct (updateProbabilities_via_object analyze o c Hwf)
      as (probs & Hrun & _).
    subst r. rewrite Hrun. by cbn.
  - subst r. rewrite updateProbabilities_via_undefined. cbn.
    repeat split; try done. subst c1. apply after_trends_updateFactors.
Qed.

Lemma factors_map_ext (o : gmap string indicator) (c c' : ProbabilityCalculator) :
  (forall event, factors_for event o c = factors_for event o c') ->
  factors_map o c = factors_map o c'.
Proof. intros H. unfold factors_map. by rewrite !H. Qed.



(** With the flag off every factor is the configured factor of a rule. *)
Lemma factors_for_off (event : string) (o : gmap string indicator)
  (c : ProbabilityCalculator) :
  useTrendAnalysis c = false ->
  Forall (fun f =>
            exists rl : rule,
              rl ∈ rules /\ rule_event rl = event /\
              Factor.reason f = Threshold.reason (rule_threshold rl) /\
              Factor.factor f = Threshold.factor (rule_threshold rl) /\
              Factor.trendAdjusted f <> Some true)
    (factors_for event o c).
Proof.
  intros Hoff. unfold factors_for, adjusted_entry.
  rewrite !(applyTrendAdjustment_off _ _ c Hoff).
  repeat match goal with
  | |- context [String.eqb ?e ?s] =>
      destruct (String.eqb_spec e s) as [->|?]
  end;
  repeat match goal with
  | |- context [emit ?b _] => destruct b; cbn [emit]
  end;
  cbn [app];
  repeat first [apply Forall_nil_2 | apply Forall_cons_2];
  cbn [Factor.factor Factor.reason Factor.trendAdjusted plain_entry].
  all:
    let go k :=
      (eexists; split;
       [eapply (list_elem_of_lookup_2 rules k); reflexivity
       |split; [reflexivity|split; [reflexivity|split;
          [reflexivity|vm_compute; discriminate]]]]) in
    first [ go 0%nat | go 1%nat | go 2%nat | go 3%nat | go 4%nat
          | go 5%nat | go 6%nat | go 7%nat | go 8%nat | go 9%nat
          | go 10%nat | go 11%nat ].
Qed.

(** X5 (setTrendAnalysis, updateProbabilities, applyTrendAdjustment).  With
    trend analysis switched off the analyzer is not run: its state and
    the stored multipliers stay as they are, the result is the same whatever
    the analyzer would do, and every factor pushed is the configured factor
    of its rule. *)
Theorem trend_analysis_disabled
  (analyze analyze' : snapshot -> M TrendAnalyzer (gmap string num))
  (indicators : snapshot) (c : ProbabilityCalculator) :
  wf c ->
  let c0 := setTrendAnalysis false c in
  let r := updateProbabilities_via analyze indicators c0 in
  r.1 = (updateProbabilities_via analyze' indicators c0).1 /\
  trendAnalyzer r.2 = trendAnalyzer c /\
  trendMultipliers r.2 = trendMultipliers c /\
  forall (event : string) (f : Factor.t),
    f ∈ getFactors r.2 event ->
    exists rl : rule,
      rl ∈ rules /\ rule_event rl = event /\
      Factor.reason f = Threshold.reason (rule_threshold rl) /\
      Factor.factor f = Threshold.factor (rule_threshold rl) /\
      Factor.trendAdjusted f <> Some true.
Proof.
  intros Hwf c0 r.
  assert (wf c0) as Hwf0 by exact Hwf.
  assert (forall an, after_trends an indicators c0 = set_updateFactors no_factors c0)
    as Hafter by reflexivity.
  destruct (updateProbabilities_via_state analyze indicators c0 Hwf0)
    as (Hta & Htm & _ & Huf).
  fold r in Hta, Htm, Huf. rewrite Hafter in Hta, Htm, Huf.
  split; [|split; [exact Hta|split; [exact Htm|]]].
  - destruct (updateProbabilities_via_result analyze indicators c0 Hwf0)
      as (probs & Hr & _ & Hdom & _ & _ & Hev).
    destruct (updateProbabilities_via_result analyze' indicators c0 Hwf0)
      as (probs' & -> & _ & Hdom' & _ & _ & Hev').
    fold r in Hr. rewrite Hr. f_equal. apply map_eq. intros event.
    destruct (decide (event ∈ dom BASE_PROBABILITIES)) as [Hin|Hout].
    + destruct (Hev event Hin) as (factors & _ & _ & _ & -> & Hf).
      destruct (Hev' event Hin) as (factors' & _ & _ & _ & -> & Hf').
      do 2 f_equal. destruct indicators as [o|]; [|congruence].
      by rewrite Hf, Hf', !Hafter.
    + assert (probs !! event = None) as ->
        by (apply not_elem_of_dom; by rewrite Hdom).
      symmetry. apply not_elem_of_dom. by rewrite Hdom'.
  - intros event f. unfold getFactors. rewrite Huf.
    destruct indicators as [o|].
    + set (c1 := set_updateFactors no_factors c0).
      destruct (decide (event ∈ dom BASE_PROBABILITIES)) as [Hin|Hout].
      * rewrite factors_map_lookup by done. cbn [default from_option id].
        intros Hf.
        pose proof (factors_for_off event o c1 eq_refl) as Hall.
        rewrite Forall_forall in Hall. by apply Hall.
      * rewrite <- (dom_factors_map o c1) in Hout.
        apply not_elem_of_dom in Hout as ->. cbn.
        intros Hf. by apply elem_of_nil in Hf.
    + destruct (no_factors !! event) as [l|] eqn:E; cbn.
      * assert (l = []) as ->.
        { revert E. unfold no_factors.
          repeat (rewrite lookup_insert; case_decide; [by intros [= <-]|]).
          by rewrite lookup_empty. }
        intros Hf. by apply elem_of_nil in Hf.
      * intros Hf. by apply elem_of_nil in Hf.
Qed.

Lemma trend_analysis_disabled_witness :
  wf Samples.after_three_triggers /\
  trendMultipliers
    (updateProbabilities_via (analyzeAllTrends Samples.fed_funds_backend)
       (Some Samples.three_triggers)
       (setTrendAnalysis false Samples.after_three_triggers)).2
    = trendMultipliers Samples.after_three_triggers.
Proof.
  assert (wf Samples.after_three_triggers) as Hwf by (vm_compute; reflexivity).
  split; [exact Hwf|].
  exact (proj1 (proj2 (proj2
    (trend_analysis_disabled (analyzeAllTrends Samples.fed_funds_backend)
       Samples.silent_analyzer (Some Samples.three_triggers)
       Samples.after_three_triggers Hwf)))).
Defined.

(* ===================================================================== *)
(** ** Probabilities without trend adjustment *)
(* ===================================================================== *)

Ltac in_list := repeat (apply elem_of_cons; first [left; reflexivity | right]).

(** Refute an inclusion of reasons whose left list has an entry with a
    reason the right list lacks. *)
Ltac refute_inclusion Hsub :=
  exfalso;
  match type of Hsub with
  | forall f, f ∈ ?l -> _ =>
      let rec go l' :=
        lazymatch l' with
        | ?x :: ?rest =>
            first
              [ solve
                  [ let f' := fresh "f'" in
                    let Hin := fresh "Hin" in
                    let Hr := fresh "Hr" in
                    destruct (Hsub x ltac:(in_list)) as (f' & Hin & Hr);
                    repeat (apply elem_of_cons in Hin as [-> | Hin];
                            [discriminate Hr|]);
                    by apply elem_of_nil in Hin ]
              | go rest ]
        end in
      go l
  end.

(** Without trend adjustment, the factors of a snapshot whose triggered
    rules include those of another give at least its probability,
    correlation discount included, and never less than the base prior. *)
Lemma rules_inclusion_monotone (event : string) (basePrior : num)
  (o o' : gmap string indicator) (c : ProbabilityCalculator) :
  BASE_PROBABILITIES !! event = Some basePrior ->
  useTrendAnalysis c = false \/ event <> "recession" ->
  js_le basePrior (probability_of event (factors_for event o' c)) = true /\
  ((forall f : Factor.t,
      f ∈ factors_for event o c ->
      exists f' : Factor.t,
        f' ∈ factors_for event o' c /\ Factor.reason f' = Factor.reason f) ->
   js_le (probability_of event (factors_for event o c))
         (probability_of event (factors_for event o' c)) = true).
Proof.
  intros Hprior Hcase.
  assert (factors_for event o c =
          factors_for event o (setTrendAnalysis false c) /\
          factors_for event o' c =
          factors_for event o' (setTrendAnalysis false c)) as [-> ->].
  { destruct Hcase as [Hoff|Hne].
    - split; apply factors_for_ext_flag; cbn; congruence.
    - unfold factors_for.
      destruct (String.eqb_spec event "recession") as [?|_]; [done|]. done. }
  assert (useTrendAnalysis (setTrendAnalysis false c) = false) as Hoff
    by reflexivity.
  generalize dependent (setTrendAnalysis false c). clear c Hcase.
  intros c Hoff.
  apply BASE_PROBABILITIES_cases in Hprior
    as [[-> ->]|[[-> ->]|[[-> ->]|[[-> ->]|[-> ->]]]]];
    unfold factors_for, adjusted_entry;
    rewrite ?(applyTrendAdjustment_off _ _ c Hoff);
    cbn [String.eqb Ascii.eqb Bool.eqb];
    repeat match goal with
    | |- context [emit ?b _] => destruct b; cbn [emit]
    end;
    cbn [app];
    (split; [vm_compute; reflexivity|]);
    intros Hsub;
    first [ vm_compute; reflexivity | refute_inclusion Hsub ].
Qed.

(** Where no trend adjustment applies, the factors of an event are those of
    the snapshot alone. *)
Lemma factors_for_plain (event : string) (o : gmap string indicator)
  (c c' : ProbabilityCalculator) :
  (useTrendAnalysis c = false /\ useTrendAnalysis c' = false)
  \/ event <> "recession" ->
  factors_for event o c = factors_for event o c'.
Proof.
  intros [[Hoff Hoff']|Hne].
  - apply factors_for_ext_flag; congruence.
  - unfold factors_for.
    destruct (String.eqb_spec event "recession") as [?|_]; [done|]. done.
Qed.



(* ===================================================================== *)
(** ** Histories and multipliers of a cycle *)
(* ===================================================================== *)

Lemma fetch_all_lookup (b : backend) (ids : list string) (t : TrendAnalyzer) :
  exists t' : TrendAnalyzer,
    for_of (fetchHistoricalData b) ids t = (Returned tt, t') /\
    forall id : string,
      historicalData t' !! id =
        if decide (id ∈ ids) then
          match b id with
          | Some observations => Some (kept observations)
          | None => historicalData t !! id
          end
        else historicalData t !! id.
Proof.
  revert t. induction ids as [|i ids IH]; intros t.
  - exists t. split; [done|]. intros id. by rewrite decide_False by apply not_elem_of_nil.
  - cbn [for_of].
    destruct (b i) as [observations|] eqn:Hb.
    + set (t1 := {| historicalData :=
                      <[i := kept observations]> (historicalData t) |}).
      assert (fetchHistoricalData b i t = (Returned tt, t1)) as Hstep.
      { unfold fetchHistoricalData. by rewrite Hb. }
      destruct (IH t1) as (t' & Hrun & Hlook).
      exists t'. split.
      { by eapply bind_returned. }
      intros id. rewrite Hlook. subst t1. cbn [historicalData].
      destruct (decide (id ∈ ids)) as [Hin|Hin].
      * rewrite decide_True by (apply elem_of_cons; by right).
        destruct (b id) eqn:E; [done|].
        rewrite lookup_insert_ne; [done|]. intros ->. congruence.
      * destruct (decide (id = i)) as [->|Hne].
        -- rewrite decide_True by (apply elem_of_cons; by left).
           by rewrite lookup_insert_eq, Hb.
        -- rewrite decide_False
             by (intros [?|?]%elem_of_cons; congruence).
           by rewrite lookup_insert_ne.
    + assert (fetchHistoricalData b i t = (Returned tt, t)) as Hstep.
      { unfold fetchHistoricalData. by rewrite Hb. }
      destruct (IH t) as (t' & Hrun & Hlook).
      exists t'. split.
      { by eapply bind_returned. }
      intros id. rewrite Hlook.
      destruct (decide (id ∈ ids)) as [Hin|Hin].
      * by rewrite decide_True by (apply elem_of_cons; by right).
      * destruct (decide (id = i)) as [->|Hne].
        -- rewrite decide_True by (apply elem_of_cons; by left).
           by rewrite Hb.
        -- by rewrite decide_False
             by (intros [?|?]%elem_of_cons; congruence).
Qed.

Lemma multipliers_fold_lookup (t : TrendAnalyzer) (ids : list string)
  (acc : gmap string num) (id : string) :
  is_Some
    (foldl (fun trendMultipliers seriesId =>
              match historicalData t !! seriesId with
              | Some _ =>
                  <[seriesId :=
                      getTrendMultiplier t seriesId
                        (bool_decide (seriesId ∈ invertedIndicators))]>
                    trendMultipliers
              | None => trendMultipliers
              end) acc ids !! id)
  <-> is_Some (acc !! id) \/ (id ∈ ids /\ is_Some (historicalData t !! id)).
Proof.
  revert acc. induction ids as [|i ids IH]; intros acc; cbn [foldl].
  - split; [by left|]. intros [H|[H _]]; [done|]. by apply elem_of_nil in H.
  - rewrite IH. rewrite elem_of_cons.
    destruct (historicalData t !! i) as [data|] eqn:Hi.
    + destruct (decide (id = i)) as [->|Hne].
      * rewrite lookup_insert_eq, Hi. split; [|by left].
        intros _. right. split; [by left|done].
      * rewrite lookup_insert_ne by done. split.
        -- intros [H|[H1 H2]]; [by left|]. right. split; [by right|done].
        -- intros [H|[[H1|H1] H2]]; [by left|congruence|]. right. by split.
    + split.
      * intros [H|[H1 H2]]; [by left|]. right. split; [by right|done].
      * intros [H|[[H1|H1] H2]]; [by left| |].
        -- subst id. rewrite Hi in H2. by destruct H2.
        -- right. by split.
Qed.

Lemma elem_of_series_ids (o : gmap string indicator) (id : string) :
  id ∈ List.filter (fun id => negb (bool_decide (id = "DXY"))) (keys o)
  <-> is_Some (o !! id) /\ id <> "DXY".
Proof.
  rewrite list_elem_of_In, filter_In, <- list_elem_of_In, elem_of_keys.
  rewrite negb_true_iff, bool_decide_eq_false. done.
Qed.


(** A snapshot that is not an object makes the trend analysis throw before
    any fetch. *)
Lemma analyzeAllTrends_undefined (b : backend) (t : TrendAnalyzer) :
  analyzeAllTrends b None t = (Thrown TypeError, t).
Proof. reflexivity. Qed.

Lemma kept_numeric (observations : list Obs.t) :
  Forall (fun obs => isNaN (Obs.value obs) = false) (kept observations).
Proof.
  apply Forall_forall. intros obs Hin. unfold kept in Hin.
  apply list_elem_of_In, filter_In in Hin as [_ H]. by apply negb_true_iff in H.
Qed.

(** X8 (fetchHistoricalData, clearCache, analyzeAllTrends).  No history the
    analyzer holds ever contains NaN: a new analyzer and a
    cleared one hold none, and a trend analysis keeps it so, whatever the
    backend answers. *)
Theorem histories_stay_numeric (b : backend) (indicators : snapshot)
  (t : TrendAnalyzer) :
  histories_numeric TrendAnalyzer_new /\
  histories_numeric (clearCache t) /\
  (histories_numeric t ->
   histories_numeric (analyzeAllTrends b indicators t).2).
Proof.
  split; [|split].
  - intros id data H. unfold TrendAnalyzer_new in H. cbn [historicalData] in H.
    by rewrite lookup_empty in H.
  - intros id data H. unfold clearCache in H. cbn [historicalData] in H.
    by rewrite lookup_empty in H.
  - intros Hnum. destruct indicators as [o|]; [|exact Hnum].
    unfold analyzeAllTrends.
    cbv beta iota zeta delta [mbind M_bind mret M_ret deref get].
    destruct (fetch_all_lookup b
                (List.filter (fun id => negb (bool_decide (id = "DXY"))) (keys o)) t)
      as (t' & -> & Hlook).
    cbn [snd]. intros id data. rewrite Hlook.
    destruct (decide _); [|apply Hnum]. destruct (b id); [|apply Hnum].
    intros [= <-]. apply kept_numeric.
Qed.

Lemma histories_stay_numeric_witness :
  histories_numeric TrendAnalyzer_new /\
  histories_numeric
    (analyzeAllTrends Samples.fed_funds_backend (Some Samples.low_fed_funds)
       TrendAnalyzer_new).2.
Proof.
  destruct (histories_stay_numeric Samples.fed_funds_backend
              (Some Samples.low_fed_funds) TrendAnalyzer_new) as (H0 & _ & H).
  split; [exact H0|]. exact (H H0).
Defined.
(* ===================================================================== *)
(** ** Velocity, acceleration and flat series *)
(* ===================================================================== *)

Lemma inject_nat_S (n : nat) :
  (inject_Z (Z.of_nat (S n)) == inject_Z (Z.of_nat n) + 1)%Q.
Proof. rewrite Nat2Z.inj_succ. unfold Z.succ. by rewrite inject_Z_plus. Qed.

Lemma inject_nat_le (m n : nat) :
  (m <= n)%nat -> (inject_Z (Z.of_nat m) <= inject_Z (Z.of_nat n))%Q.
Proof. intros H. rewrite <- Zle_Qle. lia. Qed.

(** A sum over x = 0 .. n-1 whose partial sums have the closed form [F]. *)
Lemma sum_closed_form (g F : nat -> Q) :
  (F 0%nat == 0)%Q ->
  (forall n, F (S n) == F n + g n)%Q ->
  forall (n : nat) (a : Q),
    foldr js_add (Fin a) ((fun i => Fin (g i)) <$> seq 0 n) =n= Fin (F n + a).
Proof.
  intros H0 HS n. induction n as [|n IH]; intros a.
  - simpl. rewrite H0. ring.
  - rewrite seq_S, fmap_app, foldr_app. cbn [fmap list_fmap foldr js_add Nat.add].
    rewrite IH. simpl. rewrite HS. ring.
Qed.

Lemma sum_replicate (n : nat) (c : Q) :
  Spec.sum (replicate n (Fin c)) =n= Fin (inject_Z (Z.of_nat n) * c).
Proof.
  unfold Spec.sum. induction n as [|n IH].
  - simpl. ring.
  - cbn [replicate foldr].
    transitivity (Fin c + Fin (inject_Z (Z.of_nat n) * c))%num.
    + by apply js_add_proper.
    + simpl. rewrite inject_nat_S. ring.
Qed.

Lemma zip_xs_replicate (c : Q) (start n : nat) :
  zip_with js_mul (of_nat <$> seq start n) (replicate n (Fin c))
  = (fun i => Fin (inject_Z (Z.of_nat i) * c)) <$> seq start n.
Proof.
  revert start. induction n as [|n IH]; intros start; [done|].
  cbn [seq fmap list_fmap replicate zip_with]. f_equal. apply IH.
Qed.

Lemma zip_xs_xs (start n : nat) :
  zip_with js_mul (of_nat <$> seq start n) (of_nat <$> seq start n)
  = (fun i => Fin (inject_Z (Z.of_nat i) * inject_Z (Z.of_nat i))) <$> seq start n.
Proof.
  revert start. induction n as [|n IH]; intros start; [done|].
  cbn [seq fmap list_fmap zip_with]. f_equal. apply IH.
Qed.

Lemma sum_xs (n : nat) :
  Spec.sum (Spec.xs n)
  =n= Fin (inject_Z (Z.of_nat n) * (inject_Z (Z.of_nat n) - 1) / 2).
Proof.
  unfold Spec.sum, Spec.xs, of_nat.
  rewrite (sum_closed_form (fun i => inject_Z (Z.of_nat i))
             (fun n => inject_Z (Z.of_nat n) * (inject_Z (Z.of_nat n) - 1) / 2)%Q).
  - simpl. ring.
  - change (inject_Z (Z.of_nat 0)) with 0%Q. field.
  - intros k. rewrite inject_nat_S. field.
Qed.

Lemma sum_xs_squared (n : nat) :
  Spec.sum (zip_with js_mul (Spec.xs n) (Spec.xs n))
  =n= Fin ((inject_Z (Z.of_nat n) - 1) * inject_Z (Z.of_nat n)
           * (2 * inject_Z (Z.of_nat n) - 1) / 6).
Proof.
  unfold Spec.sum, Spec.xs. rewrite zip_xs_xs.
  rewrite (sum_closed_form
             (fun i => inject_Z (Z.of_nat i) * inject_Z (Z.of_nat i))%Q
             (fun n => (inject_Z (Z.of_nat n) - 1) * inject_Z (Z.of_nat n)
                       * (2 * inject_Z (Z.of_nat n) - 1) / 6)%Q).
  - simpl. ring.
  - change (inject_Z (Z.of_nat 0)) with 0%Q. field.
  - intros k. rewrite inject_nat_S. field.
Qed.

Lemma sum_xs_flat (n : nat) (c : Q) :
  Spec.sum (zip_with js_mul (Spec.xs n) (replicate n (Fin c)))
  =n= Fin (c * (inject_Z (Z.of_nat n) * (inject_Z (Z.of_nat n) - 1) / 2)).
Proof.
  unfold Spec.sum, Spec.xs. rewrite zip_xs_replicate.
  rewrite (sum_closed_form
             (fun i => inject_Z (Z.of_nat i) * c)%Q
             (fun n => c * (inject_Z (Z.of_nat n) * (inject_Z (Z.of_nat n) - 1) / 2))%Q).
  - simpl. ring.
  - change (inject_Z (Z.of_nat 0)) with 0%Q. field.
  - intros k. rewrite inject_nat_S. field.
Qed.

Lemma js_div_Fin (a b : Q) :
  ~ (b == 0)%Q -> (Fin a / Fin b)%num = Fin (a / b).
Proof.
  intros Hb. unfold js_div. destruct (Qeq_bool b 0) eqn:E; [|done].
  by apply Qeq_bool_iff in E.
Qed.

Lemma sum_pointwise (l k : list num) :
  Forall2 num_eq l k -> Spec.sum l =n= Spec.sum k.
Proof.
  unfold Spec.sum. induction 1 as [|x y l k Hxy _ IH]; [reflexivity|].
  cbn [foldr]. by apply js_add_proper.
Qed.

Lemma zip_mul_pointwise (x l k : list num) :
  Forall2 num_eq l k ->
  Forall2 num_eq (zip_with js_mul x l) (zip_with js_mul x k).
Proof.
  intros H. revert x. induction H as [|a b l k Hab _ IH]; intros [|x0 x];
    cbn [zip_with]; try constructor.
  - by apply js_mul_proper.
  - apply IH.
Qed.

Lemma normalized_slope_pointwise (l k : list num) :
  Forall2 num_eq l k ->
  Spec.normalized_slope l =n= Spec.normalized_slope k.
Proof.
  intros H. unfold Spec.normalized_slope, Spec.ols_slope, Spec.mean.
  rewrite (Forall2_length _ _ _ H).
  rewrite (sum_pointwise _ _ H).
  by rewrite (sum_pointwise _ _ (zip_mul_pointwise (Spec.xs (length k)) _ _ H)).
Qed.

(** The least-squares line through n >= 2 equal non-zero values is flat. *)
Lemma flat_normalized_slope (n : nat) (c : Q) :
  (2 <= n)%nat -> ~ (c == 0)%Q ->
  Spec.normalized_slope (replicate n (Fin c)) =n= Fin 0.
Proof.
  intros Hn Hc.
  unfold Spec.normalized_slope, Spec.ols_slope, Spec.mean.
  rewrite length_replicate.
  rewrite sum_xs_flat, sum_xs_squared, sum_xs, sum_replicate.
  unfold of_nat. set (N := inject_Z (Z.of_nat n)).
  assert (2 <= N)%Q as HN.
  { change 2%Q with (inject_Z (Z.of_nat 2)). by apply inject_nat_le. }
  cbn [js_mul js_sub js_add js_neg].
  set (D := (N * ((N - 1) * N * (2 * N - 1) / 6)
             + - (N * (N - 1) / 2 * (N * (N - 1) / 2)))%Q).
  assert (~ (D == 0)%Q) as HD.
  { assert (D == N * N * ((N - 1) * (N + 1)) / 12)%Q as -> by (unfold D; field).
    assert (0 < N * N)%Q by nra.
    assert (0 < (N - 1) * (N + 1))%Q by nra.
    assert (0 < N * N * ((N - 1) * (N + 1)))%Q as HX by nra.
    revert HX. generalize (N * N * ((N - 1) * (N + 1)))%Q. intros X HX E.
    assert (X == X / 12 * 12)%Q as HX' by field.
    rewrite E in HX'. lra. }
  assert (~ (N == 0)%Q) as HN0 by lra.
  assert (~ (N * c / N == 0)%Q) as Hmean.
  { intros E. apply Hc. rewrite <- E. by field. }
  rewrite (js_div_Fin _ D HD), (js_div_Fin _ N HN0), (js_div_Fin _ _ Hmean).
  simpl. field. auto.
Qed.

Lemma flat_oldest_to_newest (data : list Obs.t) (c : Q) :
  (forall obs, obs ∈ data -> Obs.value obs =n= Fin c) ->
  Forall2 num_eq (Spec.oldest_to_newest data) (replicate (length data) (Fin c)).
Proof.
  intros H. unfold Spec.oldest_to_newest.
  rewrite <- (reverse_replicate (length data) (Fin c)).
  apply Forall2_reverse.
  induction data as [|o data IH]; [constructor|].
  cbn [fmap list_fmap length replicate]. constructor.
  - apply H. by left.
  - apply IH. intros obs Hobs. apply H. by right.
Qed.

(** The velocity formula on two equal non-zero endpoints. *)
Lemma flat_velocity (newest oldest : num) (c : Q) (n : nat) :
  newest =n= Fin c -> oldest =n= Fin c -> ~ (c == 0)%Q -> (2 <= n)%nat ->
  Spec.velocity newest oldest n =n= Fin 0.
Proof.
  intros Hnew Hold Hc Hn. unfold Spec.velocity, of_nat. rewrite Hnew, Hold.
  assert (1 <= inject_Z (Z.of_nat (n - 1)))%Q as HN.
  { change 1%Q with (inject_Z (Z.of_nat 1)). apply inject_nat_le. lia. }
  cbn [js_sub js_add js_neg].
  rewrite (js_div_Fin _ c Hc). cbn [js_mul].
  rewrite js_div_Fin by lra.
  simpl. field. split; first [done | lra].
Qed.

(** The helper never throws: the endpoints of a window of two points or more
    exist. *)
Lemma subset_velocity_endpoints (data : list Obs.t) :
  (2 <= length data)%nat ->
  exists newest oldest : Obs.t,
    head data = Some newest /\ last data = Some oldest /\
    _calculateSubsetVelocity data
      = Returned (Spec.velocity (Obs.value newest) (Obs.value oldest)
                    (length data)).
Proof.
  intros Hn. unfold _calculateSubsetVelocity.
  destruct (Nat.ltb_spec (length data) 2) as [|_]; [lia|].
  destruct data as [|newest rest]; [simpl in Hn; lia|].
  destruct (last (newest :: rest)) as [oldest|] eqn:Hlast;
    [|by apply last_None in Hlast].
  exists newest, oldest. split; [done|]. split; [done|].
  unfold value_at, Spec.velocity. rewrite last_lookup in Hlast.
  cbn [length Nat.pred] in *.
  replace (S (length rest) - 1)%nat with (length rest) by lia.
  rewrite Hlast. reflexivity.
Qed.

Lemma subset_velocity_is_velocity (seriesId : string) (data : list Obs.t) :
  _calculateSubsetVelocity data
  = Returned (calculateVelocity {| historicalData := {[ seriesId := data ]} |}
                seriesId).
Proof.
  unfold calculateVelocity, _calculateSubsetVelocity.
  cbn [historicalData]. rewrite lookup_singleton_eq.
  destruct (Nat.ltb_spec (length data) 2) as [|Hn]; [done|].
  destruct data as [|newest rest]; [simpl in Hn; lia|].
  unfold value_at. cbn [lookup list_lookup].
  destruct ((newest :: rest) !! (length (newest :: rest) - 1)%nat) as [oldest|] eqn:Hlast.
  - reflexivity.
  - apply lookup_ge_None in Hlast. simpl in Hlast, Hn. lia.
Qed.

Lemma half_lengths (n : nat) :
  (6 <= n)%nat -> (3 <= n / 2)%nat /\ (3 <= n - n / 2)%nat /\ (n / 2 <= n)%nat.
Proof.
  intros Hn.
  assert (n = 2 * (n / 2) + n mod 2)%nat as H by apply Nat.div_mod_eq.
  assert (n mod 2 < 2)%nat by (apply Nat.mod_upper_bound; lia).
  lia.
Qed.



(** X10 (calculateAcceleration, _calculateSubsetVelocity).  Below six points
    the acceleration is 0.  From six points on the try block never fails and
    the acceleration is the velocity of the recent half minus the velocity
    of the older half, each computed as [calculateVelocity] computes it on
    that half alone; the halves are the first floor(n/2) observations and
    the rest, both of three points or more. *)
Theorem acceleration_is_velocity_difference (t : TrendAnalyzer)
  (seriesId : string) (data : list Obs.t) :
  historicalData t !! seriesId = Some data ->
  let midpoint := (length data / 2)%nat in
  let recent := {| historicalData := {[ seriesId := take midpoint data ]} |} in
  let older := {| historicalData := {[ seriesId := drop midpoint data ]} |} in
  ((length data < 6)%nat -> calculateAcceleration t seriesId = Fin 0) /\
  ((6 <= length data)%nat ->
     calculateAcceleration t seriesId
       = (calculateVelocity recent seriesId - calculateVelocity older seriesId)%num /\
     (3 <= length (take midpoint data))%nat /\
     (3 <= length (drop midpoint data))%nat).
Proof.
  intros Hdata midpoint recent older. unfold calculateAcceleration.
  rewrite Hdata. split; intros Hn.
  - by destruct (Nat.ltb_spec (length data) 6) as [_|]; [|lia].
  - destruct (Nat.ltb_spec (length data) 6) as [|_]; [lia|].
    destruct (half_lengths _ Hn) as (Hmid & Hrest & Hle).
    split; [|split; [rewrite length_take; lia | rewrite length_drop; lia]].
    cbv zeta.
    rewrite (subset_velocity_is_velocity seriesId (take _ _)),
      (subset_velocity_is_velocity seriesId (drop _ _)).
    reflexivity.
Qed.

Lemma acceleration_is_velocity_difference_witness :
  calculateAcceleration
    {| historicalData := {[ "VIXCLS" := Samples.series [30; 27; 24; 20; 20; 16]%Q ]} |}
    "VIXCLS"
  = (calculateVelocity
       {| historicalData := {[ "VIXCLS" := Samples.series [30; 27; 24]%Q ]} |} "VIXCLS"
     - calculateVelocity
         {| historicalData := {[ "VIXCLS" := Samples.series [20; 20; 16]%Q ]} |} "VIXCLS")%num.
Proof.
  pose proof (acceleration_is_velocity_difference
    {| historicalData := {[ "VIXCLS" := Samples.series [30; 27; 24; 20; 20; 16]%Q ]} |}
    "VIXCLS" (Samples.series [30; 27; 24; 20; 20; 16]%Q) eq_refl) as [_ H].
  destruct H as [H _]; [simpl; lia|]. exact H.
Defined.
(* ===================================================================== *)
(** ** Comparisons, percentage change, the dollar index, the level table *)
(* ===================================================================== *)

Lemma checkThreshold_valid (a b : Q) (operator : string) :
  checkThreshold (Fin a) (Fin b) operator
  = if String.eqb operator ">" then js_gt (Fin a) (Fin b)
    else if String.eqb operator "<" then js_lt (Fin a) (Fin b)
    else if String.eqb operator ">=" then js_ge (Fin a) (Fin b)
    else if String.eqb operator "<=" then js_le (Fin a) (Fin b)
    else if String.eqb operator "==" then js_eq (Fin a) (Fin b)
    else false.
Proof. reflexivity. Qed.

(** X11 (checkThreshold).  On two finite operands the five operators are
    those of a total order: exactly one of <, == and > holds, >= is the
    negation of < and <= the negation of >.  With an operand that is NaN or
    infinite every operator answers false (so Infinity > 3 is false here),
    and so does every operator outside the five. *)
Theorem checkThreshold_operators (value threshold : num) :
  (isFinite value = true -> isFinite threshold = true ->
     checkThreshold value threshold ">=" = negb (checkThreshold value threshold "<") /\
     checkThreshold value threshold "<=" = negb (checkThreshold value threshold ">") /\
     checkThreshold value threshold "=="
       = negb (checkThreshold value threshold "<")
         && negb (checkThreshold value threshold ">") /\
     (checkThreshold value threshold "<" && checkThreshold value threshold ">") = false) /\
  (isFinite value = false \/ isFinite threshold = false ->
     forall operator, checkThreshold value threshold operator = false) /\
  (forall operator, operator ∉ [">"; "<"; ">="; "<="; "=="] ->
     checkThreshold value threshold operator = false).
Proof.
  split; [|split].
  - intros Hv Ht. destruct value as [| | |a]; try discriminate.
    destruct threshold as [| | |b]; try discriminate.
    rewrite !checkThreshold_valid. cbn [String.eqb Ascii.eqb Bool.eqb].
    unfold js_ge, js_le, js_gt, js_lt, js_eq.
    destruct (Qcompare_spec a b) as [E|E|E], (Qcompare_spec b a) as [E'|E'|E'];
      try (exfalso; lra);
      (destruct (Qeq_bool a b) eqn:Eq;
       [apply Qeq_bool_iff in Eq | apply Qeq_bool_neq in Eq]);
      try (exfalso; lra); try contradiction;
      repeat split; reflexivity.
  - intros H operator. unfold checkThreshold.
    destruct H as [H|H].
    + by destruct value.
    + destruct value; try done. by destruct threshold.
  - intros operator Hop. unfold checkThreshold.
    assert (forall s, s ∈ [">"; "<"; ">="; "<="; "=="] -> String.eqb operator s = false)
      as Hne.
    { intros s Hs. apply String.eqb_neq. intros ->. contradiction. }
    destruct (validateNumber value) as [v|]; [|done].
    destruct (validateNumber threshold) as [th|]; [|done].
    cbn [mbind outcome_bind mret outcome_ret try_catch].
    rewrite !Hne; [done|..]; set_solver.
Qed.

Lemma checkThreshold_operators_witness :
  checkThreshold (Fin 3.5) (Fin 3.5) ">=" = negb (checkThreshold (Fin 3.5) (Fin 3.5) "<") /\
  (forall operator, checkThreshold PInf (Fin 3) operator = false) /\
  checkThreshold (Fin 4) (Fin 3) "!=" = false.
Proof.
  split; [|split].
  - destruct (checkThreshold_operators (Fin 3.5) (Fin 3.5)) as [H _].
    destruct H as [H _]; [reflexivity|reflexivity|]. exact H.
  - destruct (checkThreshold_operators PInf (Fin 3)) as (_ & H & _).
    apply H. by left.
  - destruct (checkThreshold_operators (Fin 4) (Fin 3)) as (_ & _ & H).
    apply H. intros Hin. by not_listed Hin.
Defined.

Lemma truthy_not_zero (x : num) : truthy x = true -> js_eq x (Fin 0) = false.
Proof. destruct x; try done. simpl. by destruct (Qeq_bool q 0). Qed.





Lemma levels_fold_lookup (c : ProbabilityCalculator) (events : list string)
  (levels : gmap string string) (event : string) :
  foldl (fun levels event => <[event := getRiskLevel c event]> levels)
    levels events !! event
  = if decide (event ∈ events) then Some (getRiskLevel c event)
    else levels !! event.
Proof.
  revert levels. induction events as [|e events IH]; intros levels.
  - cbn [foldl]. destruct (decide (event ∈ [])) as [H|]; [|done].
    by apply elem_of_nil in H.
  - cbn [foldl]. rewrite IH.
    destruct (decide (event ∈ events)) as [Hin|Hin].
    + rewrite decide_True; [done | by right].
    + destruct (decide (event = e)) as [->|Hne].
      * rewrite lookup_insert_eq, decide_True; [done | by left].
      * rewrite lookup_insert_ne by done. rewrite decide_False; [done|].
        intros [?|?]%elem_of_cons; contradiction.
Qed.

Lemma getRiskLevel_critical (c : ProbabilityCalculator) (event : string) :
  getRiskLevel c event = "critical"
  <-> exists th, RISK_THRESHOLDS !! event = Some th /\
        js_ge (probability_at (currentProbabilities c) event)
          (RiskThresholds.critical th) = true.
Proof.
  unfold getRiskLevel. destruct (RISK_THRESHOLDS !! event) as [th|].
  - destruct (js_ge _ (RiskThresholds.critical th)) eqn:Hc.
    + split; [by exists th | done].
    + split.
      * repeat (destruct (js_ge _ _)); discriminate.
      * intros (th' & [= <-] & H). congruence.
  - split; [discriminate | by intros (th & ? & _)].
Qed.

(** X14 (getAllRiskLevels, getRiskLevel, getCriticalEvents).  On a
    calculator as constructed or left by any cycle, the table of levels has
    exactly the five events, each with the level [getRiskLevel] gives it,
    one of critical, high, moderate and low and never unknown; and the
    critical events listed are exactly those the table rates critical. *)
Theorem risk_level_table (c : ProbabilityCalculator) :
  wf c ->
  dom (getAllRiskLevels c) = dom BASE_PROBABILITIES /\
  (forall event level,
     getAllRiskLevels c !! event = Some level ->
     level = getRiskLevel c event /\
     level ∈ ["critical"; "high"; "moderate"; "low"]) /\
  (forall event,
     event ∈ getCriticalEvents c
     <-> getAllRiskLevels c !! event = Some "critical").
Proof.
  intros Hwf.
  assert (Hlookup : forall event,
            getAllRiskLevels c !! event
            = if decide (event ∈ dom BASE_PROBABILITIES)
              then Some (getRiskLevel c event) else None).
  { intros event. unfold getAllRiskLevels. rewrite levels_fold_lookup.
    rewrite lookup_empty.
    destruct (decide (event ∈ keys (currentProbabilities c))) as [Hin|Hin];
      rewrite elem_of_keys, <- elem_of_dom, Hwf in Hin.
    - by rewrite decide_True.
    - by rewrite decide_False. }
  split; [|split].
  - apply set_eq. intros event. rewrite elem_of_dom, Hlookup.
    destruct (decide (event ∈ dom BASE_PROBABILITIES)) as [Hin|Hin].
    + split; [done | by eexists].
    + split; [by intros [? ?] | done].
  - intros event level. rewrite Hlookup.
    destruct (decide (event ∈ dom BASE_PROBABILITIES)) as [Hin|]; [|done].
    intros [= <-]. split; [done|].
    rewrite <- dom_RISK_THRESHOLDS in Hin. apply elem_of_dom in Hin as [th Hth].
    unfold getRiskLevel. rewrite Hth.
    repeat (destruct (js_ge _ _)); set_solver.
  - intros event. rewrite Hlookup. unfold getCriticalEvents.
    rewrite list_elem_of_fmap. split.
    + intros ([ev p] & -> & Hin). cbn [fst].
      apply list_elem_of_In, filter_In in Hin as [Hin Hcrit].
      apply list_elem_of_In, elem_of_map_to_list in Hin. cbn [fst snd] in Hcrit.
      rewrite decide_True by (rewrite <- Hwf; by eapply elem_of_dom_2).
      f_equal. apply getRiskLevel_critical.
      destruct (RISK_THRESHOLDS !! ev) as [th|]; [|done].
      exists th. split; [done|]. unfold probability_at. by rewrite Hin.
    + destruct (decide (event ∈ dom BASE_PROBABILITIES)) as [Hin|]; [|done].
      intros [= Hcrit]. apply getRiskLevel_critical in Hcrit as (th & Hth & Hge).
      rewrite <- Hwf in Hin. apply elem_of_dom in Hin as [p Hp].
      exists (event, p). split; [done|].
      apply list_elem_of_In, filter_In. split.
      * by apply list_elem_of_In, elem_of_map_to_list.
      * cbn [fst snd]. rewrite Hth. unfold probability_at in Hge.
        by rewrite Hp in Hge.
Qed.

Lemma risk_level_table_witness :
  wf ProbabilityCalculator_new /\
  dom (getAllRiskLevels ProbabilityCalculator_new) = dom BASE_PROBABILITIES.
Proof.
  split; [exact wf_new|]. exact (proj1 (risk_level_table _ wf_new)).
Defined.
(* ===================================================================== *)
(** ** fred-proxy-server.js: the response cache and the retry loop *)
(* ===================================================================== *)

Lemma cache_get_set {V} (now later : Z) (key : string) (v : V)
  (data : gmap string (Proxy.entry V)) :
  Proxy.get later key (Proxy.set now key v data)
  = if (Proxy.CACHE_DURATION_MS <? later - now)%Z then (None, delete key data)
    else (Some v, Proxy.set now key v data).
Proof.
  unfold Proxy.get, Proxy.set. rewrite lookup_insert_eq.
  cbn [Proxy.timestamp Proxy.value].
  destruct (Proxy.CACHE_DURATION_MS <? later - now)%Z; [|done].
  by rewrite delete_insert_eq.
Qed.

(** X15 (cache.set, cache.get).  A value stored at time [now] is served
    unchanged by a [get] of its key up to and including 30 minutes later,
    and the cache is left untouched; after that the [get] answers null and
    removes the entry.  A [set] has no influence on what a [get] of another
    key answers.  Whatever the cache holds, a [get] only ever removes the
    entry of the key asked for, and asking again at the same instant gives
    the same answer and changes nothing more. *)
Theorem cache_round_trip {V} (now later : Z) (key : string) (v : V)
  (data : gmap string (Proxy.entry V)) :
  ((later - now <= Proxy.CACHE_DURATION_MS)%Z ->
     Proxy.get later key (Proxy.set now key v data)
     = (Some v, Proxy.set now key v data)) /\
  ((Proxy.CACHE_DURATION_MS < later - now)%Z ->
     Proxy.get later key (Proxy.set now key v data) = (None, delete key data)) /\
  (forall other, other <> key ->
     (Proxy.get later other (Proxy.set now key v data)).1
     = (Proxy.get later other data).1) /\
  (forall other, other <> key ->
     (Proxy.get later key data).2 !! other = data !! other) /\
  Proxy.get later key (Proxy.get later key data).2 = Proxy.get later key data.
Proof.
  split; [|split; [|split; [|split]]].
  - intros H. rewrite cache_get_set.
    destruct (Z.ltb_spec Proxy.CACHE_DURATION_MS (later - now)); [lia|done].
  - intros H. rewrite cache_get_set.
    destruct (Z.ltb_spec Proxy.CACHE_DURATION_MS (later - now)); [done|lia].
  - intros other Hne. unfold Proxy.get, Proxy.set.
    rewrite lookup_insert_ne by done.
    destruct (data !! other) as [cached|]; [|done].
    by destruct (_ <? _)%Z.
  - intros other Hne. unfold Proxy.get.
    destruct (data !! key) as [cached|]; [|done].
    destruct (_ <? _)%Z; [|done]. cbn [snd]. by rewrite lookup_delete_ne.
  - unfold Proxy.get. destruct (data !! key) as [cached|] eqn:Hkey.
    + destruct (_ <? _)%Z eqn:Hage; cbn [snd].
      * by rewrite lookup_delete_eq.
      * by rewrite Hkey, Hage.
    + cbn [snd]. by rewrite Hkey.
Qed.

Lemma cache_round_trip_witness :
  Proxy.get 1800000 "fred_UNRATE_12" (Proxy.set 0 "fred_UNRATE_12" 4.2%Q ∅)
  = (Some 4.2%Q, Proxy.set 0 "fred_UNRATE_12" 4.2%Q ∅) /\
  Proxy.get 1800001 "fred_UNRATE_12" (Proxy.set 0 "fred_UNRATE_12" 4.2%Q ∅)
  = (None, delete "fred_UNRATE_12" ∅).
Proof.
  destruct (cache_round_trip 0 1800000 "fred_UNRATE_12" 4.2%Q ∅) as (H1 & _).
  destruct (cache_round_trip 0 1800001 "fred_UNRATE_12" 4.2%Q ∅) as (_ & H2 & _).
  split; [apply H1 | apply H2]; unfold Proxy.CACHE_DURATION_MS; lia.
Defined.

Lemma filter_length_all {A} (f : A -> bool) (l : list A) :
  length (List.filter f l) = length l <-> forall x, x ∈ l -> f x = true.
Proof.
  split.
  - intros H%filter_length_forallb x Hx.
    rewrite forallb_forall in H. by apply H, list_elem_of_In.
  - intros H. rewrite forallb_filter_id; [done|].
    apply forallb_forall. intros x Hx. by apply H, list_elem_of_In.
Qed.

(** X16 (cache.getStats, cache.get).  The statistics count every key once:
    total is the number of entries and fresh + stale = total.  No entry is
    counted stale exactly when every entry is younger than 30 minutes.  The
    two tests disagree at the boundary: an entry aged exactly 30 minutes is
    counted stale, yet a [get] at that instant still serves it. *)
Theorem cache_stats_count {V} (now : Z) (data : gmap string (Proxy.entry V)) :
  let s := Proxy.getStats now data in
  Proxy.total s = size data /\
  (Proxy.fresh s + Proxy.stale s = Proxy.total s)%nat /\
  (Proxy.stale s = 0%nat
   <-> forall key cached, data !! key = Some cached ->
         (now - Proxy.timestamp cached < Proxy.CACHE_DURATION_MS)%Z) /\
  (forall (key : string) (v : V),
     let aged := Proxy.set (now - Proxy.CACHE_DURATION_MS) key v ∅ in
     Proxy.stale (Proxy.getStats now aged) = 1%nat /\
     Proxy.get now key aged = (Some v, aged)).
Proof.
  cbv zeta. unfold Proxy.getStats. cbn [Proxy.total Proxy.fresh Proxy.stale].
  set (keys := (map_to_list data).*1).
  set (f := fun k => match data !! k with
                     | Some c => (now - Proxy.timestamp c <? Proxy.CACHE_DURATION_MS)%Z
                     | None => false
                     end).
  pose proof (filter_length_le f keys) as Hle.
  split; [|split; [|split]].
  - unfold keys. by rewrite length_fmap, length_map_to_list.
  - lia.
  - assert (length keys - length (List.filter f keys) = 0
            <-> length (List.filter f keys) = length keys)%nat as -> by lia.
    rewrite filter_length_all. split.
    + intros H key cached Hkey. specialize (H key). unfold f in H.
      rewrite Hkey in H. apply Z.ltb_lt, H.
      unfold keys. apply list_elem_of_fmap. exists (key, cached).
      split; [done|]. by apply elem_of_map_to_list.
    + intros H key Hin. unfold keys in Hin.
      apply list_elem_of_fmap in Hin as ([k cached] & -> & Hin).
      apply elem_of_map_to_list in Hin. unfold f. cbn [fst]. rewrite Hin.
      apply Z.ltb_lt. by eapply H.
  - intros key v. split.
    + unfold Proxy.set. rewrite insert_empty, map_to_list_singleton.
      cbn [fmap list_fmap fst List.filter]. rewrite lookup_singleton_eq.
      cbn [Proxy.timestamp].
      destruct (Z.ltb_spec (now - (now - Proxy.CACHE_DURATION_MS))
                  Proxy.CACHE_DURATION_MS); [lia|done].
    + rewrite cache_get_set.
      destruct (Z.ltb_spec Proxy.CACHE_DURATION_MS
                  (now - (now - Proxy.CACHE_DURATION_MS))); [lia|done].
Qed.

Lemma cache_stats_count_witness :
  Proxy.stale (Proxy.getStats 1000 (Proxy.set 900 "treasury_interest" 3.1%Q ∅))
  = 0%nat.
Proof.
  destruct (cache_stats_count 1000 (Proxy.set 900 "treasury_interest" 3.1%Q ∅))
    as (_ & _ & H & _).
  apply H. intros key cached Hkey. unfold Proxy.set in Hkey.
  apply lookup_insert_Some in Hkey as [[_ <-]|[_ Hkey]].
  - unfold Proxy.CACHE_DURATION_MS. cbn [Proxy.timestamp]. lia.
  - by rewrite lookup_empty in Hkey.
Defined.

(** The loop from [attempt] on when the first answer comes at request k. *)
Lemma retry_loop_success {R E} (axios : nat -> R + E) (retries k : nat)
  (response : R) (fuel attempt : nat) :
  (attempt <= k)%nat -> (k < attempt + fuel)%nat -> (k <= retries)%nat ->
  (forall j, (attempt <= j < k)%nat -> exists e, axios j = inr e) ->
  axios k = inl response ->
  Proxy.retry_loop axios retries attempt fuel
  = (Some (inl response),
     (fun j => (2 ^ Z.of_nat (j - 1) * 1000)%Z) <$> seq attempt (k - attempt)).
Proof.
  revert attempt. induction fuel as [|fuel IH]; intros attempt Hle Hlt Hk Hfail Hok;
    [lia|].
  cbn [Proxy.retry_loop]. destruct (decide (attempt = k)) as [->|Hne].
  - rewrite Hok. by rewrite Nat.sub_diag.
  - destruct (Hfail attempt) as [e ->]; [lia|].
    destruct (Nat.eqb_spec attempt retries) as [|_]; [lia|].
    rewrite (IH (S attempt)); [|lia|lia|done| |done].
    + replace (k - attempt)%nat with (S (k - S attempt)) by lia. reflexivity.
    + intros j Hj. apply Hfail. lia.
Qed.

(** The loop from [attempt] on when every request up to the last fails. *)
Lemma retry_loop_failure {R E} (axios : nat -> R + E) (retries : nat)
  (error : E) (fuel attempt : nat) :
  (attempt <= retries)%nat -> (retries < attempt + fuel)%nat ->
  (forall j, (attempt <= j < retries)%nat -> exists e, axios j = inr e) ->
  axios retries = inr error ->
  Proxy.retry_loop axios retries attempt fuel
  = (Some (inr error),
     (fun j => (2 ^ Z.of_nat (j - 1) * 1000)%Z) <$> seq attempt (retries - attempt)).
Proof.
  revert attempt. induction fuel as [|fuel IH]; intros attempt Hle Hlt Hfail Hlast;
    [lia|].
  cbn [Proxy.retry_loop]. destruct (decide (attempt = retries)) as [->|Hne].
  - rewrite Hlast, Nat.eqb_refl. by rewrite Nat.sub_diag.
  - destruct (Hfail attempt) as [e ->]; [lia|].
    destruct (Nat.eqb_spec attempt retries) as [|_]; [lia|].
    rewrite (IH (S attempt)); [|lia|lia| |done].
    + replace (retries - attempt)%nat with (S (retries - S attempt)) by lia.
      reflexivity.
    + intros j Hj. apply Hfail. lia.
Qed.

(** The sleeps of the loop are consecutive powers of two, in seconds, and
    none follows the last attempt. *)
Lemma retry_loop_delays {R E} (axios : nat -> R + E) (retries : nat)
  (fuel attempt : nat) :
  (attempt + fuel = S retries)%nat ->
  let delays := (Proxy.retry_loop axios retries attempt fuel).2 in
  delays = (fun j => (2 ^ Z.of_nat (j - 1) * 1000)%Z) <$> seq attempt (length delays)
  /\ (length delays <= fuel - 1)%nat.
Proof.
  cbv zeta. revert attempt. induction fuel as [|fuel IH]; intros attempt Hinv.
  - cbn. split; [done|lia].
  - cbn [Proxy.retry_loop]. destruct (axios attempt) as [response|error].
    + cbn. split; [done|lia].
    + destruct (Nat.eqb_spec attempt retries) as [|Hne].
      * cbn. split; [done|lia].
      * specialize (IH (S attempt) ltac:(lia)).
        destruct (Proxy.retry_loop axios retries (S attempt) fuel) as [r delays].
        cbn [snd] in *. destruct IH as [IH Hlen].
        cbn [length seq fmap list_fmap]. split; [by rewrite <- IH|lia].
Qed.

Lemma sum_backoff (m : nat) :
  foldr Z.add 0%Z ((fun j => (2 ^ Z.of_nat (j - 1) * 1000)%Z) <$> seq 1 m)
  = ((2 ^ Z.of_nat m - 1) * 1000)%Z.
Proof.
  induction m as [|m IH]; [done|].
  rewrite seq_S, fmap_app, foldr_app. cbn [fmap list_fmap foldr].
  assert (forall (l : list Z) (a : Z), foldr Z.add a l = (foldr Z.add 0 l + a)%Z) as Hacc.
  { induction l as [|x l IHl]; intros a; cbn [foldr]; [lia|]. rewrite IHl. lia. }
  rewrite Hacc, IH. replace (1 + m - 1)%nat with m by lia.
  rewrite Nat2Z.inj_succ, Z.pow_succ_r by lia. lia.
Qed.

(** X17 (fetchWithRetry).  With retries = 0 no request is made and the call
    returns undefined.  Otherwise the first request that answers, the k-th,
    ends the call with that answer after k - 1 sleeps; if all requests fail
    the error of the last one is thrown after retries - 1 sleeps, none
    following the last attempt.  The sleeps are 1000, 2000, 4000, ... ms in
    this order, so m sleeps take (2^m - 1) seconds in all. *)
Theorem retry_schedule {R E} (axios : nat -> R + E) (retries : nat) :
  (retries = 0%nat -> Proxy.fetchWithRetry axios retries = (None, [])) /\
  (forall (k : nat) (response : R),
     (1 <= k <= retries)%nat ->
     (forall j, (1 <= j < k)%nat -> exists e, axios j = inr e) ->
     axios k = inl response ->
     Proxy.fetchWithRetry axios retries
     = (Some (inl response),
        (fun j => (2 ^ Z.of_nat (j - 1) * 1000)%Z) <$> seq 1 (k - 1))) /\
  (forall error : E,
     (1 <= retries)%nat ->
     (forall j, (1 <= j < retries)%nat -> exists e, axios j = inr e) ->
     axios retries = inr error ->
     Proxy.fetchWithRetry axios retries
     = (Some (inr error),
        (fun j => (2 ^ Z.of_nat (j - 1) * 1000)%Z) <$> seq 1 (retries - 1))) /\
  (let delays := (Proxy.fetchWithRetry axios retries).2 in
   (length delays <= retries - 1)%nat /\
   foldr Z.add 0%Z delays = ((2 ^ Z.of_nat (length delays) - 1) * 1000)%Z).
Proof.
  unfold Proxy.fetchWithRetry. split; [|split; [|split]].
  - by intros ->.
  - intros k response Hk Hfail Hok.
    apply retry_loop_success; try done; lia.
  - intros error Hr Hfail Hlast.
    apply retry_loop_failure; try done; lia.
  - cbv zeta.
    destruct (retry_loop_delays axios retries retries 1 ltac:(lia)) as [Hd Hlen].
    split; [done|]. rewrite Hd at 1. apply sum_backoff.
Qed.

Lemma retry_schedule_witness :
  Proxy.fetchWithRetry
    (fun k => if (k <? 3)%nat then inr "ETIMEDOUT" else inl 200%Z) 3
  = (Some (inl 200%Z), [1000; 2000]%Z).
Proof.
  destruct (retry_schedule
              (fun k => if (k <? 3)%nat then inr "ETIMEDOUT" else inl 200%Z) 3)
    as (_ & H & _).
  apply (H 3%nat 200%Z); [lia| |reflexivity].
  intros j Hj. exists "ETIMEDOUT".
  destruct (Nat.ltb_spec j 3); [done|lia].
Defined.
(* ===================================================================== *)
(** ** The earlier calculator and the current one with trends off *)
(* ===================================================================== *)

Lemma legacy_sim_ret {A} (a : A) : legacy_sim (mret a) (mret a).
Proof. by intros l c H. Qed.

Lemma legacy_sim_bind {A B} (m : M Legacy.ProbabilityCalculator A)
  (m' : M ProbabilityCalculator A)
  (k : A -> M Legacy.ProbabilityCalculator B) (k' : A -> M ProbabilityCalculator B) :
  legacy_sim m m' -> (forall a, legacy_sim (k a) (k' a)) ->
  legacy_sim (m ≫= k) (m' ≫= k').
Proof.
  intros Hm Hk l c H. destruct (Hm l c H) as [Hr Hs].
  unfold mbind, M_bind.
  destruct (m l) as [[a|e] l1], (m' c) as [[a'|e'] c1]; cbn [fst snd] in *;
    try discriminate.
  - injection Hr as <-. by apply Hk.
  - injection Hr as <-. by split.
Qed.

Lemma legacy_sim_try {A} (m h : M Legacy.ProbabilityCalculator A)
  (m' h' : M ProbabilityCalculator A) :
  legacy_sim m m' -> legacy_sim h h' -> legacy_sim (try_ m h) (try_ m' h').
Proof.
  intros Hm Hh l c H. destruct (Hm l c H) as [Hr Hs]. unfold try_.
  destruct (m l) as [[a|e] l1], (m' c) as [[a'|e'] c1]; cbn [fst snd] in *;
    try discriminate.
  - injection Hr as <-. by split.
  - by apply Hh.
Qed.

Lemma legacy_sim_when (cond : bool) (m : M Legacy.ProbabilityCalculator unit)
  (m' : M ProbabilityCalculator unit) :
  legacy_sim m m' -> legacy_sim (when cond m) (when cond m').
Proof. intros H. destruct cond; [done | apply legacy_sim_ret]. Qed.

Lemma legacy_sim_deref (indicators : snapshot) :
  legacy_sim (deref indicators) (deref indicators).
Proof. by intros l c H; destruct indicators. Qed.

Lemma legacy_sim_lift {A} (o : outcome A) : legacy_sim (lift o) (lift o).
Proof. by intros l c H. Qed.

Lemma legacy_sim_for_of {X} (body : X -> M Legacy.ProbabilityCalculator unit)
  (body' : X -> M ProbabilityCalculator unit) (xs : list X) :
  (forall x, legacy_sim (body x) (body' x)) ->
  legacy_sim (for_of body xs) (for_of body' xs).
Proof.
  intros H. induction xs as [|x xs IH]; cbn [for_of].
  - apply legacy_sim_ret.
  - apply legacy_sim_bind; [apply H | by intros _].
Qed.

(** Pushing the configured factor on one side and a factor of the same
    weight on the other. *)
Lemma legacy_sim_push (event : string) (th : Threshold.t) (f : Factor.t) :
  Factor.factor f = Threshold.factor th ->
  Factor.reason f = Threshold.reason th ->
  legacy_sim (Legacy.push event th) (push event f).
Proof.
  intros Hf Hr l c (Hp & Hfac & Hoff).
  unfold Legacy.push, push, mbind, M_bind, get, modify, throw.
  pose proof (Hfac event) as Hev.
  destruct Hev as [factors factors' Hsame|]; cbn [fst snd].
  - split; [done|]. split; [done|]. split; [|done].
    intros event'. cbn [Legacy.updateFactors updateFactors Legacy.set_updateFactors
                          set_updateFactors].
    destruct (decide (event' = event)) as [->|Hne].
    + rewrite !lookup_insert_eq. constructor. apply Forall2_app; [done|].
      constructor; [|constructor]. by split.
    + rewrite !lookup_insert_ne by done. apply Hfac.
  - by split.
Qed.

Lemma legacy_sim_push_plain (event : string) (th : Threshold.t) :
  legacy_sim (Legacy.push event th) (push_plain event th).
Proof. by apply legacy_sim_push. Qed.

(** With trend analysis off the adjusted push stores the configured
    factor. *)
Lemma legacy_sim_push_trend_adjusted (event : string) (th : Threshold.t)
  (seriesId : string) :
  legacy_sim (Legacy.push event th) (push_trend_adjusted event th seriesId).
Proof.
  intros l c H. unfold push_trend_adjusted.
  change ((get ≫= _) c) with
    (push event
       {| Factor.factor := applyTrendAdjustment (Threshold.factor th) seriesId c;
          Factor.baseFactor := Some (Threshold.factor th);
          Factor.reason := Threshold.reason th;
          Factor.trendAdjusted :=
            Some (negb (js_eq (applyTrendAdjustment (Threshold.factor th) seriesId c)
                          (Threshold.factor th))) |} c).
  apply legacy_sim_push; [|done|done].
  cbn [Factor.factor]. apply applyTrendAdjustment_off. by destruct H as (_ & _ & ?).
Qed.

Lemma legacy_sim_composite_rule (o : gmap string indicator) (id1 id2 : string)
  (op : num -> num -> num) (event : string) (th : Threshold.t) :
  legacy_sim (Legacy.composite_rule o id1 id2 op event th)
    (composite_rule o id1 id2 op event th).
Proof.
  unfold Legacy.composite_rule, composite_rule.
  destruct (o !! id1) as [i1|]; [|apply legacy_sim_ret].
  destruct (o !! id2) as [i2|]; [|apply legacy_sim_ret].
  apply legacy_sim_try; [|apply legacy_sim_ret].
  apply legacy_sim_bind; [apply legacy_sim_lift|]. intros v1.
  apply legacy_sim_bind; [apply legacy_sim_lift|]. intros v2.
  apply legacy_sim_when, legacy_sim_push_plain.
Qed.

Ltac legacy_steps :=
  repeat first
    [ apply legacy_sim_bind; [|intros ?]
    | apply legacy_sim_deref
    | apply legacy_sim_when
    | apply legacy_sim_push_plain
    | apply legacy_sim_push_trend_adjusted
    | apply legacy_sim_composite_rule ].

Lemma legacy_sim_recession (indicators : snapshot) :
  legacy_sim (Legacy.calculateRecessionFactors indicators)
    (calculateRecessionFactors indicators).
Proof.
  unfold Legacy.calculateRecessionFactors, calculateRecessionFactors.
  cbv zeta. legacy_steps.
Qed.

Lemma legacy_sim_depression (indicators : snapshot) :
  legacy_sim (Legacy.calculateDepressionFactors indicators)
    (calculateDepressionFactors indicators).
Proof.
  unfold Legacy.calculateDepressionFactors, calculateDepressionFactors.
  cbv zeta. legacy_steps.
Qed.

Lemma legacy_sim_reserve (indicators : snapshot) :
  legacy_sim (Legacy.calculateReserveFactors indicators)
    (calculateReserveFactors indicators).
Proof.
  unfold Legacy.calculateReserveFactors, calculateReserveFactors.
  cbv zeta. legacy_steps.
Qed.

Lemma legacy_sim_default (indicators : snapshot) :
  legacy_sim (Legacy.calculateDefaultFactors indicators)
    (calculateDefaultFactors indicators).
Proof.
  unfold Legacy.calculateDefaultFactors, calculateDefaultFactors.
  cbv zeta. legacy_steps.
Qed.

Lemma legacy_sim_devaluation (indicators : snapshot) :
  legacy_sim (Legacy.calculateDevaluationFactors indicators)
    (calculateDevaluationFactors indicators).
Proof.
  unfold Legacy.calculateDevaluationFactors, calculateDevaluationFactors.
  cbv zeta. legacy_steps.
Qed.

(** The aggregation reads a factor list through its length and the factors'
    weights only. *)
Lemma probability_of_same_weight (event : string) (factors factors' : list Factor.t) :
  Forall2 same_weight factors factors' ->
  probability_of event factors = probability_of event factors'.
Proof.
  intros H. unfold probability_of, combinedFactor_of, product_of_factors.
  rewrite (Forall2_length _ _ _ H).
  assert (forall acc,
            foldl (fun acc f => (acc * Factor.factor f)%num) acc factors
            = foldl (fun acc f => (acc * Factor.factor f)%num) acc factors') as ->;
    [|done].
  induction H as [|f g factors factors' [Hf _] _ IH]; intros acc; [done|].
  cbn [foldl]. by rewrite Hf, IH.
Qed.

Lemma legacy_sim_aggregation :
  legacy_sim Legacy.calculateAllProbabilities calculateAllProbabilities.
Proof.
  intros l c H. unfold Legacy.calculateAllProbabilities, calculateAllProbabilities.
  change ((get ≫= ?k) l) with (k l l). change ((get ≫= ?k) c) with (k c c).
  cbv beta. destruct H as (Hp & Hfac & Hoff) eqn:HH. clear HH. rewrite Hp.
  apply legacy_sim_for_of; [|done].
  intros event l1 c1 (Hp1 & Hfac1 & Hoff1).
  unfold mbind, M_bind, get, modify, throw.
  destruct (Hfac1 event) as [factors factors' Hsame|]; cbn [fst snd].
  - split; [done|]. split; [|done].
    cbn [Legacy.currentProbabilities currentProbabilities
         Legacy.set_currentProbabilities set_currentProbabilities].
    by rewrite Hp1, (probability_of_same_weight _ _ _ Hsame).
  - by split.
Qed.

(** The step only the current class has is skipped when trend analysis is
    off. *)
Lemma legacy_sim_skip_trends {A} (trends : M ProbabilityCalculator unit)
  (m : M Legacy.ProbabilityCalculator A) (m' : M ProbabilityCalculator A) :
  legacy_sim m m' ->
  legacy_sim m (c ← get; _ ← when (useTrendAnalysis c) trends; m').
Proof.
  intros H l c Hv. pose proof Hv as (_ & _ & Hoff).
  unfold mbind, M_bind, get. rewrite Hoff. cbn [when mret M_ret].
  by apply H.
Qed.

Lemma legacy_sim_fallback :
  legacy_sim
    (_ ← modify (Legacy.set_currentProbabilities BASE_PROBABILITIES);
     c' ← get; mret (Legacy.currentProbabilities c'))
    (_ ← modify (set_currentProbabilities BASE_PROBABILITIES);
     c' ← get; mret (currentProbabilities c')).
Proof. intros l c (Hp & Hfac & Hoff). by split. Qed.

Lemma legacy_sim_result :
  legacy_sim (c' ← get; mret (Legacy.currentProbabilities c'))
    (c' ← get; mret (currentProbabilities c')).
Proof.
  intros l c Hv. pose proof Hv as (Hp & _).
  unfold mbind, M_bind, get, mret, M_ret. cbn [fst snd]. by rewrite Hp.
Qed.

(** A cycle starts by emptying the factor lists, which makes any two states
    with the same probabilities match. *)
Lemma legacy_sim_after_reset {A} (k h : M Legacy.ProbabilityCalculator A)
  (k' h' : M ProbabilityCalculator A)
  (l : Legacy.ProbabilityCalculator) (c : ProbabilityCalculator) :
  legacy_sim k k' -> legacy_sim h h' ->
  Legacy.currentProbabilities l = currentProbabilities c ->
  useTrendAnalysis c = false ->
  (try_ (_ ← Legacy.resetFactors; k) h l).1 = (try_ (_ ← resetFactors; k') h' c).1 /\
  legacy_view (try_ (_ ← Legacy.resetFactors; k) h l).2
    (try_ (_ ← resetFactors; k') h' c).2.
Proof.
  intros Hk Hh Hp Hoff.
  change (try_ (_ ← Legacy.resetFactors; k) h l)
    with (try_ k h (Legacy.set_updateFactors no_factors l)).
  change (try_ (_ ← resetFactors; k') h' c)
    with (try_ k' h' (set_updateFactors no_factors c)).
  apply legacy_sim_try; [done|done|].
  split; [done|]. split; [|done].
  intros event. cbn [Legacy.updateFactors Legacy.set_updateFactors updateFactors
                       set_updateFactors].
  destruct (no_factors !! event) as [factors|]; constructor.
  induction factors; constructor; [by split | done].
Qed.

(** X18 (the earlier ProbabilityCalculator.updateProbabilities against the
    current one).  From states holding the same probabilities, a cycle of
    the earlier calculator and a cycle of the current calculator with trend
    analysis switched off return the same probabilities for every snapshot
    argument and whatever the analyzer would do, and leave the same
    probabilities and, event by event, factor lists with the same factors
    and reasons in the same order.  The condition holds again afterwards, so
    the two agree over any sequence of cycles from construction. *)
Theorem legacy_calculator_is_trends_off
  (analyze : snapshot -> M TrendAnalyzer (gmap string num))
  (indicators : snapshot)
  (l : Legacy.ProbabilityCalculator) (c : ProbabilityCalculator) :
  Legacy.currentProbabilities l = currentProbabilities c ->
  let old := Legacy.updateProbabilities indicators l in
  let new := updateProbabilities_via analyze indicators (setTrendAnalysis false c) in
  old.1 = new.1 /\
  Legacy.currentProbabilities old.2 = currentProbabilities new.2 /\
  (forall event,
     option_Forall2 (Forall2 same_weight)
       (Legacy.updateFactors old.2 !! event) (updateFactors new.2 !! event)) /\
  useTrendAnalysis new.2 = false.
Proof.
  intros Hp old new. subst old new.
  unfold Legacy.updateProbabilities, updateProbabilities_via.
  apply legacy_sim_after_reset; [| |done|done].
  - apply legacy_sim_skip_trends.
    apply legacy_sim_bind; [apply legacy_sim_recession | intros _].
    apply legacy_sim_bind; [apply legacy_sim_depression | intros _].
    apply legacy_sim_bind; [apply legacy_sim_reserve | intros _].
    apply legacy_sim_bind; [apply legacy_sim_default | intros _].
    apply legacy_sim_bind; [apply legacy_sim_devaluation | intros _].
    apply legacy_sim_bind; [apply legacy_sim_aggregation | intros _].
    apply legacy_sim_result.
  - apply legacy_sim_fallback.
Qed.

Lemma legacy_calculator_is_trends_off_witness :
  (Legacy.updateProbabilities (Some Samples.two_triggers)
     Legacy.ProbabilityCalculator_new).1
  = (updateProbabilities_via Samples.failing_analyzer (Some Samples.two_triggers)
       (setTrendAnalysis false ProbabilityCalculator_new)).1.
Proof.
  exact (proj1 (legacy_calculator_is_trends_off Samples.failing_analyzer
                  (Some Samples.two_triggers) Legacy.ProbabilityCalculator_new
                  ProbabilityCalculator_new eq_refl)).
Defined.
